(** * Kinetics data reduction ([triplicate_aa_plot.py]): parser, converter, aggregator

    A shallow embedding of the data-reduction pipeline of
    [src/triplicate_aa_plot.py] and the properties its specification states.

    Numbers are the program's own: a Python [float] and a NumPy [float64] are
    IEEE-754 binary64 values, and so is Rocq's primitive [float]; [+], [-],
    [*], [/] and [sqrt] below are the hardware operations, specified by
    [SpecFloat] through the standard library's [FloatAxioms].

    Text is a sequence of characters with code points below 256 (Rocq's
    [ascii]); a file is its decoded content.  The built-ins are those of
    Python 3 ([str.split], [float], universal newlines) and the array
    operations those of NumPy 1.24 or later; SciPy's fit and the plot are not
    modelled.

    The claims of the specification come first; the rest of the program
    ([main], [print_data], [fit_plateau], [fitfunc]) and further properties of
    the parser, the converter and the aggregator follow. *)

From Stdlib Require Import ZArith List String Ascii Bool Lia Sorted.
From Stdlib Require Import Floats.
From Stdlib Require Decimal DecimalString.
Import ListNotations.

#[local] Open Scope string_scope.
#[local] Open Scope list_scope.

(** * The program *)

(** ** Exceptions and results *)

(** The Python exceptions the modelled code can raise, each with the
    operation that raises it. *)
Inductive raiser := by_float | by_np_reshape.

Inductive exn :=
| IndexError          (* [entries[0]], [entries[1]], [cpm_array[0]], [rxns[0]] *)
| UnboundLocalError   (* [time_array] or [cpm_array] read before any [conc] line *)
| ValueError (r : raiser).

Inductive result (A : Type) :=
| Ok (a : A)
| Raise (e : exn).
Arguments Ok {A} a.
Arguments Raise {A} e.

Definition bind {A B} (m : result A) (k : A -> result B) : result B :=
  match m with
  | Ok a => k a
  | Raise e => Raise e
  end.

Notation "x <- m ;; k" := (bind m (fun x => k))
  (at level 61, m at next level, right associativity).

(** ** Text: [readlines] and [str.split] *)

Module Text.

Definition LF : ascii := "010"%char.
Definition CR : ascii := "013"%char.

(** [str.isspace] on one character, for code points below 256:
    TAB, LF, VT, FF, CR, FS, GS, RS, US, SPACE, NEL and NBSP. *)
Definition isspace (c : ascii) : bool :=
  let n := N_of_ascii c in
  ((9 <=? n) && (n <=? 13) || (28 <=? n) && (n <=? 32)
   || (n =? 133) || (n =? 160))%N.

(** [file.readlines()] in text mode (universal newlines): a line ends
    after LF, CR or CR LF, each read as a single LF; a last line
    without terminator is a line too.  [cur] is the current line, reversed;
    [after_cr] is set when the previous character was a CR. *)
Fixpoint readlines_from (s : string) (cur : list ascii) (after_cr : bool)
  : list string :=
  match s with
  | EmptyString =>
      match cur with
      | [] => []
      | _ => [string_of_list_ascii (rev cur)]
      end
  | String c s' =>
      if Ascii.eqb c LF then
        if after_cr then readlines_from s' cur false
        else string_of_list_ascii (rev (LF :: cur)) :: readlines_from s' [] false
      else if Ascii.eqb c CR then
        string_of_list_ascii (rev (LF :: cur)) :: readlines_from s' [] true
      else readlines_from s' (c :: cur) false
  end.

Definition readlines (s : string) : list string := readlines_from s [] false.

(** [line.split()]: the maximal runs of characters that are not white
    space.  [cur] is the current token, reversed. *)
Fixpoint split_from (s : string) (cur : list ascii) : list string :=
  match s with
  | EmptyString =>
      match cur with
      | [] => []
      | _ => [string_of_list_ascii (rev cur)]
      end
  | String c s' =>
      if isspace c then
        match cur with
        | [] => split_from s' []
        | _ => string_of_list_ascii (rev cur) :: split_from s' []
        end
      else split_from s' (c :: cur)
  end.

Definition split (s : string) : list string := split_from s [].

End Text.

(** ** Python's [float(str)] *)

Module PyFloat.

Definition is_digit (c : ascii) : bool :=
  let n := N_of_ascii c in ((48 <=? n) && (n <=? 57))%N.

Definition digit_value (c : ascii) : Z := Z.of_N (N_of_ascii c) - 48.

(** ASCII lower-casing, for the case-insensitive [inf], [infinity], [nan]. *)
Definition lower (c : ascii) : ascii :=
  let n := N_of_ascii c in
  if ((65 <=? n) && (n <=? 90))%N then ascii_of_N (n + 32) else c.

(** Underscores are allowed between two digits only; they are removed
    before the number is read.  [prev] is the previous character. *)
Fixpoint strip_underscores (s : list ascii) (prev : ascii)
  : option (list ascii) :=
  match s with
  | [] => if Ascii.eqb prev "_" then None else Some []
  | c :: s' =>
      if Ascii.eqb c "_" then
        if is_digit prev then strip_underscores s' c else None
      else if Ascii.eqb prev "_" && negb (is_digit c) then None
      else option_map (cons c) (strip_underscores s' c)
  end.

(** The leading run of digits: its value after [acc], its length, the rest. *)
Fixpoint digits (s : list ascii) (acc : Z) (n : nat) : Z * nat * list ascii :=
  match s with
  | c :: s' =>
      if is_digit c then digits s' (10 * acc + digit_value c) (S n)
      else (acc, n, s)
  | [] => (acc, n, [])
  end.

Definition sign (s : list ascii) : bool * list ascii :=
  match s with
  | "-"%char :: s' => (true, s')
  | "+"%char :: s' => (false, s')
  | _ => (false, s)
  end.

(** The optional exponent part, which must end the string. *)
Definition exponent (s : list ascii) : option Z :=
  match s with
  | [] => Some 0%Z
  | c :: s' =>
      if Ascii.eqb (lower c) "e" then
        let '(neg, s'') := sign s' in
        match digits s'' 0 0 with
        | (_, O, _) => None
        | (e, _, []) => Some (if neg then - e else e)%Z
        | _ => None
        end
      else None
  end.

(** [number [exponent]] as mantissa and power of ten: [m * 10 ^ e]. *)
Definition decimal (s : list ascii) : option (Z * Z) :=
  let '(ip, ni, s1) := digits s 0 0 in
  let '(m, nf, s2) :=
    match s1 with
    | "."%char :: s1' => digits s1' ip 0
    | _ => (ip, O, s1)
    end in
  match (ni + nf)%nat with
  | O => None
  | _ => option_map (fun e => (m, e - Z.of_nat nf)%Z) (exponent s2)
  end.

(** The binary64 nearest to [m * 10 ^ e] (ties to even), [m > 0]. *)
Definition round_decimal (neg : bool) (m : positive) (e : Z) : spec_float :=
  match e with
  | Zneg k =>
      SFdiv prec emax (S754_finite neg m 0) (S754_finite false (10 ^ k) 0)
  | _ => binary_round prec emax neg (m * Z.to_pos (10 ^ e)) 0
  end.

Definition of_decimal (neg : bool) (m e : Z) : float :=
  match m with
  | Zpos p => SF2Prim (round_decimal neg p e)
  | _ => if neg then neg_zero else zero
  end.

Definition parse (s : string) : option float :=
  match strip_underscores (list_ascii_of_string s) "000" with
  | None => None
  | Some cs =>
      let '(neg, body) := sign cs in
      let word := string_of_list_ascii (map lower body) in
      if String.eqb word "inf" || String.eqb word "infinity" then
        Some (if neg then neg_infinity else infinity)
      else if String.eqb word "nan" then Some nan
      else option_map (fun '(m, e) => of_decimal neg m e) (decimal body)
  end.

End PyFloat.

(** [float(s)]: the value, or [ValueError]. *)
Definition float_of_str (s : string) : result float :=
  match PyFloat.parse s with
  | Some f => Ok f
  | None => Raise (ValueError by_float)
  end.

(** ** The [Reaction] class *)

(** A Python value as the attributes [pars] and [r2] hold one: the integer
    [0] they are initialised with, or what [fit] returns. *)
Inductive pyval :=
| PyInt (z : Z)
| PyFloat (f : float)
| PyArray (a : list float).

Record Reaction := mkReaction {
  cpm_array : list float;             (* the raw CPM *)
  time_array : list float;            (* the time *)
  sa : float;                         (* specific activity *)
  pars : pyval;                       (* fitted parameters *)
  r2 : pyval;                         (* R squared *)
  normalized_cpm_array : list float;  (* the raw CPM - the CPM of time 0 *)
  aa_conc : float;                    (* concentration of amino acid *)
  conc_array : list float             (* concentration of charged tRNA *)
}.

(** [Reaction.__init__(self, time_array, cpm_array, sa, aa_conc)]. *)
Definition Reaction_init (time_array cpm_array : list float) (sa aa_conc : float)
  : Reaction :=
  {| cpm_array := cpm_array;
     time_array := time_array;
     sa := sa;
     pars := PyInt 0;
     r2 := PyInt 0;
     normalized_cpm_array := [];
     aa_conc := aa_conc;
     conc_array := [] |}.

Definition set_normalized_cpm_array (self : Reaction) (v : list float) : Reaction :=
  {| cpm_array := cpm_array self;
     time_array := time_array self;
     sa := sa self;
     pars := pars self;
     r2 := r2 self;
     normalized_cpm_array := v;
     aa_conc := aa_conc self;
     conc_array := conc_array self |}.

Definition set_conc_array (self : Reaction) (v : list float) : Reaction :=
  {| cpm_array := cpm_array self;
     time_array := time_array self;
     sa := sa self;
     pars := pars self;
     r2 := r2 self;
     normalized_cpm_array := normalized_cpm_array self;
     aa_conc := aa_conc self;
     conc_array := v |}.

(** [a[i]] on a sequence: the element, or [IndexError]. *)
Definition getitem {A} (a : list A) (i : nat) : result A :=
  match nth_error a i with
  | Some x => Ok x
  | None => Raise IndexError
  end.

(** [Reaction.calc_conc(self)]: the object after the call and the outcome of
    the call.  The arithmetic is NumPy's, element by element; a division by
    zero yields an infinity or a NaN, not an exception. *)
Definition calc_conc (self : Reaction) : Reaction * result unit :=
  match getitem (cpm_array self) 0 with
  | Raise e => (self, Raise e)
  | Ok cpm0 =>
      let self1 :=
        set_normalized_cpm_array self
          (map (fun c => c - cpm0)%float (cpm_array self)) in
      let self2 :=
        set_conc_array self1
          (map (fun c => c / sa self1 * aa_conc self1)%float
               (normalized_cpm_array self1)) in
      (self2, Ok tt)
  end.

(** ** [read_data] *)

(** The local variables of [read_data]; [time_array] and [cpm_array] are
    unbound ([None]) until a [conc] line binds them.  [aa_conc] starts as the
    integer [0], which NumPy arithmetic reads as [0.0]. *)
Record locals := mkLocals {
  l_rxns : list Reaction;
  l_aa_conc : float;
  l_time_array : option (list float);
  l_cpm_array : option (list float)
}.

Definition load (v : option (list float)) : result (list float) :=
  match v with
  | Some a => Ok a
  | None => Raise UnboundLocalError
  end.

(** The body of the [for line in ifile.readlines()] loop. *)
Definition read_line (l : locals) (line : string) : result locals :=
  let entries := Text.split line in
  time <- getitem entries 0 ;;
  cpm <- getitem entries 1 ;;
  if String.eqb time "conc" then
    aa <- float_of_str cpm ;;
    Ok (mkLocals (l_rxns l) aa (Some []) (Some []))
  else if String.eqb time "sa" then
    ta <- load (l_time_array l) ;;
    ca <- load (l_cpm_array l) ;;
    s <- float_of_str cpm ;;
    Ok (mkLocals (l_rxns l ++ [Reaction_init ta ca s (l_aa_conc l)])
                 (l_aa_conc l) (l_time_array l) (l_cpm_array l))
  else
    ta <- load (l_time_array l) ;;
    t <- float_of_str time ;;
    ca <- load (l_cpm_array l) ;;
    c <- float_of_str cpm ;;
    Ok (mkLocals (l_rxns l) (l_aa_conc l) (Some (ta ++ [t])) (Some (ca ++ [c]))).

Fixpoint read_lines (l : locals) (lines : list string) : result locals :=
  match lines with
  | [] => Ok l
  | line :: rest => l' <- read_line l line ;; read_lines l' rest
  end.

Definition read_init : locals := mkLocals [] 0%float None None.

(** [read_data], on the lines of the file and on its text. *)
Definition read_data_lines (lines : list string) : result (list Reaction) :=
  l <- read_lines read_init lines ;; Ok (l_rxns l).

Definition read_data (text : string) : result (list Reaction) :=
  read_data_lines (Text.readlines text).

(** ** The aggregation in [plot_multiple_fit] *)

Module Np.

(** [m] rows of [n] elements each, in order, out of [data]. *)
Fixpoint chunks (m n : nat) (data : list float) : list (list float) :=
  match m with
  | O => []
  | S m' => firstn n data :: chunks m' n (skipn n data)
  end.

Definition row_length (rows : list (list float)) : nat :=
  match rows with
  | [] => O
  | r :: _ => List.length r
  end.

(** [np.reshape(rows, [m, n])] on a list of one-dimensional arrays: rows
    of different lengths make no array (NumPy 1.24 and later raise
    [ValueError]), and the sizes must agree. *)
Definition reshape (rows : list (list float)) (m n : nat)
  : result (list (list float)) :=
  let len := row_length rows in
  if forallb (fun r => Nat.eqb (List.length r) len) rows then
    if Nat.eqb (List.length rows * len) (m * n) then Ok (chunks m n (List.concat rows))
    else Raise (ValueError by_np_reshape)
  else Raise (ValueError by_np_reshape).

(** Column [j] of a matrix given by its rows. *)
Definition column (rows : list (list float)) (j : nat) : list float :=
  map (fun r => nth j r nan) rows.

(** *** [np.add.reduce] along axis 0

    NumPy adds a matrix of two columns or more row by row: each column is
    added in order, from the identity [0.0].  A matrix of one column is one
    contiguous run, and its sum is the pairwise sum of NumPy
    ([DOUBLE_pairwise_sum]), added to the identity. *)

(** [r[k] += a[i + k]] for [k] below 8. *)
Definition add8 (r a : list float) : list float :=
  map (fun p => (fst p + snd p)%float) (combine r a).

(** The loop that adds the blocks of eight to the eight accumulators; what
    is left of [a] comes with them. *)
Fixpoint unrolled (blocks : nat) (r a : list float)
  : list float * list float :=
  match blocks with
  | O => (r, a)
  | S b => unrolled b (add8 r (firstn 8 a)) (skipn 8 a)
  end.

(** [((r[0] + r[1]) + (r[2] + r[3])) + ((r[4] + r[5]) + (r[6] + r[7]))]. *)
Definition tree8 (r : list float) : float :=
  let r k := nth k r 0%float in
  ((r 0%nat + r 1%nat) + (r 2%nat + r 3%nat)
   + ((r 4%nat + r 5%nat) + (r 6%nat + r 7%nat)))%float.

(** The sum of 8 to 128 numbers: eight accumulators over the blocks of
    eight, then the numbers beyond the last whole block, in order. *)
Definition block_sum (a : list float) : float :=
  let (r, rest) :=
    unrolled (List.length a / 8 - 1) (firstn 8 a) (skipn 8 a) in
  fold_left PrimFloat.add rest (tree8 r).

(** [DOUBLE_pairwise_sum(a, n, stride)]: fewer than 8 numbers are added in
    order from [-0.0]; more than 128 are split in two, the first part a
    multiple of 8.  [fuel] bounds the depth of the splitting; the length of
    [a] is enough. *)
Fixpoint pairwise_sum (fuel : nat) (a : list float) : float :=
  let n := List.length a in
  if Nat.ltb n 8 then fold_left PrimFloat.add a (-0)%float
  else if Nat.leb n 128 then block_sum a
  else
    match fuel with
    | O => block_sum a
    | S fuel' =>
        let n2 := (n / 2 - (n / 2) mod 8)%nat in
        (pairwise_sum fuel' (firstn n2 a)
         + pairwise_sum fuel' (skipn n2 a))%float
    end.

(** The sum of one column; [contiguous] tells a matrix of one column. *)
Definition sum (contiguous : bool) (col : list float) : float :=
  if contiguous then (0 + pairwise_sum (List.length col) col)%float
  else fold_left PrimFloat.add col 0%float.

Definition count (n : nat) : float :=
  PrimFloat.of_uint63 (Uint63.of_Z (Z.of_nat n)).

(** [np.average(., axis=0)] for one column: [sum / count]. *)
Definition mean (contiguous : bool) (col : list float) : float :=
  (sum contiguous col / count (List.length col))%float.

(** [np.std(., axis=0)] for one column, with NumPy's default [ddof = 0]:
    [sqrt (sum ((x - mean) * (x - mean)) / max (count - ddof) 0)]. *)
Definition ddof : nat := 0.

Definition std (contiguous : bool) (col : list float) : float :=
  let arrmean := mean contiguous col in
  let x := map (fun a => a - arrmean)%float col in
  let xx := map (fun d => d * d)%float x in
  PrimFloat.sqrt (sum contiguous xx / count (List.length col - ddof))%float.

(** The columns of a matrix of [n] columns. *)
Definition average_axis0 (rows : list (list float)) (n : nat) : list float :=
  map (fun j => mean (Nat.eqb n 1) (column rows j)) (seq 0 n).

Definition std_axis0 (rows : list (list float)) (n : nat) : list float :=
  map (fun j => std (Nat.eqb n 1) (column rows j)) (seq 0 n).

End Np.

(** Lines 119 to 132 of [plot_multiple_fit]: the mean and the standard
    deviation of the concentrations at each time point, over the reactions. *)
Definition aggregate (rxns : list Reaction) : result (list float * list float) :=
  rxn0 <- getitem rxns 0 ;;
  let time_array := time_array rxn0 in
  let num_rxns := List.length rxns in
  let num_data_points := List.length time_array in
  let concat_conc_array := map conc_array rxns in
  conc_matrix <- Np.reshape concat_conc_array num_rxns num_data_points ;;
  let ave_conc_array := Np.average_axis0 conc_matrix num_data_points in
  let std_conc_array := Np.std_axis0 conc_matrix num_data_points in
  Ok (ave_conc_array, std_conc_array).

(** * Notions of the statements *)

(** ** Files and lines *)

Definition newline : string := String Text.LF "".

(** The five-line file of the specification's example. *)
Definition example_file : string :=
  "conc 10.0" ++ newline ++
  "0.0 100.0" ++ newline ++
  "5.0 150.0" ++ newline ++
  "10.0 180.0" ++ newline ++
  "sa 50.0" ++ newline.

(** A line whose first two tokens are [key] and a number [v]. *)
Definition keyword_line (key : string) (line : string) (v : float) : Prop :=
  exists tok rest,
    Text.split line = key :: tok :: rest /\ float_of_str tok = Ok v.

(** A line [<time> <signal>]: the first token is neither keyword and the
    first two tokens are the numbers [fst tc] and [snd tc]. *)
Definition data_line (line : string) (tc : float * float) : Prop :=
  exists t0 t1 rest,
    Text.split line = t0 :: t1 :: rest /\
    t0 <> "conc" /\ t0 <> "sa" /\
    float_of_str t0 = Ok (fst tc) /\ float_of_str t1 = Ok (snd tc).

(** The locals while no [conc] line has been read. *)
Definition unbound (l : locals) : Prop :=
  l_rxns l = [] /\ l_time_array l = None /\ l_cpm_array l = None.

Definition first_token (line : string) : option string :=
  hd_error (Text.split line).

(** The error of a line that is not a [conc] line, read while the buffers
    are unbound: [entries[0]] and [entries[1]] come before the buffers. *)
Definition unbound_error (line : string) : exn :=
  if Nat.ltb (List.length (Text.split line)) 2 then IndexError
  else UnboundLocalError.

Definition nospace (cs : list ascii) : bool :=
  forallb (fun c => negb (Text.isspace c)) cs.

(** A token: not empty and free of white space. *)
Definition token (t : string) : Prop :=
  t <> "" /\ nospace (list_ascii_of_string t) = true.

(** ** Reactions *)

(** A reaction after [calc_conc], read from a file: as many concentrations
    as times. *)
Definition converted (r : Reaction) : Prop :=
  List.length (conc_array r) = List.length (time_array r).

(** The mean and the standard deviation of a column of one element. *)
Definition mean1 (c : float) : float := ((0 + c) / 1)%float.

Definition std1 (c : float) : float :=
  PrimFloat.sqrt ((0 + (c - mean1 c) * (c - mean1 c)) / 1)%float.

(** Two reactions of three and of two time points, as read and converted. *)
Definition three_points : Reaction :=
  fst (calc_conc (Reaction_init [0; 5; 10]%float [100; 150; 180]%float 50 10)).

Definition two_points : Reaction :=
  fst (calc_conc (Reaction_init [0; 5]%float [100; 150]%float 50 10)).

Definition two_points_high : Reaction :=
  fst (calc_conc (Reaction_init [0; 5]%float [100; 250]%float 50 10)).

(** A reaction of one time point with the concentration [x]. *)
Definition one_point (x : float) : Reaction :=
  {| cpm_array := [x];
     time_array := [0%float];
     sa := 1;
     pars := PyInt 0;
     r2 := PyInt 0;
     normalized_cpm_array := [x];
     aa_conc := 1;
     conc_array := [x] |}.

(** The conversion of one count, as [calc_conc] does it. *)
Definition conc_of (cpm0 sa aa : float) (c : float) : float :=
  ((c - cpm0) / sa * aa)%float.

(** [l[i] <= l[i+1]] at every index. *)
Fixpoint nondecreasing (l : list float) : bool :=
  match l with
  | [] => true
  | a :: t =>
      match t with
      | [] => true
      | b :: _ => (a <=? b)%float && nondecreasing t
      end
  end.

(** ** Binary64 numbers as integers *)

(** The class of a value: a zero or a non-zero finite number. *)
Definition sf_finite (x : spec_float) : bool :=
  match x with
  | S754_zero _ | S754_finite _ _ _ => true
  | _ => false
  end.

Definition sf_zero (x : spec_float) : bool :=
  match x with
  | S754_zero _ => true
  | _ => false
  end.

Definition sf_nan (x : spec_float) : bool :=
  match x with
  | S754_nan => true
  | _ => false
  end.

(** Every finite binary64 number is an integer number of units of
    [2^-1074], below [overflow] in magnitude; the infinities stand at
    [overflow]. *)
Definition overflow : Z := (2 ^ 2098)%Z.

(** The magnitude of a finite number, in units. *)
Definition magnitude (m : positive) (e : Z) : Z := (Z.pos m * 2 ^ (e + 1074))%Z.

Definition sf_units (x : spec_float) : Z :=
  match x with
  | S754_zero _ => 0%Z
  | S754_nan => 0%Z
  | S754_infinity s => cond_Zopp s overflow
  | S754_finite s m e => cond_Zopp s (Z.pos m * 2 ^ (e + 1074))%Z
  end.

Definition units (x : float) : Z := sf_units (Prim2SF x).

Definition units_le (a b : float) : Prop := (units a <= units b)%Z.

(** ** Rounding to nearest, ties to even *)

(** Whether the quotient [M + r / B], [0 <= r < B], rounds up to [M + 1]. *)
Definition round_up (M r B : Z) : bool :=
  ((B <? 2 * r) || ((B =? 2 * r) && Z.odd M))%Z.

(** The integer nearest to [A / B], ties to even. *)
Definition nearest_even (A B : Z) : Z :=
  (A / B + (if round_up (A / B) (A mod B) B then 1 else 0))%Z.

(** The exponent, in units, of the binary64 numbers around [N / Den]
    units: 53 bits are kept. *)
Definition round_exponent (N Den : Z) : Z := Z.max (Z.log2 (N / Den) - 52) 0.

(** [N / Den] units rounded to a binary64 number, in units. *)
Definition round_quotient (N Den : Z) : Z :=
  let k := round_exponent N Den in
  Z.min (nearest_even N (Den * 2 ^ k) * 2 ^ k) overflow.

(** The record of the quotient [A / B] in the rounding of [SpecFloat]:
    integer part, round bit, sticky bit. *)
Definition quotient_record (A B : Z) : shr_record :=
  Build_shr_record (A / B) (B <=? 2 * (A mod B))%Z
    (negb ((A mod B =? 0) || (2 * (A mod B) =? B)))%Z.

(** The odd extension of a function on the non-negative integers. *)
Definition signed (f : Z -> Z) (z : Z) : Z :=
  if (z <? 0)%Z then (- f (- z))%Z else f z.

(** The three roundings of [calc_conc], on units: of a difference, of a
    product by [a] units, of a quotient by [d] units. *)
Definition round_unit (u : Z) : Z := round_quotient u 1.
Definition round_mul (a : Z) (u : Z) : Z := round_quotient (u * a) (2 ^ 1074).
Definition round_div (d : Z) (u : Z) : Z := round_quotient (u * 2 ^ 1074) d.

(** * The rest of the program *)

(** ** [fitfunc] and [Reaction.fit_plateau] *)

(** [fitfunc(x, p0, p1)], element by element.  [np.exp] is not modelled:
    the function takes it as [exp]. *)
Definition fitfunc (exp : float -> float) (x p0 p1 : float) : float :=
  (p0 * (1 - exp (- p1 * x)))%float.

Definition set_fit (self : Reaction) (pars r2 : pyval) : Reaction :=
  {| cpm_array := cpm_array self;
     time_array := time_array self;
     sa := sa self;
     pars := pars;
     r2 := r2;
     normalized_cpm_array := normalized_cpm_array self;
     aa_conc := aa_conc self;
     conc_array := conc_array self |}.

(** [Reaction.fit_plateau(self)]: the object after the call and the outcome
    of the call.  SciPy's fit is not modelled: [fit] stands for the function
    [fit] of the module, which returns the parameters and the R squared, or
    raises. *)
Definition fit_plateau
    (fit : list float -> list float -> result (pyval * pyval))
    (self : Reaction) : Reaction * result pyval :=
  match calc_conc self with
  | (self1, Raise e) => (self1, Raise e)
  | (self1, Ok _) =>
      match fit (conc_array self1) (time_array self1) with
      | Raise e => (self1, Raise e)
      | Ok (p, r) => (set_fit self1 p r, Ok p)
      end
  end.

(** ** [print_data] *)

Module Format.

Definition TAB : ascii := "009"%char.

(** The decimal digits of a natural number. *)
Definition decimal (n : Z) : string :=
  DecimalString.NilZero.string_of_uint (N.to_uint (Z.to_N n)).

Definition digit (d : Z) : ascii := ascii_of_N (Z.to_N (48 + d)).

(** The [p] decimal digits of [r], below [10 ^ p]. *)
Fixpoint fraction (p : nat) (r : Z) : string :=
  match p with
  | O => ""
  | S p' =>
      String (digit (r / 10 ^ Z.of_nat p'))
             (fraction p' (r mod 10 ^ Z.of_nat p'))
  end.

(** [q / 10 ^ p] with [p] digits after the point. *)
Definition fixed (p : nat) (q : Z) : string :=
  match p with
  | O => decimal q
  | _ => (decimal (q / 10 ^ Z.of_nat p) ++ "."
          ++ fraction p (q mod 10 ^ Z.of_nat p))%string
  end.

Definition minus (s : bool) : string := if s then "-" else "".

(** ["%.pf" % x] in Python 3: the decimal nearest to [x] with [p] digits
    after the point, ties to even; the sign of a NaN is not shown. *)
Definition percent_f (p : nat) (x : float) : string :=
  match Prim2SF x with
  | S754_nan => "nan"
  | S754_infinity s => (minus s ++ "inf")%string
  | S754_zero s => (minus s ++ fixed p 0)%string
  | S754_finite s m e =>
      (minus s ++
       fixed p (nearest_even (Z.pos m * 10 ^ Z.of_nat p * 2 ^ Z.max e 0)
                             (2 ^ Z.max (- e) 0)))%string
  end.

End Format.

(** A three-dimensional array of [float64]: its shape and its items. *)
Record ndarray3 := mkArray3 {
  num_rxns : nat;
  num_tp : nat;
  num_lanes : nat;
  item : nat -> nat -> nat -> float
}.

Definition tab : string := String Format.TAB "".

(** The header line of [print_data]. *)
Definition header : string :=
  ("Time/Fraction" ++ tab ++ "1" ++ tab ++ "2" ++ tab ++ "3" ++ tab ++ "4"
   ++ newline)%string.

(** The text written by the loop over the lanes. *)
Definition write_lanes (counts_array : ndarray3) (rxn i : nat) : string :=
  fold_right String.append ""
    (map (fun l => (tab ++ Format.percent_f 3 (item counts_array rxn i l))%string)
         (seq 0 (num_lanes counts_array))).

(** The text written by the loop over the time points, and its outcome:
    [time_array[i]] raises past the end of [time_array]. *)
Fixpoint write_rows (counts_array : ndarray3) (time_array : list float)
    (rxn : nat) (tps : list nat) : string * result unit :=
  match tps with
  | [] => ("", Ok tt)
  | i :: rest =>
      match getitem time_array i with
      | Raise e => ("", Raise e)
      | Ok t =>
          let (s, o) := write_rows counts_array time_array rxn rest in
          ((Format.percent_f 1 t ++ tab ++ write_lanes counts_array rxn i
              ++ newline ++ s)%string, o)
      end
  end.

(** The text written by the loop over the reactions, and its outcome. *)
Fixpoint write_rxns (counts_array : ndarray3) (time_array : list float)
    (rxns : list nat) : string * result unit :=
  match rxns with
  | [] => ("", Ok tt)
  | rxn :: rest =>
      match write_rows counts_array time_array rxn
              (seq 0 (num_tp counts_array)) with
      | (s, Raise e) => ((header ++ s)%string, Raise e)
      | (s, Ok _) =>
          let (s', o) := write_rxns counts_array time_array rest in
          ((header ++ s ++ s')%string, o)
      end
  end.

(** [print_data]: the name of the file it opens, what it writes to it, and
    the outcome.  The file is taken to open. *)
Definition print_data (counts_array : ndarray3) (time_array : list float)
    (out_file_prefix : string) : string * (string * result unit) :=
  ((out_file_prefix ++ "-frac.dat")%string,
   write_rxns counts_array time_array (seq 0 (num_rxns counts_array))).

(** ** [main] *)

(** The loop [for rxn in rxns: rxn.calc_conc()]: the reactions after the
    loop and its outcome.  The loop stops at the first call that raises. *)
Fixpoint convert_all (rxns : list Reaction) : list Reaction * result unit :=
  match rxns with
  | [] => ([], Ok tt)
  | rxn :: rest =>
      match calc_conc rxn with
      | (rxn', Raise e) => (rxn' :: rest, Raise e)
      | (rxn', Ok _) =>
          let (rest', o) := convert_all rest in (rxn' :: rest', o)
      end
  end.

(** [isinstance(e, IOError)]: [IOError] is [OSError], and none of the
    exceptions here derives from it. *)
Definition is_IOError (e : exn) : bool :=
  match e with
  | IndexError | UnboundLocalError | ValueError _ => false
  end.

(** How far [main] gets: to the fit of line 137, with the means and the
    standard deviations to plot; or it ends on an exception nothing
    catches, on the [OSError] of an [open] that fails, or on [sys.exit]. *)
Inductive status :=
  | Fits (ave std : list float)
  | Uncaught (e : exn)
  | Uncaught_OSError
  | Exit (code : Z).

(** Lines 193 to 197 of [main], down to line 132 of [plot_multiple_fit]. *)
Definition convert_and_aggregate (rxns : list Reaction) : status :=
  match convert_all rxns with
  | (_, Raise e) => Uncaught e
  | (rxns', Ok _) =>
      match aggregate rxns' with
      | Raise e => Uncaught e
      | Ok (ave, std) => Fits ave std
      end
  end.

(** [main], down to line 132 of [plot_multiple_fit].  [argv] is [sys.argv];
    [fs] gives the text of the files that [open] can read. *)
Definition main (argv : list string) (fs : string -> option string) : status :=
  match (in_file_name <- getitem argv 1 ;;
         out_file_prefix <- getitem argv 2 ;;
         Ok (in_file_name, out_file_prefix)) with
  | Raise e => if is_IOError e then Exit 1 else Uncaught e
  | Ok (in_file_name, out_file_prefix) =>
      match fs in_file_name with
      | None => Uncaught_OSError
      | Some text =>
          match read_data text with
          | Raise e => Uncaught e
          | Ok rxns => convert_and_aggregate rxns
          end
      end
  end.

(** * Notions of the further statements *)

(** ** Reactions as read *)

(** A reaction as [read_data] makes it: as many times as counts, and
    nothing fitted or converted yet. *)
Definition as_read (r : Reaction) : Prop :=
  List.length (time_array r) = List.length (cpm_array r) /\
  pars r = PyInt 0 /\ r2 r = PyInt 0 /\
  normalized_cpm_array r = [] /\ conc_array r = [].

(** The two buffers of [read_data] are bound together, and have the same
    length. *)
Definition paired (l : locals) : Prop :=
  match l_time_array l, l_cpm_array l with
  | Some ta, Some ca => List.length ta = List.length ca
  | None, None => True
  | _, _ => False
  end.

(** The number tokens of the [sa] lines, in order. *)
Definition sa_token (line : string) : list string :=
  match Text.split line with
  | t :: v :: _ => if String.eqb t "sa" then [v] else []
  | _ => []
  end.

Definition sa_tokens (lines : list string) : list string :=
  flat_map sa_token lines.

(** The locals [l] with the reactions [rxns] before its own. *)
Definition with_rxns (rxns : list Reaction) (l : locals) : locals :=
  mkLocals (rxns ++ l_rxns l) (l_aa_conc l) (l_time_array l) (l_cpm_array l).

(** One experiment of the input file: the amino-acid concentration, the
    time points with their counts, the specific activity. *)
Record block := mkBlock {
  b_conc : float;
  b_data : list (float * float);
  b_sa : float
}.

(** The lines of one experiment: a [conc] line, data lines, an [sa] line. *)
Definition block_lines (lines : list string) (b : block) : Prop :=
  exists lc dl ls,
    lines = lc :: dl ++ [ls] /\
    keyword_line "conc" lc (b_conc b) /\
    Forall2 data_line dl (b_data b) /\
    keyword_line "sa" ls (b_sa b).

Definition block_reaction (b : block) : Reaction :=
  Reaction_init (map fst (b_data b)) (map snd (b_data b)) (b_sa b) (b_conc b).

(** ** Replicates *)

(** Every reaction has [n] concentrations; every reaction has [n] counts;
    a reaction has a count. *)
Definition uniform (n : nat) (rxns : list Reaction) : bool :=
  forallb (fun r => Nat.eqb (List.length (conc_array r)) n) rxns.

Definition counts (n : nat) (rxns : list Reaction) : bool :=
  forallb (fun r => Nat.eqb (List.length (cpm_array r)) n) rxns.

Definition has_counts (r : Reaction) : bool :=
  match cpm_array r with [] => false | _ => true end.

(** A reaction whose first count converts to a zero: the count and the
    amino-acid concentration are finite, the specific activity is neither
    zero nor a NaN. *)
Definition baseline_ok (r : Reaction) : Prop :=
  exists c0 rest,
    cpm_array r = c0 :: rest /\ is_finite c0 = true /\
    is_finite (aa_conc r) = true /\
    is_nan (sa r) = false /\ (sa r =? 0)%float = false.

Definition is_zero (x : float) : bool := (x =? 0)%float.

(** Column [j] of the concentrations, over the reactions. *)
Definition conc_column (rxns : list Reaction) (j : nat) : list float :=
  map (fun r => nth j (conc_array r) nan) rxns.

(** ** The table of [print_data] *)

(** [s.split("\t")]. *)
Fixpoint fields_from (s : string) (cur : list ascii) : list string :=
  match s with
  | EmptyString => [string_of_list_ascii (rev cur)]
  | String c s' =>
      if Ascii.eqb c Format.TAB then
        string_of_list_ascii (rev cur) :: fields_from s' []
      else fields_from s' (c :: cur)
  end.

Definition fields (s : string) : list string := fields_from s [].

(** Every character of [s] passes [ok]. *)
Fixpoint chars_in (ok : ascii -> bool) (s : string) : bool :=
  match s with
  | EmptyString => true
  | String c s' => ok c && chars_in ok s'
  end.

(** The characters of a formatted number. *)
Definition number_char (c : ascii) : bool :=
  PyFloat.is_digit c ||
  existsb (Ascii.eqb c) ["-"; "."; "n"; "a"; "i"; "f"]%char.

Definition no_tab (c : ascii) : bool := negb (Ascii.eqb c Format.TAB).

Definition no_break (c : ascii) : bool :=
  negb (Ascii.eqb c Text.LF || Ascii.eqb c Text.CR).

(** One row of the table, without its newline. *)
Definition row (counts_array : ndarray3) (time_array : list float)
    (rxn i : nat) : string :=
  (Format.percent_f 1 (nth i time_array 0%float) ++ tab
   ++ write_lanes counts_array rxn i)%string.

(** The lines of one reaction: the header and a row for each time point. *)
Definition table (counts_array : ndarray3) (time_array : list float)
    (tps : list nat) (rxn : nat) : list string :=
  header :: map (fun i => (row counts_array time_array rxn i ++ newline)%string) tps.

(** A table of one reaction, two time points and two lanes. *)
Definition small_table : ndarray3 :=
  mkArray3 1 2 2 (fun _ i l => if Nat.eqb (i + l) 0 then 0.25%float else 1%float).

(** * Proofs *)

(** ** Binary64 arithmetic *)

Module FloatFacts.

#[local] Open Scope Z_scope.

Lemma Prim2SF_zero : Prim2SF 0%float = S754_zero false.
Proof. reflexivity. Qed.

Lemma Prim2SF_infinity : Prim2SF infinity = S754_infinity false.
Proof. reflexivity. Qed.

Lemma Prim2SF_one : Prim2SF 1%float = S754_finite false 4503599627370496 (-52).
Proof. reflexivity. Qed.

Lemma SFcompare_refl_finite s m e :
  SFcompare (S754_finite s m e) (S754_finite s m e) = Some Eq.
Proof.
  simpl. rewrite Z.compare_refl, Pos.compare_cont_refl. destruct s; reflexivity.
Qed.

Lemma is_nan_spec x : is_nan x = sf_nan (Prim2SF x).
Proof.
  unfold is_nan. rewrite eqb_spec.
  destruct (Prim2SF x) as [s|s| |s m e]; try reflexivity.
  - destruct s; reflexivity.
  - unfold SFeqb. rewrite SFcompare_refl_finite. reflexivity.
Qed.

Lemma is_finite_spec x : is_finite x = sf_finite (Prim2SF x).
Proof.
  unfold is_finite, is_nan, is_infinity.
  rewrite !eqb_spec, abs_spec, Prim2SF_infinity.
  destruct (Prim2SF x) as [s|s| |s m e]; try reflexivity.
  - destruct s; reflexivity.
  - unfold SFeqb. rewrite SFcompare_refl_finite. reflexivity.
Qed.

Lemma eqb_zero_spec x : (x =? 0)%float = sf_zero (Prim2SF x).
Proof.
  rewrite eqb_spec, Prim2SF_zero.
  destruct (Prim2SF x) as [s|s| |s m e]; try reflexivity; destruct s; reflexivity.
Qed.

(** [x - x] is [+0] for every finite [x]. *)
Lemma SFsub_diag x : sf_finite x = true -> SF64sub x x = S754_zero false.
Proof.
  destruct x as [s|s| |s m e]; simpl; try discriminate; intros _.
  - destruct s; reflexivity.
  - unfold SF64sub, SFsub. rewrite Z.sub_diag. reflexivity.
Qed.

Lemma sub_diag x : is_finite x = true -> (x - x)%float = 0%float.
Proof.
  intros H. apply Prim2SF_inj. rewrite sub_spec, Prim2SF_zero.
  apply SFsub_diag. now rewrite <- is_finite_spec.
Qed.

(** A zero divided by anything but a zero or a NaN is a zero, and a zero
    times a finite number is a zero. *)
Lemma div_zero_l z x :
  (z =? 0)%float = true -> is_nan x = false -> (x =? 0)%float = false ->
  (z / x =? 0)%float = true.
Proof.
  rewrite !eqb_zero_spec, is_nan_spec, div_spec.
  destruct (Prim2SF z) as [sz|sz| |sz mz ez]; try discriminate.
  destruct (Prim2SF x) as [s|s| |s m e]; try discriminate; reflexivity.
Qed.

Lemma mul_zero_l z x :
  (z =? 0)%float = true -> is_finite x = true -> (z * x =? 0)%float = true.
Proof.
  rewrite !eqb_zero_spec, is_finite_spec, mul_spec.
  destruct (Prim2SF z) as [sz|sz| |sz mz ez]; try discriminate.
  destruct (Prim2SF x) as [s|s| |s m e]; try discriminate; reflexivity.
Qed.

(** *** Division by one is exact *)

Lemma div_eucl_eq a b : Z.div_eucl a b = (a / b, a mod b).
Proof. unfold Z.div, Z.modulo. destruct (Z.div_eucl a b). reflexivity. Qed.

Lemma fexp_eq z : fexp prec emax z = Z.max (z - 53) (-1074).
Proof. reflexivity. Qed.

Lemma shr_fexp_canonical m e :
  canonical_mantissa prec emax m e = true ->
  shr_fexp prec emax (Zpos m) e loc_Exact
  = (Build_shr_record (Zpos m) false false, e).
Proof.
  unfold canonical_mantissa. intros H. apply Z.eqb_eq in H.
  unfold shr_fexp. cbn [Zdigits2 shr_record_of_loc].
  rewrite H, Z.sub_diag. reflexivity.
Qed.

Lemma binary_round_aux_canonical s m e :
  bounded prec emax m e = true ->
  binary_round_aux prec emax s (Zpos m) e loc_Exact = S754_finite s m e.
Proof.
  unfold bounded. intros H. apply andb_true_iff in H. destruct H as [Hc Hb].
  unfold binary_round_aux. rewrite (shr_fexp_canonical _ _ Hc).
  cbn [shr_m loc_of_shr_record round_nearest_even].
  rewrite (shr_fexp_canonical _ _ Hc). cbn [shr_m]. rewrite Hb. reflexivity.
Qed.

Lemma binary_round_aux_double s m e :
  bounded prec emax m e = true ->
  binary_round_aux prec emax s (Zpos m~0) (e - 1) loc_Exact = S754_finite s m e.
Proof.
  unfold bounded. intros H. apply andb_true_iff in H. destruct H as [Hc Hb].
  unfold binary_round_aux.
  assert (E : shr_fexp prec emax (Zpos m~0) (e - 1) loc_Exact
              = (Build_shr_record (Zpos m) false false, e)).
  { unfold canonical_mantissa in Hc. apply Z.eqb_eq in Hc.
    unfold shr_fexp. cbn [Zdigits2 shr_record_of_loc digits2_pos].
    replace (Z.pos (Pos.succ (digits2_pos m)) + (e - 1))
      with (Z.pos (digits2_pos m) + e) by lia.
    rewrite Hc. replace (e - (e - 1)) with 1 by lia. cbn. f_equal. lia. }
  rewrite E. cbn [shr_m loc_of_shr_record round_nearest_even].
  rewrite (shr_fexp_canonical _ _ Hc). cbn [shr_m]. rewrite Hb. reflexivity.
Qed.

Lemma SFdiv_core_one m e :
  canonical_mantissa prec emax m e = true ->
  SFdiv_core_binary prec emax (Zpos m) e 4503599627370496 (-52)
  = (Zpos m, e, loc_Exact)
  \/ SFdiv_core_binary prec emax (Zpos m) e 4503599627370496 (-52)
     = (Zpos m~0, e - 1, loc_Exact).
Proof.
  unfold canonical_mantissa. intros Hc. apply Z.eqb_eq in Hc.
  rewrite fexp_eq in Hc. unfold SFdiv_core_binary.
  change (Zdigits2 4503599627370496) with 53.
  cbn [Zdigits2]. rewrite fexp_eq.
  set (d := Z.pos (digits2_pos m)) in *.
  assert (Hd : 0 < d) by (unfold d; lia).
  set (e' := Z.min _ _).
  assert (He : e' = e \/ e' = e - 1) by lia.
  destruct He as [He|He]; rewrite He.
  - left. replace (e - -52 - e) with 52 by lia.
    rewrite Z.shiftl_mul_pow2 by lia. rewrite div_eucl_eq.
    change (2 ^ 52) with 4503599627370496.
    rewrite Z.div_mul, Z.mod_mul by lia. reflexivity.
  - right. replace (e - -52 - (e - 1)) with 53 by lia.
    rewrite Z.shiftl_mul_pow2 by lia. rewrite div_eucl_eq.
    change (2 ^ 53) with (2 * 4503599627370496).
    rewrite Z.mul_assoc, Z.div_mul, Z.mod_mul by lia.
    replace (Z.pos m * 2) with (Z.pos m~0) by lia. reflexivity.
Qed.

Lemma SFdiv_one x :
  valid_binary x = true ->
  SF64div x (S754_finite false 4503599627370496 (-52)) = x.
Proof.
  destruct x as [s|s| |s m e]; cbn [valid_binary SpecFloat.valid_binary]; intros V.
  - destruct s; reflexivity.
  - destruct s; reflexivity.
  - reflexivity.
  - unfold SF64div, SFdiv.
    assert (Hc : canonical_mantissa prec emax m e = true).
    { unfold bounded in V. apply andb_true_iff in V. tauto. }
    rewrite xorb_false_r.
    destruct (SFdiv_core_one m e Hc) as [E|E]; rewrite E.
    + now apply binary_round_aux_canonical.
    + now apply binary_round_aux_double.
Qed.

Lemma div_one x : (x / 1)%float = x.
Proof.
  apply Prim2SF_inj. rewrite div_spec, Prim2SF_one.
  apply SFdiv_one, Prim2SF_valid.
Qed.

(** *** Adding to [+0] *)

Lemma add_zero_l x :
  (0 + x)%float = x \/ (Prim2SF x = S754_zero true /\ (0 + x)%float = 0%float).
Proof.
  destruct (Prim2SF x) as [s|s| |s m e] eqn:E.
  - destruct s.
    + right. split; [reflexivity|].
      apply Prim2SF_inj. rewrite add_spec, E. reflexivity.
    + left. apply Prim2SF_inj. rewrite add_spec, E. reflexivity.
  - left. apply Prim2SF_inj. rewrite add_spec, E. reflexivity.
  - left. apply Prim2SF_inj. rewrite add_spec, E. reflexivity.
  - left. apply Prim2SF_inj. rewrite add_spec, E. reflexivity.
Qed.

Lemma eqb_refl x : is_nan x = false -> (x =? x)%float = true.
Proof. unfold is_nan. now destruct (x =? x)%float. Qed.

Lemma add_zero_l_eqb x : is_nan x = false -> (0 + x =? x)%float = true.
Proof.
  intros H. destruct (add_zero_l x) as [E|[E1 E2]].
  - rewrite E. now apply eqb_refl.
  - rewrite E2, eqb_spec, E1. reflexivity.
Qed.

(** [x - (0 + x)] is a zero for every finite [x]. *)
Lemma sub_add_zero x :
  is_finite x = true -> sf_zero (Prim2SF (x - (0 + x))%float) = true.
Proof.
  intros H. destruct (add_zero_l x) as [E|[E1 E2]].
  - rewrite E, (sub_diag x H). reflexivity.
  - rewrite E2, sub_spec, E1. reflexivity.
Qed.

Lemma mul_zero_zero x :
  sf_zero (Prim2SF x) = true -> (x * x)%float = 0%float.
Proof.
  intros H. apply Prim2SF_inj. rewrite mul_spec.
  destruct (Prim2SF x) as [s|s| |s m e]; try discriminate.
  destruct s; reflexivity.
Qed.

End FloatFacts.

(** ** Rounding in binary64, and its order *)

Module Rounding.

Import FloatFacts.

#[local] Open Scope Z_scope.

(** *** The rounding of a quotient is monotone *)

Lemma nearest_even_bounds A B : A / B <= nearest_even A B <= A / B + 1.
Proof. unfold nearest_even. destruct (round_up _ _ _); lia. Qed.

Lemma nearest_even_mono A1 A2 B : 0 < B -> A1 <= A2 -> nearest_even A1 B <= nearest_even A2 B.
Proof.
  intros HB HA.
  assert (Hq : A1 / B <= A2 / B) by (apply Z.div_le_mono; lia).
  destruct (Z.eq_dec (A1 / B) (A2 / B)) as [E|NE].
  - unfold nearest_even. rewrite <- E.
    assert (Hr : A1 mod B <= A2 mod B).
    { pose proof (Z.div_mod A1 B ltac:(lia)). pose proof (Z.div_mod A2 B ltac:(lia)). nia. }
    unfold round_up.
    destruct (B <? 2 * (A1 mod B)) eqn:E1; cbn [orb].
    + apply Z.ltb_lt in E1.
      assert (E2 : (B <? 2 * (A2 mod B)) = true) by (apply Z.ltb_lt; lia).
      rewrite E2. cbn. lia.
    + destruct (B =? 2 * (A1 mod B)) eqn:E3; cbn [andb].
      * apply Z.eqb_eq in E3.
        destruct (B <? 2 * (A2 mod B)) eqn:E2; cbn [orb].
        -- destruct (Z.odd (A1 / B)); lia.
        -- apply Z.ltb_ge in E2.
           assert (E4 : (B =? 2 * (A2 mod B)) = true) by (apply Z.eqb_eq; lia).
           rewrite E4. cbn. lia.
      * destruct ((B <? 2 * (A2 mod B)) || (B =? 2 * (A2 mod B)) && Z.odd (A1 / B)); lia.
  - pose proof (nearest_even_bounds A1 B). pose proof (nearest_even_bounds A2 B). lia.
Qed.

Lemma round_exponent_mono N1 N2 Den :
  0 < Den -> 0 <= N1 <= N2 -> round_exponent N1 Den <= round_exponent N2 Den.
Proof.
  intros HD HN. unfold round_exponent.
  assert (N1 / Den <= N2 / Den) by (apply Z.div_le_mono; lia).
  pose proof (Z.log2_le_mono _ _ H). lia.
Qed.


Lemma round_quotient_mono N1 N2 Den :
  0 < Den -> 0 <= N1 <= N2 -> round_quotient N1 Den <= round_quotient N2 Den.
Proof.
  intros HD HN. unfold round_quotient.
  pose proof (round_exponent_mono N1 N2 Den HD HN) as Hk.
  set (k1 := round_exponent N1 Den) in *. set (k2 := round_exponent N2 Den) in *.
  assert (H1 : 0 <= k1) by (unfold k1, round_exponent; lia).
  assert (P1 : 0 < 2 ^ k1) by (apply Z.pow_pos_nonneg; lia).
  assert (P2 : 0 < 2 ^ k2) by (apply Z.pow_pos_nonneg; lia).
  apply Z.min_le_compat_r.
  destruct (Z.eq_dec k1 k2) as [E|NE].
  - rewrite <- E. apply Z.mul_le_mono_nonneg_r; [lia|].
    apply nearest_even_mono; [nia|lia].
  - assert (Hlt : k1 < k2) by lia.
    set (L2 := Z.log2 (N2 / Den)).
    assert (HL2 : k2 = L2 - 52) by (unfold k2, round_exponent, L2 in *; lia).
    assert (HQ2 : 0 < N2 / Den).
    { destruct (Z.lt_trichotomy 0 (N2 / Den)) as [?|[E0|?]]; [assumption| |].
      - unfold L2 in HL2. rewrite <- E0 in HL2. cbn in HL2. lia.
      - pose proof (Z.div_pos N2 Den ltac:(lia) HD). lia. }
    assert (HQ1 : 0 <= N1 / Den) by (apply Z.div_pos; lia).
    assert (B2 : 2 ^ L2 <= N2 / Den) by (apply Z.log2_spec; lia).
    assert (B1 : N1 / Den < 2 ^ L2).
    { destruct (Z.eq_dec (N1 / Den) 0) as [E0|N0].
      - rewrite E0. apply Z.pow_pos_nonneg; lia.
      - assert (Hlog : Z.log2 (N1 / Den) < L2) by (unfold k1, round_exponent in *; lia).
        pose proof (Z.log2_spec (N1 / Den) ltac:(lia)) as [_ Hu].
        eapply Z.lt_le_trans; [exact Hu|].
        apply Z.pow_le_mono_r; lia. }
    (* left side is at most 2^L2, right side at least 2^L2 *)
    apply Z.le_trans with (2 ^ L2).
    + pose proof (nearest_even_bounds N1 (Den * 2 ^ k1)) as [_ Hu].
      rewrite <- Z.div_div in Hu by lia.
      assert (Hs : 2 ^ L2 = 2 ^ (L2 - k1) * 2 ^ k1).
      { rewrite <- Z.pow_add_r by lia. f_equal. lia. }
      assert (Hd : N1 / Den / 2 ^ k1 < 2 ^ (L2 - k1)).
      { apply Z.div_lt_upper_bound; [lia|]. rewrite Z.mul_comm, <- Hs. exact B1. }
      rewrite Hs. apply Z.mul_le_mono_nonneg_r; lia.
    + pose proof (nearest_even_bounds N2 (Den * 2 ^ k2)) as [Hl _].
      rewrite <- Z.div_div in Hl by lia.
      assert (Hs : 2 ^ L2 = 2 ^ (L2 - k2) * 2 ^ k2).
      { rewrite <- Z.pow_add_r by lia. f_equal. lia. }
      assert (Hd : 2 ^ (L2 - k2) <= N2 / Den / 2 ^ k2).
      { apply Z.div_le_lower_bound; [lia|]. rewrite Z.mul_comm, <- Hs. exact B2. }
      rewrite Hs. apply Z.mul_le_mono_nonneg_r; lia.
Qed.


(** *** Digits, and shifts with a sticky bit *)

Lemma digits2_pos_bounds p :
  2 ^ (Z.pos (digits2_pos p) - 1) <= Z.pos p < 2 ^ Z.pos (digits2_pos p).
Proof.
  induction p as [p IH|p IH|]; cbn [digits2_pos].
  - rewrite Pos2Z.inj_succ.
    replace (Z.succ (Z.pos (digits2_pos p)) - 1) with (Z.succ (Z.pos (digits2_pos p) - 1)) by lia.
    rewrite !Z.pow_succ_r by lia. lia.
  - rewrite Pos2Z.inj_succ.
    replace (Z.succ (Z.pos (digits2_pos p)) - 1) with (Z.succ (Z.pos (digits2_pos p) - 1)) by lia.
    rewrite !Z.pow_succ_r by lia. lia.
  - cbn. lia.
Qed.

Lemma Zdigits2_nonneg m : 0 <= Zdigits2 m.
Proof. destruct m; cbn; lia. Qed.

Lemma Zdigits2_bounds m :
  0 < m -> 2 ^ (Zdigits2 m - 1) <= m < 2 ^ Zdigits2 m.
Proof. destruct m as [|p|p]; try lia. intros _. apply digits2_pos_bounds. Qed.

Lemma Zdigits2_upper m : 0 <= m -> m < 2 ^ Zdigits2 m.
Proof.
  intros H. destruct (Z.eq_dec m 0) as [->|N]; [cbn; lia|].
  apply Zdigits2_bounds. lia.
Qed.

(** One shift to the right halves the mantissa and keeps in the round and
    sticky bits what it drops: the record of [A / B] becomes that of
    [A / (2 * B)]. *)
Lemma shr_1_spec m r s :
  0 <= m -> shr_1 (Build_shr_record m r s) = Build_shr_record (m / 2) (Z.odd m) (r || s).
Proof.
  intros H. destruct m as [|p|p]; [reflexivity| |lia].
  destruct p as [p|p|]; cbn [shr_1].
  - f_equal. rewrite Pos2Z.inj_xI. 
    replace (2 * Z.pos p + 1) with (1 + Z.pos p * 2) by lia.
    rewrite Z.div_add by lia. reflexivity.
  - f_equal. rewrite Pos2Z.inj_xO. rewrite Z.mul_comm, Z.div_mul by lia. reflexivity.
  - reflexivity.
Qed.

Lemma shr_1_quotient A B :
  0 <= A -> 0 < B -> shr_1 (quotient_record A B) = quotient_record A (B * 2).
Proof.
  intros HA HB. unfold quotient_record. rewrite shr_1_spec by (apply Z.div_pos; lia).
  rewrite <- Z.div_div by lia.
  rewrite Z.rem_mul_r by lia.
  pose proof (Z.mod_pos_bound A B HB) as Hr.
  pose proof (Z.mod_pos_bound (A / B) 2 ltac:(lia)) as Hp.
  set (q := A / B) in *. set (r0 := A mod B) in *.
  assert (Hodd : Z.odd q = (q mod 2 =? 1)).
  { rewrite Zmod_odd. destruct (Z.odd q); reflexivity. }
  rewrite Hodd.
  assert (Hc : q mod 2 = 0 \/ q mod 2 = 1) by lia.
  destruct Hc as [Hc|Hc]; rewrite Hc; cbn [Z.eqb Pos.eqb].
  - rewrite Z.mul_0_r, Z.add_0_r. f_equal.
    + symmetry. apply Z.leb_gt. lia.
    + destruct (Z.leb_spec B (2 * r0)); destruct (Z.eqb_spec r0 0);
        destruct (Z.eqb_spec (2 * r0) B);
        destruct (Z.eqb_spec (2 * r0) (B * 2)); cbn; try reflexivity; lia.
  - rewrite Z.mul_1_r. f_equal.
    + symmetry. apply Z.leb_le. lia.
    + destruct (Z.leb_spec B (2 * r0)); destruct (Z.eqb_spec r0 0);
        destruct (Z.eqb_spec (2 * r0) B);
        destruct (Z.eqb_spec (r0 + B) 0);
        destruct (Z.eqb_spec (2 * (r0 + B)) (B * 2)); cbn; try reflexivity; lia.
Qed.

Lemma pow2_gt0 k : 0 <= k -> 0 < 2 ^ k.
Proof. intros. apply Z.pow_pos_nonneg; lia. Qed.

Lemma pow2_double k : 0 <= k -> 2 ^ (2 * k) = 2 ^ k * 2 ^ k.
Proof. intros. rewrite <- Z.pow_add_r by lia. f_equal. lia. Qed.

Lemma pow2_double_succ k : 0 <= k -> 2 ^ (2 * k + 1) = 2 * (2 ^ k * 2 ^ k).
Proof.
  intros. rewrite Z.pow_add_r, pow2_double by lia. change (2 ^ 1) with 2. ring.
Qed.

Lemma iter_pos_shr_1_quotient p : forall A B,
  0 <= A -> 0 < B -> iter_pos shr_1 p (quotient_record A B) = quotient_record A (B * 2 ^ Z.pos p).
Proof.
  induction p as [p IH|p IH|]; intros A B HA HB; cbn [iter_pos].
  - pose proof (pow2_gt0 (Z.pos p) ltac:(lia)) as Hp.
    rewrite shr_1_quotient by assumption.
    rewrite IH by (try assumption; nia).
    rewrite IH by (try assumption; nia).
    f_equal. change (Z.pos p~1) with (2 * Z.pos p + 1).
    rewrite pow2_double_succ by lia. ring.
  - pose proof (pow2_gt0 (Z.pos p) ltac:(lia)) as Hp.
    rewrite IH by (try assumption; nia).
    rewrite IH by (try assumption; nia).
    f_equal. change (Z.pos p~0) with (2 * Z.pos p).
    rewrite pow2_double by lia. ring.
  - rewrite shr_1_quotient by assumption. reflexivity.
Qed.

Lemma shr_quotient A B e n :
  0 <= A -> 0 < B -> 0 <= n ->
  shr (quotient_record A B) e n = (quotient_record A (B * 2 ^ n), e + n).
Proof.
  intros HA HB Hn. unfold shr. destruct n as [|p|p]; [|now rewrite iter_pos_shr_1_quotient|lia].
  rewrite Z.pow_0_r, Z.mul_1_r, Z.add_0_r. reflexivity.
Qed.

Lemma shr_nonpos mrs e n : n <= 0 -> shr mrs e n = (mrs, e).
Proof. intros H. unfold shr. destruct n; [reflexivity|lia|reflexivity]. Qed.

Lemma shr_record_of_loc_quotient A B :
  shr_record_of_loc (A / B) (loc_of_shr_record (quotient_record A B)) = quotient_record A B.
Proof.
  unfold quotient_record. cbn [loc_of_shr_record].
  destruct (B <=? 2 * (A mod B)); destruct (negb _); reflexivity.
Qed.


Lemma round_nearest_even_quotient A B :
  0 < B ->
  round_nearest_even (shr_m (quotient_record A B))
    (loc_of_shr_record (quotient_record A B))
  = nearest_even A B.
Proof.
  intros HB. unfold quotient_record, nearest_even, round_up. cbn [shr_m loc_of_shr_record].
  pose proof (Z.mod_pos_bound A B HB) as Hr.
  set (q := A / B) in *. set (r := A mod B) in *.
  rewrite <- Z.negb_even.
  destruct (Z.leb_spec B (2 * r)); destruct (Z.eqb_spec r 0);
    destruct (Z.eqb_spec (2 * r) B); destruct (Z.ltb_spec B (2 * r));
    destruct (Z.eqb_spec B (2 * r)); cbn; try lia; destruct (Z.even q); cbn; lia.
Qed.


(** *** [binary_round_aux] is the rounding of a quotient *)

Lemma Zdigits2_le m k : 0 <= m < 2 ^ k -> 0 <= k -> Zdigits2 m <= k.
Proof.
  intros [H0 H1] Hk. destruct (Z.eq_dec m 0) as [->|N]; [cbn; lia|].
  pose proof (Zdigits2_bounds m ltac:(lia)) as [Hl _].
  destruct (Z.le_gt_cases (Zdigits2 m) k) as [?|G]; [assumption|exfalso].
  assert (2 ^ k <= 2 ^ (Zdigits2 m - 1)) by (apply Z.pow_le_mono_r; lia).
  lia.
Qed.

Lemma pow2_split a b : 0 <= a -> 0 <= b -> 2 ^ (a + b) = 2 ^ a * 2 ^ b.
Proof. intros. apply Z.pow_add_r; lia. Qed.

Lemma overflow_eq : overflow = 2 ^ 53 * 2 ^ 2045.
Proof. reflexivity. Qed.

(** The mantissa kept by the first shift: below [2^53], and at least [2^52]
    above the smallest exponent. *)
Lemma kept_mantissa_bounds m e :
  0 <= m ->
  e <= fexp prec emax (Zdigits2 m + e) ->
  let E := fexp prec emax (Zdigits2 m + e) in
  0 <= m / 2 ^ (E - e) < 2 ^ 53 /\
  (-1074 < E -> 2 ^ 52 <= m / 2 ^ (E - e)).
Proof.
  intros Hm He E. rewrite fexp_eq in He. unfold E. rewrite fexp_eq.
  set (d := Zdigits2 m) in *.
  pose proof (Zdigits2_nonneg m) as Hd. fold d in Hd.
  set (n := Z.max (d + e - 53) (-1074) - e) in *.
  assert (Hn : 0 <= n) by lia.
  assert (P : 0 < 2 ^ n) by (apply Z.pow_pos_nonneg; lia).
  pose proof (Zdigits2_upper m Hm) as Hu. fold d in Hu.
  split; [split|].
  - apply Z.div_pos; lia.
  - apply Z.div_lt_upper_bound; [lia|].
    rewrite <- pow2_split by lia.
    eapply Z.lt_le_trans; [exact Hu|]. apply Z.pow_le_mono_r; lia.
  - intros HE.
    assert (Hm0 : 0 < m).
    { destruct (Z.eq_dec m 0) as [E0|?]; [|lia]. 
      exfalso. unfold d in *. rewrite E0 in *. cbn in *. lia. }
    pose proof (Zdigits2_bounds m Hm0) as [Hl _]. fold d in Hl.
    apply Z.div_le_lower_bound; [lia|].
    rewrite <- pow2_split by lia.
    eapply Z.le_trans; [|exact Hl]. apply Z.pow_le_mono_r; lia.
Qed.

Lemma shr_fexp_exact_small W E :
  0 <= W < 2 ^ 53 -> -1074 <= E ->
  shr_fexp prec emax W E loc_Exact = (Build_shr_record W false false, E).
Proof.
  intros HW HE. unfold shr_fexp. cbn [shr_record_of_loc].
  apply shr_nonpos. rewrite fexp_eq.
  pose proof (Zdigits2_le W 53 HW ltac:(lia)). lia.
Qed.

Lemma shr_fexp_exact_carry E :
  -1074 <= E ->
  shr_fexp prec emax (2 ^ 53) E loc_Exact
  = (Build_shr_record (2 ^ 52) false false, E + 1).
Proof.
  intros HE. unfold shr_fexp. cbn [shr_record_of_loc].
  change (Zdigits2 (2 ^ 53)) with 54. rewrite fexp_eq.
  replace (Z.max (54 + E - 53) (-1074) - E) with 1 by lia.
  reflexivity.
Qed.

(** On the record of [A / B] at exponent [e], [binary_round_aux] gives
    the number of [nearest_even A (B * 2 ^ n)] at the exponent [e + n] of the
    format, or an infinity. *)
Lemma binary_round_aux_units s A B e :
  0 <= A -> 0 < B ->
  e <= fexp prec emax (Zdigits2 (A / B) + e) ->
  let E := fexp prec emax (Zdigits2 (A / B) + e) in
  let r := binary_round_aux prec emax s (A / B) e (loc_of_shr_record (quotient_record A B)) in
  r <> S754_nan /\
  sf_units r = cond_Zopp s (Z.min (nearest_even A (B * 2 ^ (E - e)) * 2 ^ (E + 1074)) overflow).
Proof.
  intros HA HB He E r.
  assert (Hm : 0 <= A / B) by (apply Z.div_pos; lia).
  destruct (kept_mantissa_bounds (A / B) e Hm He) as [HM HM52]. fold E in HM, HM52.
  assert (HE : -1074 <= E) by (unfold E; rewrite fexp_eq; lia).
  assert (Hn : 0 <= E - e) by (unfold E; lia).
  assert (P : 0 < 2 ^ (E - e)) by (apply Z.pow_pos_nonneg; lia).
  assert (PE : 0 < 2 ^ (E + 1074)) by (apply Z.pow_pos_nonneg; lia).
  rewrite Z.div_div in HM, HM52 by lia.
  pose proof (nearest_even_bounds A (B * 2 ^ (E - e))) as HW.
  set (W := nearest_even A (B * 2 ^ (E - e))) in *.
  assert (Hr : r = let '(mrs'', e'') := shr_fexp prec emax W E loc_Exact in
               match shr_m mrs'' with
               | 0 => S754_zero s
               | Z.pos m => if e'' <=? emax - prec then S754_finite s m e'' else S754_infinity s
               | Z.neg _ => S754_nan
               end).
  { unfold r, binary_round_aux, shr_fexp at 1.
    rewrite shr_record_of_loc_quotient. fold E.
    rewrite shr_quotient by lia.
    rewrite round_nearest_even_quotient by nia.
    replace (e + (E - e)) with E by lia. reflexivity. }
  rewrite Hr. clear Hr r.
  change (emax - prec) with 971.
  destruct (Z.eq_dec W (2 ^ 53)) as [EW|NW].
  - rewrite EW, shr_fexp_exact_carry by lia. cbn [shr_m].
    change (2 ^ 52) with (Z.pos 4503599627370496).
    destruct (Z.leb_spec (E + 1) 971) as [L|G].
    + split; [discriminate|]. cbn [sf_units]. f_equal.
      replace (E + 1 + 1074) with (1 + (E + 1074)) by lia.
      rewrite pow2_split by lia.
      rewrite Z.min_l; [change (2 ^ 53) with (4503599627370496 * 2 ^ 1); ring|].
      rewrite overflow_eq.
      apply Z.mul_le_mono_nonneg_l; [lia|]. apply Z.pow_le_mono_r; lia.
    + split; [discriminate|]. cbn [sf_units]. f_equal.
      rewrite Z.min_r; [reflexivity|].
      rewrite overflow_eq. apply Z.mul_le_mono_nonneg_l; [lia|].
      apply Z.pow_le_mono_r; lia.
  - assert (HW53 : 0 <= W < 2 ^ 53) by lia.
    rewrite shr_fexp_exact_small by lia. cbn [shr_m].
    destruct W as [|w|w]; [| |lia].
    + split; [discriminate|]. cbn [sf_units]. rewrite Z.mul_0_l.
      rewrite Z.min_l by (unfold overflow; lia). now destruct s.
    + destruct (Z.leb_spec E 971) as [L|G].
      * split; [discriminate|]. cbn [sf_units]. f_equal.
        rewrite Z.min_l; [reflexivity|].
        rewrite overflow_eq. apply Z.mul_le_mono_nonneg; try lia.
        apply Z.pow_le_mono_r; lia.
      * split; [discriminate|]. cbn [sf_units]. f_equal.
        rewrite Z.min_r; [reflexivity|].
        specialize (HM52 ltac:(lia)).
        change overflow with (2 ^ 52 * 2 ^ 2046).
        apply Z.mul_le_mono_nonneg; try lia.
        apply Z.pow_le_mono_r; lia.
Qed.


(** The nearest integer depends only on the ratio. *)
Lemma nearest_even_ratio A B A' B' :
  0 < B -> 0 < B' -> A * B' = A' * B -> nearest_even A B = nearest_even A' B'.
Proof.
  intros HB HB' Hx.
  pose proof (Z.div_mod A B ltac:(lia)) as HA.
  pose proof (Z.mod_pos_bound A B HB) as Hr.
  set (q := A / B) in *. set (r := A mod B) in *.
  set (r' := A' - q * B').
  assert (Hrr : r' * B = r * B') by (unfold r'; nia).
  assert (Hr' : 0 <= r' < B') by nia.
  assert (Hq' : A' / B' = q).
  { symmetry. apply (Z.div_unique A' B' q r'); [lia|unfold r'; ring]. }
  assert (Hm' : A' mod B' = r').
  { symmetry. apply (Z.mod_unique A' B' q r'); [lia|unfold r'; ring]. }
  unfold nearest_even, round_up. fold q r. rewrite Hq', Hm'.
  assert (E1 : (B <? 2 * r) = (B' <? 2 * r')).
  { destruct (Z.ltb_spec B (2 * r)); destruct (Z.ltb_spec B' (2 * r')); try reflexivity; nia. }
  assert (E2 : (B =? 2 * r) = (B' =? 2 * r')).
  { destruct (Z.eqb_spec B (2 * r)); destruct (Z.eqb_spec B' (2 * r')); try reflexivity; nia. }
  now rewrite E1, E2.
Qed.

Lemma log2_in_range x t : 0 <= t -> 2 ^ t <= x < 2 ^ (t + 1) -> Z.log2 x = t.
Proof. intros Ht H. apply Z.log2_unique; [assumption|]. now rewrite <- Z.add_1_r. Qed.

Lemma div_in_range N Den lo hi :
  0 < Den -> Den * lo <= N < Den * hi -> lo <= N / Den < hi.
Proof.
  intros HD [H1 H2]. split.
  - apply Z.div_le_lower_bound; assumption.
  - apply Z.div_lt_upper_bound; assumption.
Qed.

Lemma round_exponent_small N Den : 0 < Den -> 0 <= N < Den -> round_exponent N Den = 0.
Proof.
  intros HD HN. unfold round_exponent. rewrite Z.div_small by lia. reflexivity.
Qed.

Lemma Zdigits2_pos m : 0 < m -> 1 <= Zdigits2 m.
Proof. destruct m; cbn; lia. Qed.

(** The digits that [SpecFloat] counts give the exponent of
    [round_quotient]. *)
Lemma round_exponent_of_digits A B e N Den :
  0 <= A -> 0 < B -> 0 <= N -> 0 < Den ->
  N * B * 2 ^ Z.max (- (e + 1074)) 0 = A * Den * 2 ^ Z.max (e + 1074) 0 ->
  e <= fexp prec emax (Zdigits2 (A / B) + e) ->
  round_exponent N Den = fexp prec emax (Zdigits2 (A / B) + e) + 1074.
Proof.
  intros HA HB HN HD Heq He. rewrite fexp_eq in *.
  remember (e + 1074) as g eqn:Hgdef.
  pose proof (Z.div_mod A B ltac:(lia)) as HAB.
  pose proof (Z.mod_pos_bound A B HB) as Hr.
  assert (Hm : 0 <= A / B) by (apply Z.div_pos; lia).
  set (m := A / B) in *.
  destruct (Z.eq_dec m 0) as [E0|N0].
  - (* the integer part is zero *)
    rewrite E0 in *. cbn [Zdigits2] in *.
    assert (Hg : g <= 0) by lia.
    rewrite (Z.max_l (- g) 0), (Z.max_r g 0), Z.pow_0_r, Z.mul_1_r in Heq by lia.
    assert (P : 0 < 2 ^ (- g)) by (apply Z.pow_pos_nonneg; lia).
    rewrite round_exponent_small; [lia|assumption|].
    assert (HAB' : A < B) by lia.
    set (p := 2 ^ (- g)) in *.
    assert (H1 : (N * p) * B < Den * B) by nia.
    assert (H2 : N * p < Den) by nia.
    nia.
  - pose proof (Zdigits2_bounds m ltac:(lia)) as [Hl Hu].
    set (d := Zdigits2 m) in *.
    assert (Hd : 1 <= d) by (apply Zdigits2_pos; lia).
    assert (HAl : B * 2 ^ (d - 1) <= A).
    { assert (B * 2 ^ (d - 1) <= B * m) by (apply Z.mul_le_mono_nonneg_l; lia). lia. }
    assert (HAu : A < B * 2 ^ d).
    { assert (B * (m + 1) <= B * 2 ^ d) by (apply Z.mul_le_mono_nonneg_l; lia). lia. }
    clearbody m d.
    destruct (Z.le_gt_cases 0 g) as [Hg|Hg].
    + (* g >= 0 *)
      rewrite (Z.max_r (- g) 0), (Z.max_l g 0), Z.pow_0_r, Z.mul_1_r in Heq by lia.
      assert (Pg : 0 < 2 ^ g) by (apply Z.pow_pos_nonneg; lia).
      assert (R : 2 ^ (d - 1 + g) <= N / Den < 2 ^ (d - 1 + g + 1)).
      { apply div_in_range; [assumption|].
        replace (d - 1 + g + 1) with (d + g) by lia.
        rewrite !pow2_split by lia. split; nia. }
      unfold round_exponent. rewrite (log2_in_range _ (d - 1 + g)) by (try lia; exact R). lia.
    + (* g < 0 *)
      rewrite (Z.max_l (- g) 0), (Z.max_r g 0), Z.pow_0_r, Z.mul_1_r in Heq by lia.
      assert (Pg : 0 < 2 ^ (- g)) by (apply Z.pow_pos_nonneg; lia).
      destruct (Z.le_gt_cases 0 (d - 1 + g)) as [Ht|Ht].
      * assert (S1 : 2 ^ (d - 1) = 2 ^ (d - 1 + g) * 2 ^ (- g)).
        { rewrite <- pow2_split by lia. f_equal. lia. }
        assert (S2 : 2 ^ d = 2 ^ (d - 1 + g + 1) * 2 ^ (- g)).
        { rewrite <- pow2_split by lia. f_equal. lia. }
        assert (R : 2 ^ (d - 1 + g) <= N / Den < 2 ^ (d - 1 + g + 1)).
        { apply div_in_range; [assumption|].
          rewrite S1 in HAl. rewrite S2 in HAu. split; nia. }
        unfold round_exponent. rewrite (log2_in_range _ (d - 1 + g)) by (try lia; exact R). lia.
      * assert (S2 : 2 ^ d <= 2 ^ (- g)) by (apply Z.pow_le_mono_r; lia).
        rewrite round_exponent_small; [lia|assumption|].
        set (p := 2 ^ (- g)) in *. set (pd := 2 ^ d) in *.
        assert (H1 : (N * p) * B < (Den * pd) * B) by nia.
        assert (H2 : N * p < Den * pd) by nia.
        assert (H3 : Den * pd <= Den * p) by nia.
        nia.
Qed.

Lemma round_quotient_of_record A B e N Den :
  0 <= A -> 0 < B -> 0 <= N -> 0 < Den ->
  N * B * 2 ^ Z.max (- (e + 1074)) 0 = A * Den * 2 ^ Z.max (e + 1074) 0 ->
  e <= fexp prec emax (Zdigits2 (A / B) + e) ->
  let E := fexp prec emax (Zdigits2 (A / B) + e) in
  Z.min (nearest_even A (B * 2 ^ (E - e)) * 2 ^ (E + 1074)) overflow = round_quotient N Den.
Proof.
  intros HA HB HN HD Heq He E. unfold round_quotient.
  rewrite (round_exponent_of_digits A B e N Den HA HB HN HD Heq He). fold E.
  assert (HE : -1074 <= E) by (unfold E; rewrite fexp_eq; lia).
  assert (P1 : 0 < 2 ^ (E - e)) by (apply Z.pow_pos_nonneg; lia).
  assert (P2 : 0 < 2 ^ (E + 1074)) by (apply Z.pow_pos_nonneg; lia).
  f_equal. f_equal. apply nearest_even_ratio; [nia|nia|].
  remember (e + 1074) as g eqn:Hgdef.
  destruct (Z.le_gt_cases 0 g) as [Hg|Hg].
  - rewrite (Z.max_r (- g) 0), (Z.max_l g 0), Z.pow_0_r, Z.mul_1_r in Heq by lia.
    replace (E + 1074) with (g + (E - e)) by lia.
    rewrite (pow2_split g (E - e)) by lia.
    transitivity (N * B * 2 ^ (E - e)); [|ring]. rewrite Heq. ring.
  - rewrite (Z.max_l (- g) 0), (Z.max_r g 0), Z.pow_0_r, Z.mul_1_r in Heq by lia.
    replace (E - e) with (- g + (E + 1074)) by lia.
    rewrite (pow2_split (- g) (E + 1074)) by lia.
    transitivity (N * B * 2 ^ (- g) * 2 ^ (E + 1074)); [|ring]. rewrite Heq. ring.
Qed.


(** *** The order of valid numbers *)

(** What validity says of a mantissa and an exponent. *)
Lemma bounded_facts m e :
  bounded prec emax m e = true ->
  -1074 <= e <= 971 /\ Z.pos m < 2 ^ 53 /\ (-1074 < e -> 2 ^ 52 <= Z.pos m) /\
  fexp prec emax (Z.pos (digits2_pos m) + e) = e.
Proof.
  unfold bounded, canonical_mantissa. intros H.
  apply andb_true_iff in H. destruct H as [Hc Hb].
  apply Z.eqb_eq in Hc. apply Z.leb_le in Hb. change (emax - prec) with 971 in Hb.
  pose proof (digits2_pos_bounds m) as [Hl Hu].
  pose proof Hc as Hc'. rewrite fexp_eq in Hc'.
  set (d := Z.pos (digits2_pos m)) in *.
  split; [lia|]. split; [|split; [|exact Hc]].
  - eapply Z.lt_le_trans; [exact Hu|]. apply Z.pow_le_mono_r; lia.
  - intros He. eapply Z.le_trans; [|exact Hl]. apply Z.pow_le_mono_r; lia.
Qed.

Lemma units_finite_pos m e :
  bounded prec emax m e = true -> 0 < Z.pos m * 2 ^ (e + 1074) < overflow.
Proof.
  intros H. destruct (bounded_facts m e H) as (He & Hm & _).
  assert (P : 0 < 2 ^ (e + 1074)) by (apply Z.pow_pos_nonneg; lia).
  split; [apply Z.mul_pos_pos; lia|].
  rewrite overflow_eq.
  assert (2 ^ (e + 1074) <= 2 ^ 2045) by (apply Z.pow_le_mono_r; lia).
  apply Z.le_lt_trans with (Z.pos m * 2 ^ 2045).
  - apply Z.mul_le_mono_nonneg_l; lia.
  - apply Z.mul_lt_mono_pos_r; [reflexivity|exact Hm].
Qed.

Lemma units_bounds x : valid_binary x = true -> - overflow <= sf_units x <= overflow.
Proof.
  assert (0 < overflow) by reflexivity.
  destruct x as [s|s| |s m e]; cbn [valid_binary SpecFloat.valid_binary sf_units]; intros V.
  - lia.
  - destruct s; cbn; lia.
  - lia.
  - pose proof (units_finite_pos m e V). destruct s; cbn [cond_Zopp]; lia.
Qed.

Lemma units_finite_bounds x :
  valid_binary x = true -> sf_finite x = true -> - overflow < sf_units x < overflow.
Proof.
  assert (0 < overflow) by reflexivity.
  destruct x as [s|s| |s m e]; cbn [valid_binary SpecFloat.valid_binary sf_units sf_finite];
    intros V F; try discriminate.
  - lia.
  - pose proof (units_finite_pos m e V). destruct s; cbn [cond_Zopp]; lia.
Qed.

(** Two positive valid numbers compare as their values do. *)
Lemma compare_finite_pos m1 e1 m2 e2 :
  bounded prec emax m1 e1 = true -> bounded prec emax m2 e2 = true ->
  match Z.compare e1 e2 with
  | Lt => Lt
  | Gt => Gt
  | Eq => Pos.compare_cont Eq m1 m2
  end = Z.compare (Z.pos m1 * 2 ^ (e1 + 1074)) (Z.pos m2 * 2 ^ (e2 + 1074)).
Proof.
  intros H1 H2.
  destruct (bounded_facts m1 e1 H1) as (He1 & Hm1 & Hl1 & _).
  destruct (bounded_facts m2 e2 H2) as (He2 & Hm2 & Hl2 & _).
  assert (P1 : 0 < 2 ^ (e1 + 1074)) by (apply Z.pow_pos_nonneg; lia).
  assert (P2 : 0 < 2 ^ (e2 + 1074)) by (apply Z.pow_pos_nonneg; lia).
  destruct (Z.compare_spec e1 e2) as [E|L|G].
  - subst e2. change (Pos.compare_cont Eq m1 m2) with (Z.pos m1 ?= Z.pos m2).
    apply Zmult_compare_compat_r. lia.
  - symmetry. apply Z.compare_lt_iff.
    specialize (Hl2 ltac:(lia)).
    assert (S : 2 ^ (e2 + 1074) = 2 ^ (e2 - e1 - 1) * (2 * 2 ^ (e1 + 1074))).
    { replace (2 * 2 ^ (e1 + 1074)) with (2 ^ (1 + (e1 + 1074)))
        by (rewrite pow2_split by lia; reflexivity).
      rewrite <- pow2_split by lia. f_equal. lia. }
    assert (P3 : 0 < 2 ^ (e2 - e1 - 1)) by (apply Z.pow_pos_nonneg; lia).
    rewrite S. change (2 ^ 53) with (2 * 2 ^ 52) in Hm1. nia.
  - symmetry. apply Z.compare_gt_iff.
    specialize (Hl1 ltac:(lia)).
    assert (S : 2 ^ (e1 + 1074) = 2 ^ (e1 - e2 - 1) * (2 * 2 ^ (e2 + 1074))).
    { replace (2 * 2 ^ (e2 + 1074)) with (2 ^ (1 + (e2 + 1074)))
        by (rewrite pow2_split by lia; reflexivity).
      rewrite <- pow2_split by lia. f_equal. lia. }
    assert (P3 : 0 < 2 ^ (e1 - e2 - 1)) by (apply Z.pow_pos_nonneg; lia).
    rewrite S. change (2 ^ 53) with (2 * 2 ^ 52) in Hm2. nia.
Qed.

Ltac solve_compare :=
  match goal with
  | |- _ = Eq => apply Z.compare_eq_iff; lia
  | |- _ = Lt => apply Z.compare_lt_iff; lia
  | |- _ = Gt => apply Z.compare_gt_iff; lia
  end.

Lemma SFcompare_units x y :
  valid_binary x = true -> valid_binary y = true ->
  sf_nan x = false -> sf_nan y = false ->
  SFcompare x y = Some (Z.compare (sf_units x) (sf_units y)).
Proof.
  assert (HB : 0 < overflow) by reflexivity.
  intros Vx Vy Nx Ny.
  pose proof (units_bounds x Vx) as Bx. pose proof (units_bounds y Vy) as By.
  destruct x as [sx|sx| |sx mx ex]; try discriminate;
    destruct y as [sy|sy| |sy my ey]; try discriminate;
    cbn [valid_binary SpecFloat.valid_binary] in Vx, Vy;
    cbn [SFcompare sf_units] in *; f_equal.
  - (* zero, infinity *)
    destruct sy; cbn [cond_Zopp]; symmetry;
      [apply Z.compare_gt_iff|apply Z.compare_lt_iff]; lia.
  - (* zero, finite *)
    pose proof (units_finite_pos my ey Vy).
    destruct sy; cbn [cond_Zopp]; symmetry;
      [apply Z.compare_gt_iff|apply Z.compare_lt_iff]; lia.
  - (* infinity, zero *)
    destruct sx; cbn [cond_Zopp]; symmetry;
      [apply Z.compare_lt_iff|apply Z.compare_gt_iff]; lia.
  - (* infinity, infinity *)
    destruct sx, sy; cbn [cond_Zopp]; symmetry;
      solve_compare.
  - (* infinity, finite *)
    pose proof (units_finite_pos my ey Vy).
    destruct sx, sy; cbn [cond_Zopp]; symmetry;
      solve_compare.
  - (* finite, zero *)
    pose proof (units_finite_pos mx ex Vx).
    destruct sx; cbn [cond_Zopp]; symmetry;
      [apply Z.compare_lt_iff|apply Z.compare_gt_iff]; lia.
  - (* finite, infinity *)
    pose proof (units_finite_pos mx ex Vx).
    destruct sx, sy; cbn [cond_Zopp]; symmetry;
      solve_compare.
  - (* finite, finite *)
    pose proof (units_finite_pos mx ex Vx). pose proof (units_finite_pos my ey Vy).
    destruct sx, sy; cbn [cond_Zopp].
    + rewrite Z.compare_opp.
      rewrite (Z.compare_antisym (Z.pos mx * 2 ^ (ex + 1074))).
      rewrite <- (compare_finite_pos mx ex my ey Vx Vy).
      destruct (ex ?= ey); reflexivity.
    + symmetry. apply Z.compare_lt_iff. lia.
    + symmetry. apply Z.compare_gt_iff. lia.
    + apply compare_finite_pos; assumption.
Qed.


(** *** Multiplication, division and subtraction *)

Lemma binary_round_aux_quotient s A B e N Den :
  0 <= A -> 0 < B -> 0 <= N -> 0 < Den ->
  N * B * 2 ^ Z.max (- (e + 1074)) 0 = A * Den * 2 ^ Z.max (e + 1074) 0 ->
  e <= fexp prec emax (Zdigits2 (A / B) + e) ->
  let r := binary_round_aux prec emax s (A / B) e (loc_of_shr_record (quotient_record A B)) in
  r <> S754_nan /\ sf_units r = cond_Zopp s (round_quotient N Den).
Proof.
  intros HA HB HN HD Heq He r.
  destruct (binary_round_aux_units s A B e HA HB He) as [H1 H2]. split; [exact H1|].
  fold r in H2. rewrite H2. f_equal. now apply round_quotient_of_record.
Qed.

Lemma loc_exact_quotient A : loc_of_shr_record (quotient_record A 1) = loc_Exact.
Proof. unfold quotient_record. rewrite Z.mod_1_r. reflexivity. Qed.

Lemma binary_round_aux_exact s A e N Den :
  0 <= A -> 0 <= N -> 0 < Den ->
  N * 2 ^ Z.max (- (e + 1074)) 0 = A * Den * 2 ^ Z.max (e + 1074) 0 ->
  e <= fexp prec emax (Zdigits2 A + e) ->
  let r := binary_round_aux prec emax s A e loc_Exact in
  r <> S754_nan /\ sf_units r = cond_Zopp s (round_quotient N Den).
Proof.
  intros HA HN HD Heq He.
  pose proof (binary_round_aux_quotient s A 1 e N Den HA ltac:(lia) HN HD) as H.
  rewrite Z.div_1_r, Z.mul_1_r, loc_exact_quotient in H. now apply H.
Qed.

Lemma Zdigits2_mul_ge a b :
  Zdigits2 (Z.pos a) + Zdigits2 (Z.pos b) - 1 <= Zdigits2 (Z.pos (a * b)).
Proof.
  pose proof (Zdigits2_bounds (Z.pos a) ltac:(lia)) as [La _].
  pose proof (Zdigits2_bounds (Z.pos b) ltac:(lia)) as [Lb _].
  pose proof (Zdigits2_bounds (Z.pos (a * b)) ltac:(lia)) as [_ Uab].
  pose proof (Zdigits2_pos (Z.pos a) ltac:(lia)).
  pose proof (Zdigits2_pos (Z.pos b) ltac:(lia)).
  set (da := Zdigits2 (Z.pos a)) in *. set (db := Zdigits2 (Z.pos b)) in *.
  set (d := Zdigits2 (Z.pos (a * b))) in *.
  destruct (Z.le_gt_cases (da + db - 1) d) as [?|G]; [assumption|exfalso].
  assert (2 ^ d <= 2 ^ (da - 1 + (db - 1))) by (apply Z.pow_le_mono_r; lia).
  rewrite pow2_split in H1 by lia.
  rewrite Pos2Z.inj_mul in Uab.
  assert (2 ^ (da - 1) * 2 ^ (db - 1) <= Z.pos a * Z.pos b)
    by (apply Z.mul_le_mono_nonneg; lia).
  lia.
Qed.

(** The product of two finite numbers is their exact product, rounded. *)
Lemma units_mul sx mx ex sy my ey :
  bounded prec emax mx ex = true -> bounded prec emax my ey = true ->
  let r := SF64mul (S754_finite sx mx ex) (S754_finite sy my ey) in
  r <> S754_nan /\
  sf_units r
  = cond_Zopp (xorb sx sy)
      (round_quotient (magnitude mx ex * magnitude my ey) (2 ^ 1074)).
Proof.
  intros Vx Vy. cbn [SF64mul SFmul]. unfold SF64mul, SFmul.
  destruct (bounded_facts mx ex Vx) as (Hex & _ & _ & Cx).
  destruct (bounded_facts my ey Vy) as (Hey & _ & _ & Cy).
  assert (Px : 0 < 2 ^ (ex + 1074)) by (apply Z.pow_pos_nonneg; lia).
  assert (Py : 0 < 2 ^ (ey + 1074)) by (apply Z.pow_pos_nonneg; lia).
  apply binary_round_aux_exact.
  - lia.
  - unfold magnitude. apply Z.mul_nonneg_nonneg; apply Z.mul_nonneg_nonneg; lia.
  - reflexivity.
  - unfold magnitude. rewrite Pos2Z.inj_mul.
    remember (ex + ey + 1074) as g eqn:Hg.
    destruct (Z.le_gt_cases 0 g) as [G|G].
    + rewrite (Z.max_r (- g) 0), (Z.max_l g 0), Z.pow_0_r, Z.mul_1_r by lia.
      assert (S : 2 ^ (ex + 1074) * 2 ^ (ey + 1074) = 2 ^ 1074 * 2 ^ g).
      { rewrite <- !pow2_split by lia. f_equal. lia. }
      transitivity (Z.pos mx * Z.pos my * (2 ^ (ex + 1074) * 2 ^ (ey + 1074))); [ring|].
      rewrite S. ring.
    + rewrite (Z.max_l (- g) 0), (Z.max_r g 0), Z.pow_0_r, Z.mul_1_r by lia.
      assert (S : 2 ^ (ex + 1074) * 2 ^ (ey + 1074) * 2 ^ (- g) = 2 ^ 1074).
      { rewrite <- !pow2_split by lia. f_equal. lia. }
      transitivity (Z.pos mx * Z.pos my * (2 ^ (ex + 1074) * 2 ^ (ey + 1074) * 2 ^ (- g))); [ring|].
      rewrite S. ring.
  - rewrite fexp_eq in *.
    pose proof (Zdigits2_mul_ge mx my) as HD.
    pose proof (Zdigits2_pos (Z.pos mx) ltac:(lia)).
    pose proof (Zdigits2_pos (Z.pos my) ltac:(lia)).
    cbn [Zdigits2] in *. lia.
Qed.


Lemma new_location_quotient A B :
  0 < B -> new_location B (A mod B) = loc_of_shr_record (quotient_record A B).
Proof.
  intros HB. pose proof (Z.mod_pos_bound A B HB) as Hr.
  unfold quotient_record. cbn [loc_of_shr_record]. set (r := A mod B) in *.
  unfold new_location, new_location_even, new_location_odd.
  destruct (Z.even B) eqn:Ev.
  - destruct (Z.eqb_spec r 0) as [E0|N0].
    + subst r. rewrite E0. cbn [orb negb].
      destruct (Z.leb_spec B (2 * 0)); [lia|reflexivity].
    + cbn [orb]. destruct (Z.compare_spec (2 * r) B) as [E|L|G].
      * rewrite E, Z.leb_refl, Z.eqb_refl. reflexivity.
      * destruct (Z.leb_spec B (2 * r)); [lia|].
        destruct (Z.eqb_spec (2 * r) B); [lia|reflexivity].
      * destruct (Z.leb_spec B (2 * r)); [|lia].
        destruct (Z.eqb_spec (2 * r) B); [lia|reflexivity].
  - assert (Hodd : B mod 2 = 1).
    { rewrite Zmod_even, Ev. reflexivity. }
    pose proof (Z.div_mod B 2 ltac:(lia)) as HB2.
    destruct (Z.eqb_spec r 0) as [E0|N0].
    + rewrite E0. cbn [orb negb].
      destruct (Z.leb_spec B (2 * 0)); [lia|reflexivity].
    + cbn [orb].
      destruct (Z.eqb_spec (2 * r) B) as [E|NE]; [lia|]. cbn [negb].
      destruct (Z.compare_spec (2 * r + 1) B) as [E|L|G].
      * destruct (Z.leb_spec B (2 * r)); [lia|reflexivity].
      * destruct (Z.leb_spec B (2 * r)); [lia|reflexivity].
      * destruct (Z.leb_spec B (2 * r)); [reflexivity|lia].
Qed.

Lemma shift_mantissa m s :
  0 <= s ->
  match s with
  | Z.pos _ => Z.shiftl m s
  | 0 => m
  | Z.neg _ => 0
  end = m * 2 ^ s.
Proof.
  intros Hs. destruct s as [|p|p]; [rewrite Z.pow_0_r; lia| |lia].
  apply Z.shiftl_mul_pow2. lia.
Qed.

Lemma Zdigits2_ge m k : 0 <= k -> 2 ^ k <= m -> k + 1 <= Zdigits2 m.
Proof.
  intros Hk H.
  assert (P : 0 < 2 ^ k) by (apply Z.pow_pos_nonneg; lia).
  pose proof (Zdigits2_upper m ltac:(lia)) as Hu.
  destruct (Z.le_gt_cases (k + 1) (Zdigits2 m)) as [?|G]; [assumption|exfalso].
  assert (2 ^ Zdigits2 m <= 2 ^ k).
  { pose proof (Zdigits2_nonneg m). apply Z.pow_le_mono_r; lia. }
  lia.
Qed.

(** The quotient of two finite numbers is their exact quotient, rounded. *)
Lemma units_div sx mx ex sy my ey :
  bounded prec emax mx ex = true -> bounded prec emax my ey = true ->
  let r := SF64div (S754_finite sx mx ex) (S754_finite sy my ey) in
  r <> S754_nan /\
  sf_units r
  = cond_Zopp (xorb sx sy)
      (round_quotient (magnitude mx ex * 2 ^ 1074) (magnitude my ey)).
Proof.
  intros Vx Vy. unfold SF64div, SFdiv, SFdiv_core_binary.
  destruct (bounded_facts mx ex Vx) as (Hex & _ & _ & _).
  destruct (bounded_facts my ey Vy) as (Hey & _ & _ & _).
  assert (Px : 0 < 2 ^ (ex + 1074)) by (apply Z.pow_pos_nonneg; lia).
  assert (Py : 0 < 2 ^ (ey + 1074)) by (apply Z.pow_pos_nonneg; lia).
  pose proof (Zdigits2_bounds (Z.pos mx) ltac:(lia)) as [Lx Ux].
  pose proof (Zdigits2_bounds (Z.pos my) ltac:(lia)) as [Ly Uy].
  pose proof (Zdigits2_pos (Z.pos mx) ltac:(lia)) as Dx.
  pose proof (Zdigits2_pos (Z.pos my) ltac:(lia)) as Dy.
  set (d1 := Zdigits2 (Z.pos mx)) in *. set (d2 := Zdigits2 (Z.pos my)) in *.
  set (t := d1 + ex - (d2 + ey)).
  set (e' := Z.min (fexp prec emax t) (ex - ey)).
  assert (He' : e' <= fexp prec emax t /\ e' <= ex - ey) by (unfold e'; lia).
  rewrite shift_mantissa by lia.
  set (sh := ex - ey - e') in *.
  assert (Hsh : 0 <= sh) by (unfold sh; lia).
  assert (Psh : 0 < 2 ^ sh) by (apply Z.pow_pos_nonneg; lia).
  rewrite div_eucl_eq, new_location_quotient by lia.
  set (A := Z.pos mx * 2 ^ sh) in *.
  apply binary_round_aux_quotient.
  - unfold A. lia.
  - lia.
  - unfold magnitude. apply Z.mul_nonneg_nonneg; [apply Z.mul_nonneg_nonneg|]; lia.
  - unfold magnitude. apply Z.mul_pos_pos; lia.
  - unfold magnitude, A.
    remember (e' + 1074) as g eqn:Hg.
    destruct (Z.le_gt_cases 0 g) as [G|G].
    + rewrite (Z.max_r (- g) 0), (Z.max_l g 0), Z.pow_0_r, Z.mul_1_r by lia.
      assert (S : 2 ^ (ex + 1074) * 2 ^ 1074 = 2 ^ sh * 2 ^ (ey + 1074) * 2 ^ g).
      { rewrite <- !pow2_split by lia. f_equal. unfold sh. lia. }
      transitivity (Z.pos mx * Z.pos my * (2 ^ (ex + 1074) * 2 ^ 1074)); [ring|].
      rewrite S. ring.
    + rewrite (Z.max_l (- g) 0), (Z.max_r g 0), Z.pow_0_r, Z.mul_1_r by lia.
      assert (S : 2 ^ (ex + 1074) * 2 ^ 1074 * 2 ^ (- g) = 2 ^ sh * 2 ^ (ey + 1074)).
      { rewrite <- !pow2_split by lia. f_equal. unfold sh. lia. }
      transitivity (Z.pos mx * Z.pos my * (2 ^ (ex + 1074) * 2 ^ 1074 * 2 ^ (- g))); [ring|].
      rewrite S. ring.
  - (* the quotient has digits enough *)
    assert (HA : 2 ^ (d1 - 1 + sh) <= A).
    { unfold A. rewrite pow2_split by lia. apply Z.mul_le_mono_nonneg_r; lia. }
    assert (Hq0 : 0 <= A / Z.pos my) by (apply Z.div_pos; unfold A; lia).
    destruct (Z.eq_dec (A / Z.pos my) 0) as [E0|N0].
    + rewrite E0. cbn [Zdigits2].
      assert (HAB : A < Z.pos my).
      { apply Z.div_small_iff in E0; lia. }
      assert (Hd : d1 - 1 + sh < d2).
      { destruct (Z.le_gt_cases d2 (d1 - 1 + sh)) as [L|?]; [exfalso|lia].
        assert (2 ^ d2 <= 2 ^ (d1 - 1 + sh)) by (apply Z.pow_le_mono_r; lia). lia. }
      rewrite fexp_eq in *. unfold sh, t in *. lia.
    + assert (Hq : t - e' <= Zdigits2 (A / Z.pos my)).
      { destruct (Z.le_gt_cases 0 (d1 - 1 + sh - d2)) as [J|J].
        - replace (t - e') with (d1 - 1 + sh - d2 + 1) by (unfold t, sh; lia).
          apply Zdigits2_ge; [assumption|].
          apply Z.div_le_lower_bound; [lia|].
          apply Z.le_trans with (2 ^ d2 * 2 ^ (d1 - 1 + sh - d2)).
          + apply Z.mul_le_mono_nonneg_r; lia.
          + rewrite <- pow2_split by lia.
            replace (d2 + (d1 - 1 + sh - d2)) with (d1 - 1 + sh) by lia. exact HA.
        - pose proof (Zdigits2_pos (A / Z.pos my) ltac:(lia)).
          unfold t, sh in *. lia. }
      rewrite fexp_eq in *. lia.
Qed.


Lemma iter_xO m d : Z.pos (Pos.iter xO m d) = Z.pos m * 2 ^ Z.pos d.
Proof.
  induction d as [|d IH] using Pos.peano_ind.
  - cbn. lia.
  - rewrite Pos.iter_succ, Pos2Z.inj_xO, IH, Pos2Z.inj_succ, Z.pow_succ_r by lia. ring.
Qed.

Lemma shl_align_spec m e e' :
  snd (shl_align m e e') = Z.min e e' /\
  Z.pos (fst (shl_align m e e')) = Z.pos m * 2 ^ (e - Z.min e e').
Proof.
  unfold shl_align. destruct (e' - e) as [|p|p] eqn:E; cbn [fst snd].
  - rewrite Z.min_l by lia. rewrite Z.sub_diag. split; lia.
  - rewrite Z.min_l by lia. rewrite Z.sub_diag. split; lia.
  - rewrite Z.min_r by lia. split; [reflexivity|].
    rewrite iter_xO. f_equal. f_equal. lia.
Qed.

Lemma Zdigits2_unique x k : 2 ^ (k - 1) <= x < 2 ^ k -> 1 <= k -> Zdigits2 x = k.
Proof.
  intros [Hl Hu] Hk.
  assert (P : 0 < 2 ^ (k - 1)) by (apply Z.pow_pos_nonneg; lia).
  pose proof (Zdigits2_le x k ltac:(lia) ltac:(lia)).
  pose proof (Zdigits2_ge x (k - 1) ltac:(lia) Hl). lia.
Qed.

Lemma Zdigits2_shift m j :
  0 < m -> 0 <= j -> Zdigits2 (m * 2 ^ j) = Zdigits2 m + j.
Proof.
  intros Hm Hj. pose proof (Zdigits2_bounds m Hm) as [Hl Hu].
  pose proof (Zdigits2_pos m Hm).
  assert (P : 0 < 2 ^ j) by (apply Z.pow_pos_nonneg; lia).
  apply Zdigits2_unique; [|lia]. split.
  - replace (Zdigits2 m + j - 1) with (Zdigits2 m - 1 + j) by lia.
    rewrite pow2_split by lia. apply Z.mul_le_mono_nonneg_r; lia.
  - rewrite pow2_split by lia. apply Z.mul_lt_mono_pos_r; lia.
Qed.

Lemma units_binary_round s p e :
  -1074 <= e ->
  let r := binary_round prec emax s p e in
  r <> S754_nan /\ sf_units r = cond_Zopp s (round_quotient (Z.pos p * 2 ^ (e + 1074)) 1).
Proof.
  intros He. unfold binary_round.
  remember (fexp prec emax (Z.pos (digits2_pos p) + e)) as t eqn:Ht0.
  destruct (shl_align_spec p e t) as [H2 H1].
  destruct (shl_align p e t) as [mz ez]. cbn [fst snd] in H1, H2.
  assert (Ht : -1074 <= t) by (rewrite Ht0, fexp_eq; lia).
  assert (P : 0 < 2 ^ (e + 1074)) by (apply Z.pow_pos_nonneg; lia).
  assert (P' : 0 < 2 ^ (e - ez)) by (apply Z.pow_pos_nonneg; lia).
  apply binary_round_aux_exact.
  - lia.
  - apply Z.mul_nonneg_nonneg; lia.
  - lia.
  - rewrite (Z.max_r (- (ez + 1074)) 0), (Z.max_l (ez + 1074) 0), Z.pow_0_r, !Z.mul_1_r by lia.
    rewrite H1, <- Z.mul_assoc, <- pow2_split by lia. do 2 f_equal. lia.
  - rewrite H1, Zdigits2_shift by lia. cbn [Zdigits2].
    replace (Z.pos (digits2_pos p) + (e - Z.min e t) + ez)
      with (Z.pos (digits2_pos p) + e) by lia.
    rewrite <- Ht0. lia.
Qed.

Lemma signed_mono f z1 z2 :
  (forall u, 0 <= u -> 0 <= f u) ->
  (forall u v, 0 <= u <= v -> f u <= f v) ->
  z1 <= z2 -> signed f z1 <= signed f z2.
Proof.
  intros Hpos Hmono H. unfold signed.
  destruct (Z.ltb_spec z1 0); destruct (Z.ltb_spec z2 0).
  - specialize (Hmono (- z2) (- z1) ltac:(lia)). lia.
  - pose proof (Hpos (- z1) ltac:(lia)). pose proof (Hpos z2 ltac:(lia)). lia.
  - lia.
  - apply Hmono. lia.
Qed.

Lemma signed_cond_Zopp f s z :
  0 < z -> cond_Zopp s (f z) = signed f (cond_Zopp s z).
Proof.
  intros Hz. unfold signed. destruct s; cbn [cond_Zopp].
  - destruct (Z.ltb_spec (- z) 0); [|lia]. now rewrite Z.opp_involutive.
  - destruct (Z.ltb_spec z 0); [lia|reflexivity].
Qed.

Lemma round_quotient_zero Den : 0 < Den -> round_quotient 0 Den = 0.
Proof.
  intros H. unfold round_quotient. rewrite round_exponent_small by lia.
  rewrite Z.pow_0_r, !Z.mul_1_r. unfold nearest_even, round_up.
  rewrite Z.div_0_l, Z.mod_0_l by lia.
  destruct (Z.ltb_spec Den (2 * 0)); [lia|].
  destruct (Z.eqb_spec Den (2 * 0)); [lia|]. reflexivity.
Qed.

Lemma round_quotient_range N Den : 0 <= N -> 0 < Den -> 0 <= round_quotient N Den <= overflow.
Proof.
  intros HN HD. unfold round_quotient. set (k := round_exponent N Den).
  assert (Hk : 0 <= k) by (unfold k, round_exponent; lia).
  assert (P : 0 < 2 ^ k) by (apply Z.pow_pos_nonneg; lia).
  pose proof (nearest_even_bounds N (Den * 2 ^ k)) as [Hl _].
  assert (0 <= N / (Den * 2 ^ k)) by (apply Z.div_pos; nia).
  assert (0 < overflow) by reflexivity.
  split; [|apply Z.le_min_r].
  apply Z.min_glb; [|lia]. apply Z.mul_nonneg_nonneg; lia.
Qed.

(** A number that the format holds rounds to itself. *)
Lemma round_quotient_representable m e :
  bounded prec emax m e = true -> round_quotient (magnitude m e) 1 = magnitude m e.
Proof.
  intros V. destruct (bounded_facts m e V) as (He & _ & _ & C).
  pose proof (units_binary_round false m e ltac:(lia)) as [_ H].
  unfold binary_round in H. 
  destruct (shl_align_spec m e (fexp prec emax (Z.pos (digits2_pos m) + e))) as [H2 H1].
  rewrite C in *. rewrite Z.min_id in *. rewrite Z.sub_diag, Z.mul_1_r in H1.
  destruct (shl_align m e e) as [mz ez]. cbn [fst snd] in *.
  injection H1 as ->. subst ez.
  unfold bounded in V. apply andb_true_iff in V. destruct V as [Vc Vb].
  assert (E : binary_round_aux prec emax false (Z.pos m) e loc_Exact = S754_finite false m e).
  { unfold binary_round_aux.
    assert (S : shr_fexp prec emax (Z.pos m) e loc_Exact
                = (Build_shr_record (Z.pos m) false false, e)).
    { unfold shr_fexp. cbn [Zdigits2 shr_record_of_loc]. rewrite C, Z.sub_diag. reflexivity. }
    rewrite S. cbn [shr_m loc_of_shr_record round_nearest_even]. rewrite S.
    cbn [shr_m]. rewrite Vb. reflexivity. }
  rewrite E in H. cbn [sf_units cond_Zopp] in H. symmetry. exact H.
Qed.


Lemma magnitude_pos m e : bounded prec emax m e = true -> 0 < magnitude m e.
Proof. intros V. now destruct (units_finite_pos m e V). Qed.

(** The difference of two finite numbers is their exact difference,
    rounded. *)
Lemma units_sub x y :
  valid_binary x = true -> valid_binary y = true ->
  sf_finite x = true -> sf_finite y = true ->
  let r := SF64sub x y in
  r <> S754_nan /\ sf_units r = signed round_unit (sf_units x - sf_units y).
Proof.
  intros Vx Vy Fx Fy.
  destruct x as [sx|sx| |sx mx ex]; try discriminate;
    destruct y as [sy|sy| |sy my ey]; try discriminate;
    cbn [valid_binary SpecFloat.valid_binary] in Vx, Vy.
  - (* zero, zero *)
    cbn [sf_units]. rewrite Z.sub_0_r. unfold signed, round_unit. cbn [Z.ltb Z.compare].
    rewrite round_quotient_zero by lia.
    destruct sx, sy; cbn; split; (discriminate || reflexivity).
  - (* zero, finite *)
    cbn [SF64sub SFsub sf_units]. split; [discriminate|].
    pose proof (magnitude_pos my ey Vy) as P. fold (magnitude my ey).
    replace (0 - cond_Zopp sy (magnitude my ey)) with (cond_Zopp (negb sy) (magnitude my ey))
      by (destruct sy; cbn; lia).
    rewrite <- signed_cond_Zopp by assumption.
    unfold round_unit. now rewrite round_quotient_representable.
  - (* finite, zero *)
    cbn [SF64sub SFsub sf_units]. split; [discriminate|].
    pose proof (magnitude_pos mx ex Vx) as P. fold (magnitude mx ex).
    rewrite Z.sub_0_r, <- signed_cond_Zopp by assumption.
    unfold round_unit. now rewrite round_quotient_representable.
  - (* finite, finite *)
    unfold SF64sub, SFsub.
    destruct (bounded_facts mx ex Vx) as (Hex & _). destruct (bounded_facts my ey Vy) as (Hey & _).
    set (ez := Z.min ex ey).
    destruct (shl_align_spec mx ex ez) as [_ Ax].
    destruct (shl_align_spec my ey ez) as [_ Ay].
    rewrite Ax, Ay.
    rewrite (Z.min_r ex ez), (Z.min_r ey ez) by (unfold ez; lia).
    assert (Hez : -1074 <= ez) by (unfold ez; lia).
    assert (Pz : 0 < 2 ^ (ez + 1074)) by (apply Z.pow_pos_nonneg; lia).
    set (D := cond_Zopp sx (Z.pos mx * 2 ^ (ex - ez)) - cond_Zopp sy (Z.pos my * 2 ^ (ey - ez))).
    assert (HD : sf_units (S754_finite sx mx ex) - sf_units (S754_finite sy my ey)
                 = D * 2 ^ (ez + 1074)).
    { cbn [sf_units]. unfold D.
      assert (Sx : 2 ^ (ex + 1074) = 2 ^ (ex - ez) * 2 ^ (ez + 1074)).
      { rewrite <- pow2_split by (unfold ez; lia). f_equal. lia. }
      assert (Sy : 2 ^ (ey + 1074) = 2 ^ (ey - ez) * 2 ^ (ez + 1074)).
      { rewrite <- pow2_split by (unfold ez; lia). f_equal. lia. }
      rewrite Sx, Sy. destruct sx, sy; cbn [cond_Zopp]; ring. }
    rewrite HD. clearbody D. clear HD.
    destruct D as [|p|p]; cbn [binary_normalize].
    + split; [discriminate|]. cbn [sf_units]. rewrite Z.mul_0_l.
      unfold signed, round_unit. cbn [Z.ltb Z.compare]. now rewrite round_quotient_zero.
    + destruct (units_binary_round false p ez Hez) as [N H]. split; [exact N|].
      rewrite H. cbn [cond_Zopp]. unfold signed, round_unit.
      destruct (Z.ltb_spec (Z.pos p * 2 ^ (ez + 1074)) 0); [nia|reflexivity].
    + destruct (units_binary_round true p ez Hez) as [N H]. split; [exact N|].
      rewrite H. cbn [cond_Zopp]. unfold signed, round_unit.
      destruct (Z.ltb_spec (Z.neg p * 2 ^ (ez + 1074)) 0); [|nia].
      do 2 f_equal. rewrite <- Z.mul_opp_l. reflexivity.
Qed.

Lemma units_mul_pos x ma ea :
  valid_binary x = true -> bounded prec emax ma ea = true ->
  sf_finite x = true ->
  let r := SF64mul x (S754_finite false ma ea) in
  r <> S754_nan /\ sf_units r = signed (round_mul (magnitude ma ea)) (sf_units x).
Proof.
  intros Vx Va Fx. pose proof (magnitude_pos ma ea Va) as Pa.
  destruct x as [sx|sx| |sx mx ex]; try discriminate;
    cbn [valid_binary SpecFloat.valid_binary] in Vx.
  - cbn [SF64mul SFmul sf_units]. split; [discriminate|].
    unfold signed, round_mul. cbn [Z.ltb Z.compare].
    rewrite Z.mul_0_l, round_quotient_zero; [reflexivity|].
    apply Z.pow_pos_nonneg; lia.
  - destruct (units_mul sx mx ex false ma ea Vx Va) as [N H]. split; [exact N|].
    rewrite H, xorb_false_r. cbn [sf_units]. fold (magnitude mx ex).
    rewrite <- (signed_cond_Zopp (round_mul (magnitude ma ea))) by now apply magnitude_pos.
    reflexivity.
Qed.

Lemma units_div_pos x ms es :
  valid_binary x = true -> bounded prec emax ms es = true ->
  sf_finite x = true ->
  let r := SF64div x (S754_finite false ms es) in
  r <> S754_nan /\ sf_units r = signed (round_div (magnitude ms es)) (sf_units x).
Proof.
  intros Vx Vs Fx. pose proof (magnitude_pos ms es Vs) as Ps.
  destruct x as [sx|sx| |sx mx ex]; try discriminate;
    cbn [valid_binary SpecFloat.valid_binary] in Vx.
  - cbn [SF64div SFdiv sf_units]. split; [discriminate|].
    unfold signed, round_div. cbn [Z.ltb Z.compare].
    rewrite Z.mul_0_l, round_quotient_zero; [reflexivity|].
    assumption.
  - destruct (units_div sx mx ex false ms es Vx Vs) as [N H]. split; [exact N|].
    rewrite H, xorb_false_r. cbn [sf_units]. fold (magnitude mx ex).
    rewrite <- (signed_cond_Zopp (round_div (magnitude ms es))) by now apply magnitude_pos.
    reflexivity.
Qed.

(** *** Each operation is monotone *)

Lemma round_unit_mono z1 z2 :
  z1 <= z2 -> signed round_unit z1 <= signed round_unit z2.
Proof.
  apply signed_mono.
  - intros u Hu. apply round_quotient_range; lia.
  - intros u v H. apply round_quotient_mono; lia.
Qed.

Lemma round_mul_mono a z1 z2 :
  0 < a -> z1 <= z2 -> signed (round_mul a) z1 <= signed (round_mul a) z2.
Proof.
  intros Ha. assert (P : 0 < 2 ^ 1074) by (apply Z.pow_pos_nonneg; lia).
  apply signed_mono.
  - intros u Hu. apply round_quotient_range; [nia|lia].
  - intros u v H. apply round_quotient_mono; [lia|nia].
Qed.

Lemma round_div_mono d z1 z2 :
  0 < d -> z1 <= z2 -> signed (round_div d) z1 <= signed (round_div d) z2.
Proof.
  intros Hd. assert (P : 0 < 2 ^ 1074) by (apply Z.pow_pos_nonneg; lia).
  apply signed_mono.
  - intros u Hu. apply round_quotient_range; [nia|lia].
  - intros u v H. apply round_quotient_mono; [lia|nia].
Qed.

Lemma signed_range f z :
  (forall u, 0 <= u -> 0 <= f u <= overflow) -> - overflow <= signed f z <= overflow.
Proof.
  intros H. unfold signed. destruct (Z.ltb_spec z 0).
  - specialize (H (- z) ltac:(lia)). lia.
  - specialize (H z ltac:(lia)). assert (0 < overflow) by reflexivity. lia.
Qed.

(** An operation that rounds a monotone function of a finite operand and
    keeps the infinities is monotone on all numbers. *)
Lemma rounded_op_mono (op : spec_float -> spec_float) (f : Z -> Z) :
  (forall u, 0 <= u -> 0 <= f u <= overflow) ->
  (forall z1 z2, z1 <= z2 -> signed f z1 <= signed f z2) ->
  (forall x, valid_binary x = true -> sf_finite x = true ->
     op x <> S754_nan /\ sf_units (op x) = signed f (sf_units x)) ->
  (forall s, op (S754_infinity s) = S754_infinity s) ->
  forall x y,
    valid_binary x = true -> valid_binary y = true ->
    sf_nan x = false -> sf_nan y = false ->
    sf_units x <= sf_units y ->
    op x <> S754_nan /\ op y <> S754_nan /\ sf_units (op x) <= sf_units (op y).
Proof.
  intros Hr Hm Hf Hi x y Vx Vy Nx Ny H.
  assert (HB : 0 < overflow) by reflexivity.
  assert (Fin : forall z, valid_binary z = true -> sf_finite z = true ->
                  op z <> S754_nan /\ - overflow <= sf_units (op z) <= overflow).
  { intros z Vz Fz. destruct (Hf z Vz Fz) as [N E]. split; [exact N|].
    rewrite E. now apply signed_range. }
  destruct (sf_finite x) eqn:Fx; destruct (sf_finite y) eqn:Fy.
  - destruct (Hf x Vx Fx) as [N1 E1]. destruct (Hf y Vy Fy) as [N2 E2].
    split; [exact N1|]. split; [exact N2|]. rewrite E1, E2. now apply Hm.
  - destruct (Fin x Vx Fx) as [N1 B1].
    destruct y as [sy|sy| |sy my ey]; try discriminate.
    pose proof (units_finite_bounds x Vx Fx) as Bx.
    rewrite Hi. split; [exact N1|]. split; [discriminate|].
    cbn [sf_units] in *. destruct sy; cbn [cond_Zopp] in *; lia.
  - destruct (Fin y Vy Fy) as [N2 B2].
    destruct x as [sx|sx| |sx mx ex]; try discriminate.
    pose proof (units_finite_bounds y Vy Fy) as By.
    rewrite Hi. split; [discriminate|]. split; [exact N2|].
    cbn [sf_units] in *. destruct sx; cbn [cond_Zopp] in *; lia.
  - destruct x as [sx|sx| |sx mx ex]; try discriminate.
    destruct y as [sy|sy| |sy my ey]; try discriminate.
    rewrite !Hi. split; [discriminate|]. split; [discriminate|]. exact H.
Qed.


(** *** On primitive floats *)

Lemma finite_not_nan x : sf_finite x = true -> sf_nan x = false.
Proof. destruct x; cbn; congruence. Qed.

Lemma sf_nan_false x : x <> S754_nan -> sf_nan x = false.
Proof. destruct x; cbn; congruence. Qed.

(** [x <= y] on numbers is the order of their values. *)
Lemma leb_units x y :
  sf_nan (Prim2SF x) = false -> sf_nan (Prim2SF y) = false ->
  (x <=? y)%float = (units x <=? units y).
Proof.
  intros Nx Ny. rewrite leb_spec. unfold SFleb, units.
  rewrite (SFcompare_units _ _ (Prim2SF_valid x) (Prim2SF_valid y) Nx Ny).
  unfold Z.leb. destruct (sf_units (Prim2SF x) ?= sf_units (Prim2SF y)); reflexivity.
Qed.

(** A finite number above zero is a positive finite number. *)
Lemma positive_finite x :
  is_finite x = true -> (0 <? x)%float = true ->
  exists m e, Prim2SF x = S754_finite false m e /\ bounded prec emax m e = true.
Proof.
  rewrite is_finite_spec, ltb_spec. change (Prim2SF 0) with (S754_zero false).
  pose proof (Prim2SF_valid x) as V.
  destruct (Prim2SF x) as [s|s| |s m e]; try discriminate.
  destruct s; [discriminate|]. intros _ _. now exists m, e.
Qed.

Lemma sub_mono a b c :
  is_finite a = true -> is_finite b = true -> is_finite c = true ->
  units a <= units b ->
  sf_nan (Prim2SF (a - c)) = false /\ sf_nan (Prim2SF (b - c)) = false /\
  units (a - c) <= units (b - c).
Proof.
  rewrite !is_finite_spec. intros Fa Fb Fc H. unfold units in *.
  rewrite !sub_spec.
  destruct (units_sub _ _ (Prim2SF_valid a) (Prim2SF_valid c) Fa Fc) as [Na Ea].
  destruct (units_sub _ _ (Prim2SF_valid b) (Prim2SF_valid c) Fb Fc) as [Nb Eb].
  split; [now apply sf_nan_false|]. split; [now apply sf_nan_false|].
  rewrite Ea, Eb. apply round_unit_mono. lia.
Qed.

Lemma div_mono x y s :
  is_finite s = true -> (0 <? s)%float = true ->
  sf_nan (Prim2SF x) = false -> sf_nan (Prim2SF y) = false ->
  units x <= units y ->
  sf_nan (Prim2SF (x / s)) = false /\ sf_nan (Prim2SF (y / s)) = false /\
  units (x / s) <= units (y / s).
Proof.
  intros Fs Ps Nx Ny H. destruct (positive_finite s Fs Ps) as (m & e & Es & Vs).
  unfold units in *. rewrite !div_spec, Es.
  destruct (rounded_op_mono (fun z => SF64div z (S754_finite false m e))
              (round_div (magnitude m e)))
    with (x := Prim2SF x) (y := Prim2SF y) as (N1 & N2 & L);
    try assumption; try apply Prim2SF_valid.
  - intros u Hu. apply round_quotient_range; [|now apply magnitude_pos].
    assert (0 < 2 ^ 1074) by (apply Z.pow_pos_nonneg; lia). nia.
  - intros z1 z2. apply round_div_mono. now apply magnitude_pos.
  - intros z Vz Fz. now apply units_div_pos.
  - intros [|]; reflexivity.
  - split; [now apply sf_nan_false|]. split; [now apply sf_nan_false|]. exact L.
Qed.

Lemma mul_mono x y a :
  is_finite a = true -> (0 <? a)%float = true ->
  sf_nan (Prim2SF x) = false -> sf_nan (Prim2SF y) = false ->
  units x <= units y ->
  sf_nan (Prim2SF (x * a)) = false /\ sf_nan (Prim2SF (y * a)) = false /\
  units (x * a) <= units (y * a).
Proof.
  intros Fa Pa Nx Ny H. destruct (positive_finite a Fa Pa) as (m & e & Ea & Va).
  unfold units in *. rewrite !mul_spec, Ea.
  destruct (rounded_op_mono (fun z => SF64mul z (S754_finite false m e))
              (round_mul (magnitude m e)))
    with (x := Prim2SF x) (y := Prim2SF y) as (N1 & N2 & L);
    try assumption; try apply Prim2SF_valid.
  - intros u Hu. apply round_quotient_range; [|apply Z.pow_pos_nonneg; lia].
    pose proof (magnitude_pos m e Va). nia.
  - intros z1 z2. apply round_mul_mono. now apply magnitude_pos.
  - intros z Vz Fz. now apply units_mul_pos.
  - intros [|]; reflexivity.
  - split; [now apply sf_nan_false|]. split; [now apply sf_nan_false|]. exact L.
Qed.

Lemma conc_of_mono cpm0 sa aa a b :
  is_finite cpm0 = true ->
  is_finite sa = true -> (0 <? sa)%float = true ->
  is_finite aa = true -> (0 <? aa)%float = true ->
  is_finite a = true -> is_finite b = true ->
  units a <= units b ->
  is_nan (conc_of cpm0 sa aa a) = false /\
  is_nan (conc_of cpm0 sa aa b) = false /\
  units (conc_of cpm0 sa aa a) <= units (conc_of cpm0 sa aa b).
Proof.
  intros F0 Fs Ps Fa Pa Ha Hb H. unfold conc_of. rewrite !is_nan_spec.
  destruct (sub_mono a b cpm0 Ha Hb F0 H) as (N1 & N2 & L1).
  destruct (div_mono _ _ sa Fs Ps N1 N2 L1) as (N3 & N4 & L2).
  exact (mul_mono _ _ aa Fa Pa N3 N4 L2).
Qed.


End Rounding.

(** ** The Concentration Converter *)

(** C10. [calc_conc] changes no attribute of the object but
    [normalized_cpm_array] and [conc_array]: after the call, whether it
    returns or raises, [time_array], [cpm_array], [sa], [aa_conc], [pars]
    and [r2] are what they were before. *)
Theorem calc_conc_frame (self : Reaction) :
  let self' := fst (calc_conc self) in
  time_array self' = time_array self /\
  cpm_array self' = cpm_array self /\
  sa self' = sa self /\
  aa_conc self' = aa_conc self /\
  pars self' = pars self /\
  r2 self' = r2 self.
Proof.
  unfold calc_conc. destruct (getitem (cpm_array self) 0); cbn; repeat split.
Qed.

(** What [calc_conc] stores, for an object with a first CPM. *)
Lemma calc_conc_ok (self : Reaction) (cpm0 : float) (rest : list float) :
  cpm_array self = cpm0 :: rest ->
  calc_conc self =
    (set_conc_array
       (set_normalized_cpm_array self
          (map (fun c => c - cpm0)%float (cpm_array self)))
       (map (fun c => c / sa self * aa_conc self)%float
          (map (fun c => c - cpm0)%float (cpm_array self))),
     Ok tt).
Proof.
  intros E. unfold calc_conc. rewrite E. reflexivity.
Qed.

(** C1, as amended.  For every object with a non-empty [cpm_array],
    [calc_conc] returns and stores, at every index [i],
    [normalized_cpm_array[i] = cpm_array[i] - cpm_array[0]] and
    [conc_array[i] = normalized_cpm_array[i] / sa * aa_conc]; and
    [conc_array[0] == 0] whenever [cpm_array[0]] and [aa_conc] are finite and
    [sa] is neither zero nor a NaN. *)
Theorem calc_conc_spec (self : Reaction) (cpm0 : float) (rest : list float) :
  cpm_array self = cpm0 :: rest ->
  let self' := fst (calc_conc self) in
  snd (calc_conc self) = Ok tt /\
  List.length (normalized_cpm_array self') = List.length (cpm_array self) /\
  List.length (conc_array self') = List.length (cpm_array self) /\
  (forall i c, nth_error (cpm_array self) i = Some c ->
     nth_error (normalized_cpm_array self') i = Some (c - cpm0)%float /\
     nth_error (conc_array self') i
       = Some ((c - cpm0) / sa self * aa_conc self)%float) /\
  (is_finite cpm0 = true -> is_finite (aa_conc self) = true ->
   is_nan (sa self) = false -> (sa self =? 0)%float = false ->
   exists c0, nth_error (conc_array self') 0 = Some c0 /\ (c0 =? 0)%float = true).
Proof.
  intros E. rewrite (calc_conc_ok self cpm0 rest E). cbn.
  split; [reflexivity|].
  split; [now rewrite length_map|].
  split; [now rewrite !length_map|]. split.
  - intros i c Hi. rewrite !nth_error_map, Hi. split; reflexivity.
  - intros Hc Ha Hn Hz. rewrite E. cbn.
    eexists. split; [reflexivity|].
    apply FloatFacts.mul_zero_l; [|assumption].
    apply FloatFacts.div_zero_l; try assumption.
    rewrite (FloatFacts.sub_diag cpm0 Hc). reflexivity.
Qed.

Lemma calc_conc_spec_witness :
  let self := Reaction_init [0; 5; 10]%float [100; 150; 180]%float 50 10 in
  conc_array (fst (calc_conc self)) = [0; 10; 16]%float /\
  exists c0, nth_error (conc_array (fst (calc_conc self))) 0 = Some c0 /\
             (c0 =? 0)%float = true.
Proof.
  split; [reflexivity|].
  apply (calc_conc_spec (Reaction_init [0; 5; 10]%float [100; 150; 180]%float 50 10)
           100%float [150; 180]%float); reflexivity.
Defined.

(** C1, as stated, fails: with a specific activity of zero the first
    concentration is [0 / 0], a NaN, which is not equal to zero. *)
Lemma calc_conc_zero_sa_counterexample :
  let self := Reaction_init [0]%float [100]%float 0 10 in
  cpm_array self <> [] /\
  snd (calc_conc self) = Ok tt /\
  nth_error (conc_array (fst (calc_conc self))) 0 = Some nan /\
  (nan =? 0)%float = false.
Proof.
  repeat split. discriminate.
Qed.

(** *** Monotonicity *)

Import FloatFacts Rounding.

Lemma finite_is_not_nan x : is_finite x = true -> sf_nan (Prim2SF x) = false.
Proof. rewrite is_finite_spec. apply finite_not_nan. Qed.

Lemma nondecreasing_sorted l :
  forallb is_finite l = true -> nondecreasing l = true ->
  StronglySorted units_le l.
Proof.
  induction l as [|a t IH]; intros F S; [constructor|].
  cbn [forallb] in F. apply andb_true_iff in F. destruct F as [Fa Ft].
  destruct t as [|b t'].
  - constructor; constructor.
  - cbn [nondecreasing] in S. apply andb_true_iff in S. destruct S as [Sab St].
    specialize (IH Ft St). constructor; [exact IH|].
    cbn [forallb] in Ft. apply andb_true_iff in Ft. destruct Ft as [Fb _].
    rewrite leb_units in Sab by now apply finite_is_not_nan.
    apply Z.leb_le in Sab.
    constructor; [exact Sab|].
    inversion IH as [|? ? _ Hb]; subst.
    eapply Forall_impl; [|exact Hb].
    intros c Hc. unfold units_le in *. lia.
Qed.

Lemma sorted_nth (l : list float) : forall i j a b,
  StronglySorted units_le l -> (i <= j)%nat ->
  nth_error l i = Some a -> nth_error l j = Some b -> units_le a b.
Proof.
  induction l as [|x t IH]; intros i j a b S Hij Hi Hj.
  - destruct i; discriminate.
  - inversion S as [|? ? St Hx]; subst.
    destruct i as [|i]; destruct j as [|j]; cbn [nth_error] in Hi, Hj.
    + injection Hi as <-. injection Hj as <-. unfold units_le. lia.
    + injection Hi as <-. rewrite Forall_forall in Hx.
      apply Hx. eapply nth_error_In. exact Hj.
    + lia.
    + apply (IH i j); try assumption. lia.
Qed.

Lemma forallb_nth (l : list float) i a :
  forallb is_finite l = true -> nth_error l i = Some a -> is_finite a = true.
Proof.
  intros F H. rewrite forallb_forall in F. apply F. eapply nth_error_In. exact H.
Qed.

Lemma adjacent_nondecreasing (l : list float) :
  (forall i x y, nth_error l i = Some x -> nth_error l (S i) = Some y ->
                 (x <=? y)%float = true) ->
  nondecreasing l = true.
Proof.
  induction l as [|a t IH]; intros H; [reflexivity|].
  destruct t as [|b t']; [reflexivity|].
  cbn [nondecreasing]. apply andb_true_iff. split.
  - apply (H 0%nat a b); reflexivity.
  - apply IH. intros i x y Hx Hy. apply (H (S i) x y); assumption.
Qed.

(** C7.  For a reaction whose numbers are finite with a positive
    specific activity and a positive amino-acid concentration, a
    non-decreasing [cpm_array] gives a non-decreasing [conc_array]. *)
Theorem calc_conc_monotone (self : Reaction) (cpm0 : float) (rest : list float) :
  cpm_array self = cpm0 :: rest ->
  forallb is_finite (cpm_array self) = true ->
  is_finite (sa self) = true -> (0 <? sa self)%float = true ->
  is_finite (aa_conc self) = true -> (0 <? aa_conc self)%float = true ->
  nondecreasing (cpm_array self) = true ->
  let conc := conc_array (fst (calc_conc self)) in
  snd (calc_conc self) = Ok tt /\
  nondecreasing conc = true /\
  (forall i j x y, (i <= j)%nat ->
     nth_error conc i = Some x -> nth_error conc j = Some y ->
     (x <=? y)%float = true).
Proof.
  intros E F Fs Ps Fa Pa Hnd.
  rewrite (calc_conc_ok self cpm0 rest E). cbn [fst snd conc_array set_conc_array].
  rewrite map_map. fold (conc_of cpm0 (sa self) (aa_conc self)).
  set (g := conc_of cpm0 (sa self) (aa_conc self)).
  assert (F0 : is_finite cpm0 = true).
  { apply (forallb_nth (cpm_array self) 0); [assumption|now rewrite E]. }
  pose proof (nondecreasing_sorted _ F Hnd) as SS.
  assert (P : forall i j x y, (i <= j)%nat ->
            nth_error (map g (cpm_array self)) i = Some x ->
            nth_error (map g (cpm_array self)) j = Some y ->
            (x <=? y)%float = true).
  { intros i j x y Hij Hx Hy. rewrite nth_error_map in Hx, Hy.
    destruct (nth_error (cpm_array self) i) as [a|] eqn:Ea; [|discriminate].
    destruct (nth_error (cpm_array self) j) as [b|] eqn:Eb; [|discriminate].
    injection Hx as <-. injection Hy as <-.
    pose proof (sorted_nth _ i j a b SS Hij Ea Eb) as Hab.
    destruct (conc_of_mono cpm0 (sa self) (aa_conc self) a b F0 Fs Ps Fa Pa
                (forallb_nth _ i a F Ea) (forallb_nth _ j b F Eb) Hab)
      as (N1 & N2 & L).
    rewrite is_nan_spec in N1, N2. unfold g. rewrite leb_units by assumption.
    now apply Z.leb_le. }
  split; [reflexivity|]. split; [|exact P].
  apply adjacent_nondecreasing. intros i x y Hx Hy.
  apply (P i (S i) x y); [lia|assumption|assumption].
Qed.

Lemma calc_conc_monotone_witness :
  let self := Reaction_init [0; 5; 10]%float [100; 150; 180]%float 50 10 in
  conc_array (fst (calc_conc self)) = [0; 10; 16]%float /\
  nondecreasing (conc_array (fst (calc_conc self))) = true.
Proof.
  split; [reflexivity|].
  apply (calc_conc_monotone
           (Reaction_init [0; 5; 10]%float [100; 150; 180]%float 50 10)
           100%float [150; 180]%float); reflexivity.
Defined.


(** ** The Record Parser *)

(** C3. On the five lines [conc 10.0], [0.0 100.0], [5.0 150.0],
    [10.0 180.0], [sa 50.0], [read_data] returns exactly one [Reaction], with
    times [0, 5, 10], raw CPM [100, 150, 180], specific activity [50] and
    amino-acid concentration [10]. *)
Theorem read_data_example :
  read_data example_file
  = Ok [{| cpm_array := [100; 150; 180]%float;
           time_array := [0; 5; 10]%float;
           sa := 50;
           pars := PyInt 0;
           r2 := PyInt 0;
           normalized_cpm_array := [];
           aa_conc := 10;
           conc_array := [] |}] /\
  exists r,
    read_data example_file = Ok [r] /\
    time_array r = [0; 5; 10]%float /\
    cpm_array r = [100; 150; 180]%float /\
    sa r = 50%float /\ aa_conc r = 10%float.
Proof.
  assert (E : read_data example_file
              = Ok [{| cpm_array := [100; 150; 180]%float;
                       time_array := [0; 5; 10]%float;
                       sa := 50;
                       pars := PyInt 0;
                       r2 := PyInt 0;
                       normalized_cpm_array := [];
                       aa_conc := 10;
                       conc_array := [] |}])
    by (vm_compute; reflexivity).
  split; [exact E|].
  eexists. split; [exact E|]. repeat split.
Qed.

Lemma read_lines_app l a b :
  read_lines l (a ++ b) = (l' <- read_lines l a ;; read_lines l' b).
Proof.
  revert l. induction a as [|x a IH]; intros l; cbn; [reflexivity|].
  destruct (read_line l x); cbn; [apply IH|reflexivity].
Qed.

Lemma read_line_conc l line c :
  keyword_line "conc" line c ->
  read_line l line = Ok (mkLocals (l_rxns l) c (Some []) (Some [])).
Proof.
  intros (tok & rest & E & F). unfold read_line. rewrite E. cbn. rewrite F.
  reflexivity.
Qed.

Lemma read_line_sa rxns aa ta ca line v :
  keyword_line "sa" line v ->
  read_line (mkLocals rxns aa (Some ta) (Some ca)) line
  = Ok (mkLocals (rxns ++ [Reaction_init ta ca v aa]) aa (Some ta) (Some ca)).
Proof.
  intros (tok & rest & E & F). unfold read_line. rewrite E. cbn.
  rewrite F. reflexivity.
Qed.

Lemma read_line_data rxns aa ta ca line tc :
  data_line line tc ->
  read_line (mkLocals rxns aa (Some ta) (Some ca)) line
  = Ok (mkLocals rxns aa (Some (ta ++ [fst tc])) (Some (ca ++ [snd tc]))).
Proof.
  intros (t0 & t1 & rest & E & N1 & N2 & F0 & F1).
  unfold read_line. rewrite E. cbn.
  apply String.eqb_neq in N1, N2. rewrite N1, N2, F0, F1. reflexivity.
Qed.

Lemma read_lines_data rxns aa lines data ta ca :
  Forall2 data_line lines data ->
  read_lines (mkLocals rxns aa (Some ta) (Some ca)) lines
  = Ok (mkLocals rxns aa (Some (ta ++ map fst data)) (Some (ca ++ map snd data))).
Proof.
  intros H. revert ta ca.
  induction H as [|line tc lines data Hl _ IH]; intros ta ca; cbn.
  - now rewrite !app_nil_r.
  - rewrite (read_line_data rxns aa ta ca line tc Hl). cbn.
    rewrite IH, <- !app_assoc. reflexivity.
Qed.

(** C4. The buffers are not reset by an [sa] line.  After any lines that
    parse, a block [conc c], data lines, [sa s] followed at once by a second
    line [sa v] appends two reactions: the second has the times and the raw
    CPM of the first, specific activity [v] and the same amino-acid
    concentration [c].  These are the reactions returned when the file ends
    there, and the buffers are still there for the lines that follow. *)
Theorem read_data_second_sa
    (pre dl : list string) (lc ls ls2 : string)
    (l0 : locals) (c s v : float) (data : list (float * float)) :
  read_lines read_init pre = Ok l0 ->
  keyword_line "conc" lc c ->
  Forall2 data_line dl data ->
  keyword_line "sa" ls s ->
  keyword_line "sa" ls2 v ->
  let times := map fst data in
  let cpms := map snd data in
  let first := Reaction_init times cpms s c in
  let second := Reaction_init times cpms v c in
  time_array second = time_array first /\
  cpm_array second = cpm_array first /\
  sa second = v /\
  aa_conc second = aa_conc first /\
  read_data_lines (pre ++ lc :: dl ++ [ls; ls2])
  = Ok (l_rxns l0 ++ [first; second]) /\
  (forall post,
     read_lines read_init (pre ++ lc :: dl ++ ls :: ls2 :: post)
     = read_lines
         (mkLocals (l_rxns l0 ++ [first; second]) c (Some times) (Some cpms))
         post).
Proof.
  intros Hpre Hc Hd Hs Hv times cpms first second.
  assert (G : forall post,
     read_lines read_init (pre ++ lc :: dl ++ ls :: ls2 :: post)
     = read_lines
         (mkLocals (l_rxns l0 ++ [first; second]) c (Some times) (Some cpms))
         post).
  { intros post. rewrite read_lines_app, Hpre. cbn.
    rewrite (read_line_conc l0 lc c Hc). cbn.
    rewrite read_lines_app, (read_lines_data _ _ dl data [] [] Hd). cbn.
    rewrite (read_line_sa _ _ _ _ ls s Hs). cbn.
    rewrite (read_line_sa _ _ _ _ ls2 v Hv). cbn.
    rewrite <- app_assoc. reflexivity. }
  repeat split; try reflexivity; [|exact G].
  unfold read_data_lines. rewrite (G []). reflexivity.
Qed.

Lemma read_data_second_sa_witness :
  read_data (example_file ++ "sa 7" ++ newline)
  = Ok [Reaction_init [0; 5; 10]%float [100; 150; 180]%float 50 10;
        Reaction_init [0; 5; 10]%float [100; 150; 180]%float 7 10].
Proof.
  unfold read_data.
  change (Text.readlines (example_file ++ "sa 7" ++ newline))
    with ([] ++ ("conc 10.0" ++ newline)%string
             :: [("0.0 100.0" ++ newline)%string; ("5.0 150.0" ++ newline)%string;
                 ("10.0 180.0" ++ newline)%string]
             ++ [("sa 50.0" ++ newline)%string; ("sa 7" ++ newline)%string]).
  apply (read_data_second_sa [] _ _ _ _ read_init 10 50 7
           [(0, 100); (5, 150); (10, 180)]%float).
  - reflexivity.
  - exists "10.0", []. split; reflexivity.
  - repeat constructor.
    + exists "0.0", "100.0", []. repeat split; discriminate.
    + exists "5.0", "150.0", []. repeat split; discriminate.
    + exists "10.0", "180.0", []. repeat split; discriminate.
  - exists "50.0", []. split; reflexivity.
  - exists "7", []. split; reflexivity.
Defined.

(** *** An [sa] line and the buffers *)

(** Before any [conc] line, a line that is not a [conc] line raises. *)
Lemma read_line_unbound l line :
  unbound l -> first_token line <> Some "conc" ->
  read_line l line = Raise (unbound_error line).
Proof.
  intros (_ & Ht & Hc) Hn. unfold read_line, first_token, unbound_error in *.
  destruct (Text.split line) as [|t0 [|t1 rest]]; cbn; [reflexivity..|].
  cbn in Hn. destruct (String.eqb_spec t0 "conc") as [->|_]; [congruence|].
  rewrite Ht. destruct (t0 =? "sa")%string; reflexivity.
Qed.

Lemma read_lines_unbound l pre line post :
  unbound l ->
  Forall (fun x => first_token x <> Some "conc") pre ->
  first_token line <> Some "conc" ->
  read_lines l (pre ++ line :: post) = Raise (unbound_error (hd line pre)).
Proof.
  intros Hl Hpre Hline.
  destruct pre as [|x pre]; cbn.
  - now rewrite (read_line_unbound l line Hl Hline).
  - inversion Hpre as [|? ? Hx _]; subst.
    now rewrite (read_line_unbound l x Hl Hx).
Qed.

(** C5, as amended.  When an [sa] line comes with no [conc] line before
    it, [read_data] raises and returns no reaction, and the first line of
    the file tells the error: [IndexError] when it has fewer than two
    tokens, [UnboundLocalError], for the unbound buffers, when it has two or
    more.  So a file that starts with an [sa] line of two tokens or more
    raises [UnboundLocalError].  An [sa] line right after a [conc] line does
    not fail: it appends a reaction with no times and no counts. *)
Theorem read_data_sa_without_conc :
  (forall pre line post,
     Forall (fun x => first_token x <> Some "conc") pre ->
     first_token line = Some "sa" ->
     ((List.length (Text.split (hd line pre)) < 2)%nat ->
      read_data_lines (pre ++ line :: post) = Raise IndexError) /\
     ((2 <= List.length (Text.split (hd line pre)))%nat ->
      read_data_lines (pre ++ line :: post) = Raise UnboundLocalError)) /\
  (forall line tok rest post,
     Text.split line = "sa" :: tok :: rest ->
     read_data_lines (line :: post) = Raise UnboundLocalError) /\
  (forall pre l0 lc c ls s post,
     read_lines read_init pre = Ok l0 ->
     keyword_line "conc" lc c -> keyword_line "sa" ls s ->
     read_lines read_init (pre ++ lc :: ls :: post)
     = read_lines
         (mkLocals
            (l_rxns l0
             ++ [{| cpm_array := []; time_array := []; sa := s;
                    pars := PyInt 0; r2 := PyInt 0;
                    normalized_cpm_array := []; aa_conc := c;
                    conc_array := [] |}])
            c (Some []) (Some []))
         post).
Proof.
  split; [|split].
  - intros pre line post Hpre Hline. unfold read_data_lines.
    rewrite (read_lines_unbound read_init pre line post);
      [|repeat split|assumption|rewrite Hline; discriminate].
    unfold unbound_error. cbn [bind].
    split; intros H.
    + apply Nat.ltb_lt in H. now rewrite H.
    + apply Nat.ltb_ge in H. now rewrite H.
  - intros line tok rest post E. unfold read_data_lines. cbn.
    unfold read_line. rewrite E. reflexivity.
  - intros pre l0 lc c ls s post Hpre Hc Hs.
    rewrite read_lines_app, Hpre. cbn.
    rewrite (read_line_conc l0 lc c Hc). cbn.
    rewrite (read_line_sa _ _ _ _ ls s Hs). reflexivity.
Qed.

Lemma read_data_sa_without_conc_witness :
  read_data ("sa 50.0" ++ newline) = Raise UnboundLocalError /\
  read_data_lines ["abc def"; "sa 50.0"] = Raise UnboundLocalError /\
  read_data_lines ["0.0"; "sa 50.0"] = Raise IndexError /\
  read_data_lines ["sa"] = Raise IndexError /\
  read_data ("conc 10.0" ++ newline ++ "sa 50.0" ++ newline)
  = Ok [{| cpm_array := []; time_array := []; sa := 50;
           pars := PyInt 0; r2 := PyInt 0;
           normalized_cpm_array := []; aa_conc := 10;
           conc_array := [] |}].
Proof.
  destruct read_data_sa_without_conc as (H1 & H2 & H3).
  split; [|split; [|split; [|split]]].
  - apply (H2 ("sa 50.0" ++ newline)%string "50.0" [] []). reflexivity.
  - apply (H1 ["abc def"] "sa 50.0" []).
    + repeat constructor. discriminate.
    + reflexivity.
    + cbn. lia.
  - apply (H1 ["0.0"] "sa 50.0" []).
    + repeat constructor. discriminate.
    + reflexivity.
    + cbn. lia.
  - apply (H1 [] "sa" []).
    + constructor.
    + reflexivity.
    + cbn. lia.
  - unfold read_data, read_data_lines.
    change (Text.readlines ("conc 10.0" ++ newline ++ "sa 50.0" ++ newline))
      with ([] ++ ("conc 10.0" ++ newline)%string
               :: ("sa 50.0" ++ newline)%string :: []).
    rewrite (H3 [] read_init _ 10%float _ 50%float []).
    + reflexivity.
    + reflexivity.
    + exists "10.0", []. split; reflexivity.
    + exists "50.0", []. split; reflexivity.
Defined.

(** C5, as stated, fails: an [sa] line with no data line before it, after a
    [conc] line, makes a reaction with empty arrays and no error. *)
Lemma read_data_sa_without_data_counterexample :
  let text := ("conc 10.0" ++ newline ++ "sa 50.0" ++ newline)%string in
  Text.readlines text
  = [("conc 10.0" ++ newline)%string; ("sa 50.0" ++ newline)%string] /\
  read_data text
  = Ok [{| cpm_array := []; time_array := []; sa := 50;
           pars := PyInt 0; r2 := PyInt 0;
           normalized_cpm_array := []; aa_conc := 10;
           conc_array := [] |}].
Proof. split; reflexivity. Qed.

(** *** Tokens beyond the second *)

Lemma nospace_rev cs : nospace (rev cs) = nospace cs.
Proof.
  unfold nospace. induction cs as [|c cs IH]; cbn; [reflexivity|].
  rewrite forallb_app, IH. cbn. rewrite andb_true_r. apply andb_comm.
Qed.

Lemma token_of_rev cur :
  cur <> [] -> nospace cur = true -> token (string_of_list_ascii (rev cur)).
Proof.
  intros Hne Hns. split.
  - intros E. apply (f_equal list_ascii_of_string) in E.
    rewrite list_ascii_of_string_of_list_ascii in E. cbn in E.
    apply (f_equal (@rev ascii)) in E. rewrite rev_involutive in E.
    now apply Hne.
  - now rewrite list_ascii_of_string_of_list_ascii, nospace_rev.
Qed.

(** Every string that [split] returns is a token. *)
Lemma split_from_tokens s : forall cur,
  nospace cur = true -> Forall token (Text.split_from s cur).
Proof.
  induction s as [|c s IH]; intros cur Hcur; cbn.
  - destruct cur as [|a cur]; constructor; [|constructor].
    now apply token_of_rev.
  - destruct (Text.isspace c) eqn:Ec.
    + destruct cur as [|a cur]; [now apply IH|].
      constructor; [now apply token_of_rev|now apply IH].
    + apply IH. cbn. now rewrite Ec.
Qed.

Lemma split_from_app_nospace t : forall s cur,
  nospace (list_ascii_of_string t) = true ->
  Text.split_from (t ++ s) cur
  = Text.split_from s (rev (list_ascii_of_string t) ++ cur).
Proof.
  induction t as [|c t IH]; intros s cur H; cbn in *; [reflexivity|].
  apply andb_true_iff in H. destruct H as [Hc Ht].
  apply negb_true_iff in Hc. rewrite Hc, (IH _ _ Ht), <- app_assoc.
  reflexivity.
Qed.

Lemma rev_token_chars t :
  token t ->
  exists a cs, rev (list_ascii_of_string t) ++ [] = a :: cs /\
               string_of_list_ascii (rev (a :: cs)) = t.
Proof.
  intros [Hne _]. rewrite app_nil_r.
  destruct (rev (list_ascii_of_string t)) as [|a cs] eqn:E.
  - apply (f_equal (@rev ascii)) in E. rewrite rev_involutive in E.
    apply (f_equal string_of_list_ascii) in E.
    rewrite string_of_list_ascii_of_string in E. now destruct Hne.
  - exists a, cs. split; [reflexivity|].
    rewrite <- E, rev_involutive. apply string_of_list_ascii_of_string.
Qed.

Lemma append_empty_r (t : string) : (t ++ "")%string = t.
Proof. induction t as [|c t IH]; cbn; [reflexivity|now rewrite IH]. Qed.

(** Two tokens with one blank in between split into themselves. *)
Lemma split_two_tokens t0 t1 :
  token t0 -> token t1 -> Text.split (t0 ++ " " ++ t1) = [t0; t1].
Proof.
  intros H0 H1. unfold Text.split.
  rewrite (split_from_app_nospace t0) by apply H0.
  destruct (rev_token_chars t0 H0) as (a0 & cs0 & E0 & F0). rewrite E0.
  cbn [append Text.split_from Text.isspace]. cbn - [Text.split_from rev].
  rewrite F0. f_equal.
  rewrite <- (append_empty_r t1) at 1.
  rewrite (split_from_app_nospace t1) by apply H1.
  destruct (rev_token_chars t1 H1) as (a1 & cs1 & E1 & F1). rewrite E1.
  cbn [Text.split_from]. now rewrite F1.
Qed.

(** [read_line] reads the first two tokens of the line and nothing else. *)
Lemma read_line_two_tokens l line line' t0 t1 rest rest' :
  Text.split line = t0 :: t1 :: rest ->
  Text.split line' = t0 :: t1 :: rest' ->
  read_line l line = read_line l line'.
Proof.
  intros E E'. unfold read_line. rewrite E, E'. reflexivity.
Qed.

(** C9. A line of two tokens or more whose first token is neither
    [conc] nor [sa] is read through its first two tokens only: with the line
    cut down to these two tokens, anywhere in the file, [read_data] returns
    the same reactions or raises the same error. *)
Theorem read_data_ignores_extra_tokens
    (pre post : list string) (line t0 t1 : string) (rest : list string) :
  Text.split line = t0 :: t1 :: rest ->
  t0 <> "conc" -> t0 <> "sa" ->
  Text.split (t0 ++ " " ++ t1) = [t0; t1] /\
  read_data_lines (pre ++ line :: post)
  = read_data_lines (pre ++ (t0 ++ " " ++ t1)%string :: post).
Proof.
  intros E _ _.
  assert (T : Forall token (Text.split line)).
  { apply split_from_tokens. reflexivity. }
  rewrite E in T. inversion T as [|? ? T0 T']; subst.
  inversion T' as [|? ? T1 _]; subst.
  pose proof (split_two_tokens t0 t1 T0 T1) as S2.
  split; [exact S2|].
  unfold read_data_lines. rewrite !read_lines_app.
  destruct (read_lines read_init pre) as [l|e]; cbn; [|reflexivity].
  now rewrite (read_line_two_tokens l line (t0 ++ " " ++ t1) t0 t1 rest [] E S2).
Qed.

Lemma read_data_ignores_extra_tokens_witness :
  read_data_lines ["conc 10.0"; "0.0 100.0 # blank"; "sa 50.0"]
  = read_data_lines ["conc 10.0"; "0.0 100.0"; "sa 50.0"] /\
  read_data_lines ["conc 10.0"; "0.0 100.0"; "sa 50.0"]
  = Ok [Reaction_init [0]%float [100]%float 50 10].
Proof.
  split; [|reflexivity].
  apply (read_data_ignores_extra_tokens
           ["conc 10.0"] ["sa 50.0"] "0.0 100.0 # blank" "0.0" "100.0"
           ["#"; "blank"]); [reflexivity|discriminate|discriminate].
Defined.

(** ** The Replicate Aggregator *)

Lemma map_nth_seq {A B} (f : A -> B) (d : A) (l : list A) :
  map (fun j => f (nth j l d)) (seq 0 (List.length l)) = map f l.
Proof.
  rewrite <- (map_map (fun j => nth j l d) f). f_equal.
  apply nth_ext with (d := d) (d' := d).
  - now rewrite length_map, length_seq.
  - intros n Hn. rewrite length_map, length_seq in Hn.
    rewrite (nth_indep _ d (nth 0 l d))
      by now rewrite length_map, length_seq.
    rewrite (map_nth (fun j => nth j l d) (seq 0 (List.length l)) 0 n).
    now rewrite seq_nth.
Qed.

Lemma reshape_ragged rows m n :
  forallb (fun r => Nat.eqb (List.length r) (Np.row_length rows)) rows = false ->
  Np.reshape rows m n = Raise (ValueError by_np_reshape).
Proof. intros H. unfold Np.reshape. now rewrite H. Qed.

Lemma reshape_single row :
  Np.reshape [row] 1 (List.length row) = Ok [row].
Proof.
  unfold Np.reshape. cbn. rewrite Nat.eqb_refl. cbn.
  rewrite !Nat.add_0_r, Nat.eqb_refl, app_nil_r, firstn_all. reflexivity.
Qed.

(** *** The two sums of NumPy *)

Lemma add_negzero_l x : (-0 + x)%float = x.
Proof.
  apply Prim2SF_inj. rewrite add_spec.
  change (Prim2SF (-0)%float) with (S754_zero true).
  destruct (Prim2SF x) as [s|s| |s m e]; try reflexivity.
  destruct s; reflexivity.
Qed.

(** Rounding a number that is not zero does not give a zero. *)
Lemma binary_round_not_zero s m e :
  (-1074 <= e)%Z -> sf_zero (binary_round prec emax s m e) = false.
Proof.
  intros He. destruct (units_binary_round s m e He) as [_ U].
  assert (R : round_quotient 1 1 = 1%Z)
    by exact (round_quotient_representable 1 (-1074) eq_refl).
  assert (P : (0 < 2 ^ (e + 1074))%Z) by (apply Z.pow_pos_nonneg; lia).
  pose proof (round_quotient_mono 1 (Z.pos m * 2 ^ (e + 1074)) 1
                ltac:(lia) ltac:(nia)) as M.
  destruct (binary_round prec emax s m e); try reflexivity.
  cbn [sf_units] in U. destruct s; cbn [cond_Zopp] in U; lia.
Qed.

(** A sum is [-0] only when both terms are. *)
Lemma add_negzero_only x y :
  Prim2SF (x + y)%float = S754_zero true ->
  Prim2SF x = S754_zero true /\ Prim2SF y = S754_zero true.
Proof.
  rewrite add_spec. pose proof (Prim2SF_valid x) as Vx.
  pose proof (Prim2SF_valid y) as Vy.
  destruct (Prim2SF x) as [sx|sx| |sx mx ex];
    destruct (Prim2SF y) as [sy|sy| |sy my ey]; cbn [SF64add SFadd];
    try (destruct sx; destruct sy; discriminate);
    try (destruct sx; discriminate); try (destruct sy; discriminate);
    try discriminate.
  - destruct sx, sy; try discriminate. now split.
  - intros H. exfalso.
    destruct (bounded_facts mx ex Vx) as (Hx & _).
    destruct (bounded_facts my ey Vy) as (Hy & _).
    unfold binary_normalize in H.
    match type of H with
    | match ?z with _ => _ end = _ => destruct z as [|p|p]
    end; [discriminate| |];
      match type of H with
      | binary_round prec emax ?s ?p ?e = _ =>
          pose proof (binary_round_not_zero s p e ltac:(lia)) as N;
          rewrite H in N; discriminate
      end.
Qed.

(** Adding from [-0.0] and then to [0.0] is adding from [0.0]. *)
Lemma sum_from_negzero col : forall acc acc',
  (0 + acc')%float = acc ->
  (0 + fold_left PrimFloat.add col acc')%float = fold_left PrimFloat.add col acc.
Proof.
  induction col as [|x col IH]; intros acc acc' H; [exact H|].
  cbn [fold_left]. apply IH.
  destruct (add_zero_l acc') as [E|[E1 E2]].
  - rewrite E in H. subst acc'.
    destruct (add_zero_l (acc + x)) as [E'|[E1' _]]; [exact E'|].
    exfalso. destruct (add_negzero_only acc x E1') as [Za _].
    assert (F : Prim2SF (0 + acc)%float = S754_zero false)
      by (rewrite add_spec, Za; reflexivity).
    rewrite E, Za in F. discriminate.
  - assert (acc' = (-0)%float) by (apply Prim2SF_inj; rewrite E1; reflexivity).
    subst acc'. rewrite add_negzero_l. rewrite <- H. reflexivity.
Qed.

Lemma pairwise_sum_small fuel a :
  (List.length a < 8)%nat ->
  Np.pairwise_sum fuel a = fold_left PrimFloat.add a (-0)%float.
Proof.
  intros H. apply Nat.ltb_lt in H. destruct fuel; cbn [Np.pairwise_sum];
    now rewrite H.
Qed.

(** Fewer than eight numbers are added in order whatever the matrix. *)
Lemma sum_small b col :
  (List.length col < 8)%nat -> Np.sum b col = fold_left PrimFloat.add col 0%float.
Proof.
  intros H. destruct b; [|reflexivity]. unfold Np.sum.
  rewrite (pairwise_sum_small _ col H). now apply sum_from_negzero.
Qed.

(** The depth of the pairwise sum: any fuel from the length on gives the
    same sum. *)
Lemma pairwise_sum_fuel f1 : forall f2 a,
  (List.length a <= f1)%nat -> (List.length a <= f2)%nat ->
  Np.pairwise_sum f1 a = Np.pairwise_sum f2 a.
Proof.
  induction f1 as [|f1 IH]; intros f2 a H1 H2.
  - rewrite !pairwise_sum_small by lia. reflexivity.
  - destruct f2 as [|f2]; [rewrite !pairwise_sum_small by lia; reflexivity|].
    cbn [Np.pairwise_sum].
    destruct (Nat.ltb_spec (List.length a) 8); [reflexivity|].
    destruct (Nat.leb_spec (List.length a) 128); [reflexivity|].
    set (n := List.length a) in *.
    assert (D : (57 <= n / 2 - (n / 2) mod 8 <= n / 2)%nat).
    { pose proof (Nat.mod_upper_bound (n / 2) 8 ltac:(lia)).
      assert (64 <= n / 2)%nat by (apply Nat.div_le_lower_bound; lia). lia. }
    assert (Hlt : (n / 2 < n)%nat) by (apply Nat.div_lt; lia).
    f_equal; apply IH; rewrite ?length_firstn, ?length_skipn; fold n; lia.
Qed.

(** *** One reaction *)

Lemma mean_one b c : Np.mean b [c] = mean1 c.
Proof. unfold Np.mean. now rewrite sum_small by (cbn; lia). Qed.

Lemma std_one b c : Np.std b [c] = std1 c.
Proof.
  unfold Np.std. rewrite mean_one. cbn [map].
  now rewrite sum_small by (cbn; lia).
Qed.

Lemma aggregate_one r :
  converted r ->
  aggregate [r] = Ok (map mean1 (conc_array r), map std1 (conc_array r)).
Proof.
  intros H. unfold aggregate. cbn [getitem nth_error bind map List.length].
  rewrite <- H, reshape_single. cbn [bind].
  unfold Np.average_axis0, Np.std_axis0, Np.column. cbn [map].
  set (b := Nat.eqb _ 1).
  rewrite (map_nth_seq (fun c => Np.mean b [c]) nan (conc_array r)).
  rewrite (map_nth_seq (fun c => Np.std b [c]) nan (conc_array r)).
  f_equal. f_equal; apply map_ext; intros c; [apply mean_one|apply std_one].
Qed.

Lemma mean1_eq c : mean1 c = (0 + c)%float.
Proof. apply FloatFacts.div_one. Qed.

Lemma std1_finite c : is_finite c = true -> std1 c = 0%float.
Proof.
  intros H. unfold std1. rewrite mean1_eq.
  rewrite (FloatFacts.mul_zero_zero _ (FloatFacts.sub_add_zero c H)).
  reflexivity.
Qed.

(** C6, as amended.  When the reactions, each with as many
    concentrations as times, do not all have the same number of times, the
    aggregation raises the [ValueError] of [np.reshape]: the rows make no
    matrix.  Nothing checks the lengths before the reshape, and no mean is
    taken. *)
Theorem aggregate_shape_mismatch (rxns : list Reaction) (r1 r2 : Reaction) :
  Forall converted rxns ->
  In r1 rxns -> In r2 rxns ->
  List.length (time_array r1) <> List.length (time_array r2) ->
  aggregate rxns = Raise (ValueError by_np_reshape).
Proof.
  intros Hc H1 H2 Hne. unfold aggregate.
  destruct rxns as [|rxn0 rxns']; [contradiction|].
  cbn [getitem nth_error bind]. rewrite reshape_ragged; [reflexivity|].
  destruct (forallb _ _) eqn:F; [|reflexivity]. exfalso.
  rewrite forallb_forall in F.
  assert (L : forall r, In r (rxn0 :: rxns') ->
                List.length (time_array r)
                = Np.row_length (map conc_array (rxn0 :: rxns'))).
  { intros r Hr. rewrite Forall_forall in Hc. rewrite <- (Hc r Hr).
    apply Nat.eqb_eq, F, in_map, Hr. }
  apply Hne. now rewrite (L r1 H1), (L r2 H2).
Qed.

Lemma aggregate_shape_mismatch_witness :
  aggregate [three_points; two_points] = Raise (ValueError by_np_reshape).
Proof.
  apply (aggregate_shape_mismatch [three_points; two_points]
           three_points two_points).
  - repeat constructor.
  - now left.
  - now right; left.
  - cbn. discriminate.
Defined.

(** C6, as stated, fails: the error of two reactions with three and two
    time points is the one [np.reshape] raises on the rows, so the reshape is
    attempted, and no check comes before it. *)
Lemma aggregate_no_validation_counterexample :
  Forall converted [three_points; two_points] /\
  List.length (time_array three_points) <> List.length (time_array two_points) /\
  Np.reshape (map conc_array [three_points; two_points]) 2 3
  = Raise (ValueError by_np_reshape) /\
  aggregate [three_points; two_points] = Raise (ValueError by_np_reshape).
Proof.
  split; [repeat constructor|]. split; [cbn; discriminate|].
  split; reflexivity.
Qed.

(** *** Any number of reactions *)

Lemma chunks_concat (rows : list (list float)) n :
  Forall (fun r => List.length r = n) rows ->
  Np.chunks (List.length rows) n (List.concat rows) = rows.
Proof.
  induction rows as [|r rows IH]; intros H; [reflexivity|].
  inversion H as [|? ? Hr Hrows]; subst. cbn [List.length List.concat Np.chunks].
  rewrite firstn_app, firstn_all, Nat.sub_diag, firstn_0, app_nil_r.
  rewrite skipn_app, skipn_all, Nat.sub_diag. cbn [skipn app].
  now rewrite (IH Hrows).
Qed.

Lemma uniform_map n rxns :
  forallb (fun r => Nat.eqb (List.length r) n) (map conc_array rxns)
  = uniform n rxns.
Proof.
  induction rxns as [|r rxns IH]; [reflexivity|].
  cbn. now rewrite IH.
Qed.

Lemma not_uniform n rxns :
  uniform n rxns = false ->
  Exists (fun r => List.length (conc_array r) <> n) rxns.
Proof.
  induction rxns as [|r rxns IH]; cbn; [discriminate|].
  destruct (Nat.eqb_spec (List.length (conc_array r)) n) as [E|E]; cbn.
  - intros H. right. now apply IH.
  - intros _. now left.
Qed.

Lemma uniform_rows n rxns :
  uniform n rxns = true ->
  Forall (fun r => List.length r = n) (map conc_array rxns).
Proof.
  unfold uniform. rewrite forallb_forall, Forall_forall.
  intros H r Hr. apply in_map_iff in Hr. destruct Hr as (x & <- & Hx).
  now apply Nat.eqb_eq, H.
Qed.

(** The rows of equal length are the matrix. *)
Lemma reshape_uniform n rxn0 rest :
  uniform n (rxn0 :: rest) = true ->
  Np.reshape (map conc_array (rxn0 :: rest)) (List.length (rxn0 :: rest)) n
  = Ok (map conc_array (rxn0 :: rest)).
Proof.
  intros U. pose proof (uniform_rows _ _ U) as R.
  unfold Np.reshape.
  assert (L : Np.row_length (map conc_array (rxn0 :: rest)) = n).
  { cbn. inversion R; subst. reflexivity. }
  rewrite L, uniform_map, U, length_map, Nat.eqb_refl.
  rewrite <- (length_map conc_array (rxn0 :: rest)).
  now rewrite (chunks_concat _ n R).
Qed.

Lemma reshape_not_uniform n rxn0 rest :
  uniform n (rxn0 :: rest) = false ->
  Np.reshape (map conc_array (rxn0 :: rest)) (List.length (rxn0 :: rest)) n
  = Raise (ValueError by_np_reshape).
Proof.
  intros U. unfold Np.reshape.
  set (len := Np.row_length (map conc_array (rxn0 :: rest))).
  destruct (forallb _ _) eqn:F; [|reflexivity].
  destruct (Nat.eqb _ _) eqn:E; [|reflexivity]. exfalso.
  apply Nat.eqb_eq in E. rewrite length_map in E. cbn [List.length] in E.
  assert (len = n) by nia. subst n.
  rewrite uniform_map, U in F. discriminate.
Qed.

Lemma aggregate_uniform rxn0 rest :
  let rxns := rxn0 :: rest in
  let n := List.length (time_array rxn0) in
  uniform n rxns = true ->
  aggregate rxns
  = Ok (map (fun j => Np.mean (Nat.eqb n 1) (conc_column rxns j)) (seq 0 n),
        map (fun j => Np.std (Nat.eqb n 1) (conc_column rxns j)) (seq 0 n)).
Proof.
  intros rxns n U. subst rxns. unfold aggregate.
  change (getitem (rxn0 :: rest) 0) with (Ok rxn0). cbn [bind]. fold n.
  rewrite (reshape_uniform n rxn0 rest U). cbn [bind].
  unfold Np.average_axis0, Np.std_axis0, Np.column, conc_column.
  f_equal. f_equal; apply map_ext; intros j; now rewrite map_map.
Qed.

Lemma aggregate_not_uniform rxn0 rest :
  uniform (List.length (time_array rxn0)) (rxn0 :: rest) = false ->
  aggregate (rxn0 :: rest) = Raise (ValueError by_np_reshape).
Proof.
  intros U. unfold aggregate.
  change (getitem (rxn0 :: rest) 0) with (Ok rxn0). cbn [bind].
  now rewrite (reshape_not_uniform _ rxn0 rest U).
Qed.

Lemma aggregate_ok_uniform rxns ave std :
  aggregate rxns = Ok (ave, std) ->
  exists rxn0 rest, rxns = rxn0 :: rest /\
    uniform (List.length (time_array rxn0)) rxns = true.
Proof.
  intros H. destruct rxns as [|rxn0 rest]; [discriminate|].
  exists rxn0, rest. split; [reflexivity|].
  destruct (uniform _ _) eqn:U; [reflexivity|].
  rewrite (aggregate_not_uniform rxn0 rest U) in H. discriminate.
Qed.

Lemma conc_column_entries n rxns j :
  uniform n rxns = true -> (j < n)%nat ->
  Forall2 (fun r c => nth_error (conc_array r) j = Some c) rxns (conc_column rxns j).
Proof.
  intros U Hj. induction rxns as [|r rxns IH]; [constructor|].
  cbn in U. apply andb_true_iff in U. destruct U as [Ur U].
  apply Nat.eqb_eq in Ur. cbn. constructor; [|now apply IH].
  apply nth_error_nth'. lia.
Qed.

(** What the aggregation returns at time point [j]: the column of the
    concentrations, its mean and its standard deviation. *)
Lemma aggregate_at rxns ave std j :
  aggregate rxns = Ok (ave, std) -> (j < List.length ave)%nat ->
  exists col,
    Forall2 (fun r c => nth_error (conc_array r) j = Some c) rxns col /\
    nth_error ave j = Some (Np.mean (Nat.eqb (List.length ave) 1) col) /\
    nth_error std j = Some (Np.std (Nat.eqb (List.length ave) 1) col).
Proof.
  intros H Hj.
  destruct (aggregate_ok_uniform rxns ave std H) as (rxn0 & rest & -> & U).
  rewrite (aggregate_uniform rxn0 rest U) in H. injection H as <- <-.
  rewrite length_map, length_seq in *.
  exists (conc_column (rxn0 :: rest) j). split; [|split].
  - now apply (conc_column_entries (List.length (time_array rxn0))).
  - rewrite nth_error_map, nth_error_seq.
    destruct (Nat.ltb_spec j (List.length (time_array rxn0))); [|lia].
    reflexivity.
  - rewrite nth_error_map, nth_error_seq.
    destruct (Nat.ltb_spec j (List.length (time_array rxn0))); [|lia].
    reflexivity.
Qed.

(** C8, as amended.  The standard deviation is the population one: at every
    time point, whatever the number of reactions, it is the square root of
    the sum of the squares of the deviations from the mean divided by the
    number of reactions ([ddof = 0]), the mean being the sum of the column
    divided by the number of reactions.  With one converted reaction, the
    mean at index [i] is the concentration [c = conc_array[i]] itself (and
    [+0] for [c = -0]), so it is [== c] unless [c] is a NaN, and the
    standard deviation is [0] whenever [c] is finite. *)
Theorem aggregate_single :
  (forall rxns ave std,
     aggregate rxns = Ok (ave, std) ->
     forall j, (j < List.length ave)%nat ->
       exists col m s,
         Forall2 (fun r c => nth_error (conc_array r) j = Some c) rxns col /\
         nth_error ave j = Some m /\ nth_error std j = Some s /\
         m = (Np.sum (Nat.eqb (List.length ave) 1) col
              / Np.count (List.length rxns))%float /\
         s = PrimFloat.sqrt
               (Np.sum (Nat.eqb (List.length ave) 1)
                  (map (fun c => (c - m) * (c - m))%float col)
                / Np.count (List.length rxns - 0))%float) /\
  (forall r, converted r ->
   exists ave std,
    aggregate [r] = Ok (ave, std) /\
    forall i c, nth_error (conc_array r) i = Some c ->
      exists m s,
        nth_error ave i = Some m /\ nth_error std i = Some s /\
        s = PrimFloat.sqrt ((0 + (c - m) * (c - m)) / Np.count (1 - 0))%float /\
        (m = c \/ Prim2SF c = S754_zero true /\ m = 0%float) /\
        (is_nan c = false -> (m =? c)%float = true) /\
        (is_finite c = true -> (s =? 0)%float = true)).
Proof.
  split.
  - intros rxns ave std H j Hj.
    destruct (aggregate_at rxns ave std j H Hj) as (col & C & Ea & Es).
    exists col, (Np.mean (Nat.eqb (List.length ave) 1) col),
      (Np.std (Nat.eqb (List.length ave) 1) col).
    pose proof (Forall2_length C) as L.
    split; [exact C|]. split; [exact Ea|]. split; [exact Es|]. split.
    + unfold Np.mean. now rewrite L.
    + unfold Np.std, Np.ddof. now rewrite map_map, L.
  - intros r H. exists (map mean1 (conc_array r)), (map std1 (conc_array r)).
    split; [now apply aggregate_one|].
    intros i c Hi. exists (mean1 c), (std1 c).
    rewrite !nth_error_map, Hi. repeat split.
    + rewrite mean1_eq. apply FloatFacts.add_zero_l.
    + intros Hn. rewrite mean1_eq. now apply FloatFacts.add_zero_l_eqb.
    + intros Hf. now rewrite (std1_finite c Hf).
Qed.

Lemma aggregate_single_witness :
  aggregate [three_points]
  = Ok ([0; 10; 16]%float, [0; 0; 0]%float) /\
  aggregate [two_points; two_points_high]
  = Ok ([0; 20]%float, [0; 10]%float) /\
  (exists col m s,
     Forall2 (fun r c => nth_error (conc_array r) 1 = Some c)
       [two_points; two_points_high] col /\
     nth_error [0; 20]%float 1 = Some m /\
     nth_error [0; 10]%float 1 = Some s /\
     m = (Np.sum (Nat.eqb (List.length [0; 20]%float) 1) col
          / Np.count (List.length [two_points; two_points_high]))%float /\
     s = PrimFloat.sqrt
           (Np.sum (Nat.eqb (List.length [0; 20]%float) 1)
              (map (fun c => (c - m) * (c - m))%float col)
            / Np.count (List.length [two_points; two_points_high] - 0))%float) /\
  exists ave std,
    aggregate [three_points] = Ok (ave, std) /\
    forall i c, nth_error (conc_array three_points) i = Some c ->
      exists m s,
        nth_error ave i = Some m /\ nth_error std i = Some s /\
        s = PrimFloat.sqrt ((0 + (c - m) * (c - m)) / Np.count (1 - 0))%float /\
        (m = c \/ Prim2SF c = S754_zero true /\ m = 0%float) /\
        (is_nan c = false -> (m =? c)%float = true) /\
        (is_finite c = true -> (s =? 0)%float = true).
Proof.
  destruct aggregate_single as [G S].
  split; [reflexivity|]. split; [reflexivity|]. split.
  - apply (G [two_points; two_points_high] [0; 20]%float [0; 10]%float eq_refl
             1%nat).
    cbn. lia.
  - apply (S three_points). reflexivity.
Defined.

(** C8, as stated, fails: one reaction read with a specific activity of
    zero has a NaN concentration, and so a NaN standard deviation, which is
    not equal to zero. *)
Lemma aggregate_single_nan_counterexample :
  let r := fst (calc_conc (Reaction_init [1]%float [1]%float 0 1)) in
  read_data ("conc 1" ++ newline ++ "1 1" ++ newline ++ "sa 0" ++ newline)
  = Ok [Reaction_init [1]%float [1]%float 0 1] /\
  converted r /\
  aggregate [r] = Ok ([nan], [nan]) /\
  (nan =? 0)%float = false.
Proof. repeat split. Qed.

(** * Further properties of the program *)

(** ** The Record Parser, line by line *)

(** What a line that is read without error was, and what it did. *)
Lemma read_line_cases l line l' :
  read_line l line = Ok l' ->
  (exists c, keyword_line "conc" line c /\
             l' = mkLocals (l_rxns l) c (Some []) (Some [])) \/
  (exists v ta ca, keyword_line "sa" line v /\
             l_time_array l = Some ta /\ l_cpm_array l = Some ca /\
             l' = mkLocals (l_rxns l ++ [Reaction_init ta ca v (l_aa_conc l)])
                    (l_aa_conc l) (Some ta) (Some ca)) \/
  (exists tc ta ca, data_line line tc /\
             l_time_array l = Some ta /\ l_cpm_array l = Some ca /\
             l' = mkLocals (l_rxns l) (l_aa_conc l)
                    (Some (ta ++ [fst tc])) (Some (ca ++ [snd tc]))).
Proof.
  unfold read_line, keyword_line, data_line.
  destruct (Text.split line) as [|t0 [|t1 rest]] eqn:E; cbn; try discriminate.
  destruct (String.eqb_spec t0 "conc") as [->|N1].
  - destruct (float_of_str t1) as [c|] eqn:F; cbn; [|discriminate].
    intros H. injection H as <-. left. exists c. split; [|reflexivity].
    now exists t1, rest.
  - destruct (String.eqb_spec t0 "sa") as [->|N2].
    + destruct (l_time_array l) as [ta|]; cbn; [|discriminate].
      destruct (l_cpm_array l) as [ca|]; cbn; [|discriminate].
      destruct (float_of_str t1) as [v|] eqn:F; cbn; [|discriminate].
      intros H. injection H as <-. right. left. exists v, ta, ca.
      repeat split. now exists t1, rest.
    + destruct (l_time_array l) as [ta|]; cbn; [|discriminate].
      destruct (float_of_str t0) as [t|] eqn:F0; cbn; [|discriminate].
      destruct (l_cpm_array l) as [ca|]; cbn; [|discriminate].
      destruct (float_of_str t1) as [c|] eqn:F1; cbn; [|discriminate].
      intros H. injection H as <-. right. right. exists (t, c), ta, ca.
      repeat split. exists t0, t1, rest. repeat split; assumption.
Qed.

Lemma read_line_invariant l line l' :
  Forall as_read (l_rxns l) -> paired l -> read_line l line = Ok l' ->
  Forall as_read (l_rxns l') /\ paired l'.
Proof.
  intros HF HP H.
  destruct (read_line_cases l line l' H)
    as [(c & _ & ->)|[(v & ta & ca & _ & Et & Ec & ->)|(tc & ta & ca & _ & Et & Ec & ->)]];
    cbn.
  - split; [assumption|reflexivity].
  - unfold paired in HP. rewrite Et, Ec in HP. split; [|exact HP].
    apply Forall_app. split; [assumption|]. constructor; [|constructor].
    repeat split. exact HP.
  - unfold paired in HP. rewrite Et, Ec in HP. split; [assumption|].
    unfold paired. cbn. rewrite !length_app. cbn. lia.
Qed.

Lemma read_lines_invariant lines : forall l l',
  Forall as_read (l_rxns l) -> paired l -> read_lines l lines = Ok l' ->
  Forall as_read (l_rxns l') /\ paired l'.
Proof.
  induction lines as [|line lines IH]; intros l l' HF HP H; cbn in H.
  - injection H as <-. now split.
  - destruct (read_line l line) as [l1|e] eqn:E; cbn in H; [|discriminate].
    destruct (read_line_invariant l line l1 HF HP E) as [HF1 HP1].
    exact (IH l1 l' HF1 HP1 H).
Qed.

Lemma read_data_lines_as_read (lines : list string) (rxns : list Reaction) :
  read_data_lines lines = Ok rxns -> Forall as_read rxns.
Proof.
  unfold read_data_lines. intros H.
  destruct (read_lines read_init lines) as [l|e] eqn:E; cbn in H; [|discriminate].
  injection H as <-.
  apply (read_lines_invariant lines read_init l); [constructor|exact I|exact E].
Qed.

(** X1.  Every reaction [read_data] returns has as many times as counts,
    and is as [Reaction.__init__] leaves it: [pars] and [r2] are the integer
    [0], [normalized_cpm_array] and [conc_array] are empty. *)
Theorem read_data_reactions_as_read (text : string) (rxns : list Reaction) :
  read_data text = Ok rxns ->
  Forall (fun r =>
            List.length (time_array r) = List.length (cpm_array r) /\
            pars r = PyInt 0 /\ r2 r = PyInt 0 /\
            normalized_cpm_array r = [] /\ conc_array r = []) rxns.
Proof.
  unfold read_data, read_data_lines. intros H.
  destruct (read_lines read_init (Text.readlines text)) as [l|e] eqn:E;
    cbn in H; [|discriminate].
  injection H as <-.
  apply (read_lines_invariant (Text.readlines text) read_init l);
    [constructor|exact I|exact E].
Qed.

Lemma read_data_reactions_as_read_witness :
  Forall (fun r =>
            List.length (time_array r) = List.length (cpm_array r) /\
            pars r = PyInt 0 /\ r2 r = PyInt 0 /\
            normalized_cpm_array r = [] /\ conc_array r = [])
    [Reaction_init [0; 5; 10]%float [100; 150; 180]%float 50 10].
Proof.
  apply (read_data_reactions_as_read example_file). vm_compute. reflexivity.
Defined.

Lemma read_line_sa_value l line l' :
  read_line l line = Ok l' ->
  exists new, l_rxns l' = l_rxns l ++ new /\
              Forall2 (fun r tok => float_of_str tok = Ok (sa r)) new (sa_token line).
Proof.
  intros H. pose proof (read_line_cases l line l' H) as C.
  unfold keyword_line, data_line in C.
  destruct C
    as [(c & (tok & rest & S & _) & ->)
       |[(v & ta & ca & (tok & rest & S & F) & _ & _ & ->)
        |(tc & ta & ca & (t0 & t1 & rest & S & N1 & N2 & _) & _ & _ & ->)]];
    unfold sa_token; rewrite S; cbn.
  - exists []. rewrite app_nil_r. split; [reflexivity|constructor].
  - exists [Reaction_init ta ca v (l_aa_conc l)]. split; [reflexivity|].
    constructor; [exact F|constructor].
  - apply String.eqb_neq in N2. rewrite N2. exists [].
    rewrite app_nil_r. split; [reflexivity|constructor].
Qed.

Lemma read_lines_sa_values lines : forall l l',
  read_lines l lines = Ok l' ->
  exists new, l_rxns l' = l_rxns l ++ new /\
              Forall2 (fun r tok => float_of_str tok = Ok (sa r)) new (sa_tokens lines).
Proof.
  induction lines as [|line lines IH]; intros l l' H; cbn in H.
  - injection H as <-. exists []. rewrite app_nil_r. split; [reflexivity|constructor].
  - destruct (read_line l line) as [l1|e] eqn:E; cbn in H; [|discriminate].
    destruct (read_line_sa_value l line l1 E) as (n1 & E1 & L1).
    destruct (IH l1 l' H) as (n2 & E2 & L2).
    exists (n1 ++ n2). split.
    + now rewrite E2, E1, app_assoc.
    + unfold sa_tokens. cbn [flat_map]. now apply Forall2_app.
Qed.

(** X2.  [read_data] returns one reaction for each [sa] line of two tokens
    or more, in the order of the lines, and the specific activity of each is
    the number on its line. *)
Theorem read_data_one_reaction_per_sa (text : string) (rxns : list Reaction) :
  read_data text = Ok rxns ->
  List.length rxns = List.length (sa_tokens (Text.readlines text)) /\
  Forall2 (fun r tok => float_of_str tok = Ok (sa r)) rxns
    (sa_tokens (Text.readlines text)).
Proof.
  unfold read_data, read_data_lines. intros H.
  destruct (read_lines read_init (Text.readlines text)) as [l|e] eqn:E;
    cbn in H; [|discriminate].
  injection H as <-.
  destruct (read_lines_sa_values _ _ _ E) as (new & E1 & L). rewrite E1.
  split; [exact (Forall2_length L)|exact L].
Qed.

Lemma read_data_one_reaction_per_sa_witness :
  List.length [Reaction_init [0; 5; 10]%float [100; 150; 180]%float 50 10]
  = List.length (sa_tokens (Text.readlines example_file)) /\
  Forall2 (fun r tok => float_of_str tok = Ok (sa r))
    [Reaction_init [0; 5; 10]%float [100; 150; 180]%float 50 10]
    (sa_tokens (Text.readlines example_file)).
Proof.
  apply (read_data_one_reaction_per_sa example_file). vm_compute. reflexivity.
Defined.

(** X3.  A line of fewer than two tokens, a blank line among them, makes
    [read_data] raise [IndexError], wherever it comes after lines that were
    read without error and whatever follows it. *)
Theorem read_data_short_line (pre post : list string) (line : string) (l : locals) :
  read_lines read_init pre = Ok l ->
  (List.length (Text.split line) < 2)%nat ->
  read_data_lines (pre ++ line :: post) = Raise IndexError.
Proof.
  intros Hpre Hs. unfold read_data_lines. rewrite read_lines_app, Hpre. cbn.
  unfold read_line. destruct (Text.split line) as [|t0 [|t1 rest]]; cbn in *;
    try reflexivity. lia.
Qed.

Lemma read_data_short_line_witness :
  read_data_lines ([("conc 10.0" ++ newline)%string] ++ newline :: ["sa 50.0"])
  = Raise IndexError.
Proof.
  apply (read_data_short_line [("conc 10.0" ++ newline)%string] ["sa 50.0"] newline
           (mkLocals [] 10 (Some []) (Some []))).
  - reflexivity.
  - cbn. lia.
Defined.

(** X4.  When [read_data] returns on a file that is not empty, the first
    line of the file is a [conc] line. *)
Theorem read_data_starts_with_conc (line : string) (rest : list string)
    (rxns : list Reaction) :
  read_data_lines (line :: rest) = Ok rxns ->
  exists c, keyword_line "conc" line c.
Proof.
  unfold read_data_lines. cbn. intros H.
  destruct (read_line read_init line) as [l1|e] eqn:E; [|discriminate].
  destruct (read_line_cases _ _ _ E)
    as [(c & K & _)|[(v & ta & ca & _ & Et & _)|(tc & ta & ca & _ & Et & _)]].
  - now exists c.
  - discriminate.
  - discriminate.
Qed.

Lemma read_data_starts_with_conc_witness :
  exists c, keyword_line "conc" "conc 10.0" c.
Proof.
  apply (read_data_starts_with_conc "conc 10.0" ["0.0 100.0"; "sa 50.0"]
           [Reaction_init [0]%float [100]%float 50 10]).
  reflexivity.
Defined.

(** X5.  A token that [float] does not read makes [read_data] raise the
    [ValueError] of [float]: the second token of a [conc] line anywhere, and,
    once the buffers are bound, the second token of any line and the first
    token of a data line. *)
Theorem read_data_not_a_number
    (pre post : list string) (line t0 t1 : string) (rest : list string)
    (l : locals) :
  read_lines read_init pre = Ok l ->
  Text.split line = t0 :: t1 :: rest ->
  (t0 = "conc" \/ l_time_array l <> None) ->
  PyFloat.parse t1 = None \/
  (t0 <> "conc" /\ t0 <> "sa" /\ PyFloat.parse t0 = None) ->
  read_data_lines (pre ++ line :: post) = Raise (ValueError by_float).
Proof.
  intros Hpre S Hb Hn. unfold read_data_lines. rewrite read_lines_app, Hpre. cbn.
  assert (HP : paired l).
  { apply (read_lines_invariant pre read_init l); [constructor|exact I|exact Hpre]. }
  unfold paired in HP.
  assert (R : read_line l line = Raise (ValueError by_float)).
  { unfold read_line. rewrite S. cbn. unfold float_of_str.
    destruct (String.eqb_spec t0 "conc") as [->|N1].
    - destruct Hn as [Hn|(N & _)]; [now rewrite Hn|now destruct N].
    - destruct Hb as [->|Hb]; [now destruct N1|].
      destruct (l_time_array l) as [ta|]; [|now destruct Hb].
      destruct (l_cpm_array l) as [ca|]; [|now destruct HP]. cbn.
      destruct (String.eqb_spec t0 "sa") as [->|N2]; cbn.
      + destruct Hn as [Hn|(_ & N & _)]; [now rewrite Hn|now destruct N].
      + destruct (PyFloat.parse t0) as [t|] eqn:F0; cbn; [|reflexivity].
        destruct Hn as [Hn|(_ & _ & N)]; [now rewrite Hn|discriminate]. }
  now rewrite R.
Qed.

Lemma read_data_not_a_number_witness :
  read_data_lines (["conc 10.0"] ++ "0.0 1O0.0" :: ["sa 50.0"])
  = Raise (ValueError by_float).
Proof.
  apply (read_data_not_a_number ["conc 10.0"] ["sa 50.0"] "0.0 1O0.0"
           "0.0" "1O0.0" [] (mkLocals [] 10 (Some []) (Some []))).
  - reflexivity.
  - reflexivity.
  - right. discriminate.
  - left. reflexivity.
Defined.

(** *** One file after another *)

(** Reading goes on the same whatever reactions are already there. *)
Lemma read_line_with_rxns rxns l line :
  read_line (with_rxns rxns l) line
  = match read_line l line with
    | Ok l' => Ok (with_rxns rxns l')
    | Raise e => Raise e
    end.
Proof.
  unfold read_line, with_rxns. cbn.
  destruct (Text.split line) as [|t0 [|t1 rest]]; cbn; try reflexivity.
  destruct (String.eqb t0 "conc").
  - destruct (float_of_str t1); reflexivity.
  - destruct (String.eqb t0 "sa").
    + destruct (l_time_array l); cbn; [|reflexivity].
      destruct (l_cpm_array l); cbn; [|reflexivity].
      destruct (float_of_str t1); cbn; [|reflexivity].
      now rewrite app_assoc.
    + destruct (l_time_array l); cbn; [|reflexivity].
      destruct (float_of_str t0); cbn; [|reflexivity].
      destruct (l_cpm_array l); cbn; [|reflexivity].
      destruct (float_of_str t1); reflexivity.
Qed.

Lemma read_lines_with_rxns rxns lines : forall l,
  read_lines (with_rxns rxns l) lines
  = match read_lines l lines with
    | Ok l' => Ok (with_rxns rxns l')
    | Raise e => Raise e
    end.
Proof.
  induction lines as [|line lines IH]; intros l; cbn; [reflexivity|].
  rewrite read_line_with_rxns.
  destruct (read_line l line) as [l1|e]; cbn; [apply IH|reflexivity].
Qed.

(** A line that is read with nothing bound is a [conc] line, and leaves
    nothing of the buffers there were. *)
Lemma read_line_conc_any l1 l2 line l' :
  read_line read_init line = Ok l' ->
  l_rxns l1 = l_rxns l2 ->
  read_line l1 line = read_line l2 line.
Proof.
  intros H E. pose proof (read_line_cases _ _ _ H) as C.
  destruct C as [(c & K & _)|[(v & ta & ca & _ & Et & _)|(tc & ta & ca & _ & Et & _)]];
    try discriminate.
  now rewrite (read_line_conc l1 line c K), (read_line_conc l2 line c K), E.
Qed.

Lemma read_data_lines_app a b ra rb :
  read_data_lines a = Ok ra -> read_data_lines b = Ok rb ->
  read_data_lines (a ++ b) = Ok (ra ++ rb).
Proof.
  unfold read_data_lines. intros Ha Hb. rewrite read_lines_app.
  destruct (read_lines read_init a) as [la|e] eqn:Ea; cbn in *; [|discriminate].
  injection Ha as <-.
  destruct b as [|line b].
  - cbn in *. injection Hb as <-. now rewrite app_nil_r.
  - cbn in *.
    destruct (read_line read_init line) as [l1|e] eqn:E1; cbn in Hb; [|discriminate].
    rewrite (read_line_conc_any la (with_rxns (l_rxns la) read_init) line l1 E1)
      by (cbn; now rewrite app_nil_r).
    rewrite read_line_with_rxns, E1. cbn. rewrite read_lines_with_rxns.
    destruct (read_lines l1 b) as [l2|e]; cbn in *; [|discriminate].
    injection Hb as <-. reflexivity.
Qed.

Lemma append_assoc_string (a s t : string) :
  ((a ++ s) ++ t)%string = (a ++ (s ++ t))%string.
Proof. induction a as [|c a IH]; cbn; [reflexivity|now rewrite IH]. Qed.

(** The lines of a text that ends a line and of the text after it. *)
Lemma readlines_from_app a : forall b cur after_cr,
  (after_cr = true -> cur = []) ->
  Text.readlines_from (a ++ String Text.LF b)%string cur after_cr
  = Text.readlines_from (a ++ String Text.LF "")%string cur after_cr
    ++ Text.readlines_from b [] false.
Proof.
  induction a as [|c a IH]; intros b cur after_cr Inv; cbn [append Text.readlines_from].
  - cbn. destruct after_cr.
    + rewrite (Inv eq_refl). reflexivity.
    + reflexivity.
  - destruct (Ascii.eqb c Text.LF).
    + destruct after_cr.
      * apply IH. discriminate.
      * cbn [app]. f_equal. apply IH. discriminate.
    + destruct (Ascii.eqb c Text.CR).
      * cbn [app]. f_equal. apply IH. reflexivity.
      * apply IH. discriminate.
Qed.

(** X6.  Two files that [read_data] reads, the first ending with a
    newline, are read one after the other as their concatenation: it gives
    the reactions of the first followed by those of the second. *)
Theorem read_data_concatenation (a b : string) (ra rb : list Reaction) :
  read_data (a ++ newline)%string = Ok ra -> read_data b = Ok rb ->
  read_data ((a ++ newline) ++ b)%string = Ok (ra ++ rb).
Proof.
  unfold read_data. intros Ha Hb.
  assert (E : Text.readlines ((a ++ newline) ++ b)%string
              = Text.readlines (a ++ newline)%string ++ Text.readlines b).
  { unfold Text.readlines, newline.
    rewrite append_assoc_string. cbn [append]. apply readlines_from_app. discriminate. }
  rewrite E. now apply read_data_lines_app.
Qed.

Lemma read_data_concatenation_witness :
  read_data ((("conc 10.0" ++ newline ++ "sa 50.0") ++ newline) ++ example_file)%string
  = Ok ([Reaction_init [] [] 50 10]
        ++ [Reaction_init [0; 5; 10]%float [100; 150; 180]%float 50 10]).
Proof.
  apply (read_data_concatenation ("conc 10.0" ++ newline ++ "sa 50.0")%string
           example_file); vm_compute; reflexivity.
Defined.

(** *** Files of whole experiments *)

Lemma read_block lines b :
  block_lines lines b -> read_data_lines lines = Ok [block_reaction b].
Proof.
  intros (lc & dl & ls & -> & Hc & Hd & Hs).
  unfold read_data_lines. cbn [read_lines].
  rewrite (read_line_conc read_init lc _ Hc). cbn [bind].
  rewrite read_lines_app, (read_lines_data _ _ dl (b_data b) [] [] Hd).
  cbn [bind read_lines app].
  rewrite (read_line_sa _ _ _ _ ls (b_sa b) Hs). reflexivity.
Qed.

(** X7.  On a file made of experiments, each a [conc] line, data lines and
    an [sa] line, [read_data] returns one reaction for each experiment, in
    order, with the times and the counts of its data lines, its specific
    activity and its amino-acid concentration. *)
Theorem read_data_blocks (experiments : list (list string)) (blocks : list block) :
  Forall2 block_lines experiments blocks ->
  read_data_lines (List.concat experiments)
  = Ok (map (fun b => {| cpm_array := map snd (b_data b);
                         time_array := map fst (b_data b);
                         sa := b_sa b;
                         pars := PyInt 0;
                         r2 := PyInt 0;
                         normalized_cpm_array := [];
                         aa_conc := b_conc b;
                         conc_array := [] |}) blocks).
Proof.
  induction 1 as [|lines b experiments blocks Hb _ IH]; [reflexivity|].
  cbn [List.concat map].
  exact (read_data_lines_app lines (List.concat experiments)
           [block_reaction b] _ (read_block lines b Hb) IH).
Qed.

Lemma read_data_blocks_witness :
  read_data_lines
    (List.concat [["conc 10.0"; "0.0 100.0"; "5.0 150.0"; "sa 50.0"];
                  ["conc 20.0"; "sa 7"]])
  = Ok [{| cpm_array := [100; 150]%float; time_array := [0; 5]%float;
           sa := 50; pars := PyInt 0; r2 := PyInt 0;
           normalized_cpm_array := []; aa_conc := 10; conc_array := [] |};
        {| cpm_array := []; time_array := [];
           sa := 7; pars := PyInt 0; r2 := PyInt 0;
           normalized_cpm_array := []; aa_conc := 20; conc_array := [] |}].
Proof.
  apply (read_data_blocks
           [["conc 10.0"; "0.0 100.0"; "5.0 150.0"; "sa 50.0"];
            ["conc 20.0"; "sa 7"]]
           [mkBlock 10 [(0, 100); (5, 150)]%float 50; mkBlock 20 [] 7]).
  constructor; [|constructor; [|constructor]].
  - exists "conc 10.0", ["0.0 100.0"; "5.0 150.0"], "sa 50.0".
    split; [reflexivity|]. split; [|split].
    + exists "10.0", []. split; reflexivity.
    + repeat constructor.
      * exists "0.0", "100.0", []. repeat split; discriminate.
      * exists "5.0", "150.0", []. repeat split; discriminate.
    + exists "50.0", []. split; reflexivity.
  - exists "conc 20.0", [], "sa 7".
    split; [reflexivity|]. split; [|split].
    + exists "20.0", []. split; reflexivity.
    + constructor.
    + exists "7", []. split; reflexivity.
Defined.

(** X25.  The buffers go on after an [sa] line.  When a second run of data
    lines and a second [sa] line follow a first experiment with no [conc]
    line between them, the second reaction holds the times and the counts of
    the first experiment followed by its own, with the amino-acid
    concentration of the first. *)
Theorem read_data_missing_conc
    (lc ls1 ls2 : string) (dl1 dl2 : list string) (c s1 s2 : float)
    (d1 d2 : list (float * float)) :
  keyword_line "conc" lc c ->
  Forall2 data_line dl1 d1 -> keyword_line "sa" ls1 s1 ->
  Forall2 data_line dl2 d2 -> keyword_line "sa" ls2 s2 ->
  read_data_lines (lc :: dl1 ++ ls1 :: dl2 ++ [ls2])
  = Ok [{| cpm_array := map snd d1;
           time_array := map fst d1;
           sa := s1; pars := PyInt 0; r2 := PyInt 0;
           normalized_cpm_array := []; aa_conc := c; conc_array := [] |};
        {| cpm_array := map snd d1 ++ map snd d2;
           time_array := map fst d1 ++ map fst d2;
           sa := s2; pars := PyInt 0; r2 := PyInt 0;
           normalized_cpm_array := []; aa_conc := c; conc_array := [] |}].
Proof.
  intros Hc H1 Hs1 H2 Hs2. unfold read_data_lines. cbn [read_lines].
  rewrite (read_line_conc read_init lc c Hc). cbn [bind].
  rewrite read_lines_app, (read_lines_data _ _ dl1 d1 [] [] H1).
  cbn [bind read_lines app].
  rewrite (read_line_sa _ _ _ _ ls1 s1 Hs1). cbn [bind].
  rewrite read_lines_app, (read_lines_data _ _ dl2 d2 _ _ H2).
  cbn [bind read_lines].
  rewrite (read_line_sa _ _ _ _ ls2 s2 Hs2). reflexivity.
Qed.

Lemma read_data_missing_conc_witness :
  read_data_lines
    ("conc 10.0" :: ["0.0 100.0"] ++ "sa 50.0" :: ["5.0 150.0"] ++ ["sa 7"])
  = Ok [{| cpm_array := [100]%float; time_array := [0]%float;
           sa := 50; pars := PyInt 0; r2 := PyInt 0;
           normalized_cpm_array := []; aa_conc := 10; conc_array := [] |};
        {| cpm_array := ([100] ++ [150])%float;
           time_array := ([0] ++ [5])%float;
           sa := 7; pars := PyInt 0; r2 := PyInt 0;
           normalized_cpm_array := []; aa_conc := 10; conc_array := [] |}].
Proof.
  apply (read_data_missing_conc "conc 10.0" "sa 50.0" "sa 7"
           ["0.0 100.0"] ["5.0 150.0"] 10 50 7
           [(0, 100)]%float [(5, 150)]%float).
  - exists "10.0", []. split; reflexivity.
  - repeat constructor. exists "0.0", "100.0", []. repeat split; discriminate.
  - exists "50.0", []. split; reflexivity.
  - repeat constructor. exists "5.0", "150.0", []. repeat split; discriminate.
  - exists "7", []. split; reflexivity.
Defined.

Lemma read_blocks experiments blocks :
  Forall2 block_lines experiments blocks ->
  read_data_lines (List.concat experiments) = Ok (map block_reaction blocks).
Proof.
  induction 1 as [|lines b experiments blocks Hb _ IH]; [reflexivity|].
  cbn [List.concat map].
  exact (read_data_lines_app lines (List.concat experiments)
           [block_reaction b] _ (read_block lines b Hb) IH).
Qed.

(** ** The Concentration Converter, again *)

(** X8.  A second call of [calc_conc] changes nothing: it leaves the object
    as the first call left it, with the same outcome. *)
Theorem calc_conc_idempotent (self : Reaction) :
  calc_conc (fst (calc_conc self)) = calc_conc self.
Proof.
  destruct (cpm_array self) as [|cpm0 rest] eqn:E.
  - unfold calc_conc, getitem. rewrite E. cbn. now rewrite E.
  - rewrite (calc_conc_ok self cpm0 rest E). cbn [fst].
    rewrite (calc_conc_ok _ cpm0 rest) by exact E. reflexivity.
Qed.

(** X9.  [calc_conc] raises nothing but [IndexError], and raises it exactly
    when [cpm_array] is empty; the object is then unchanged.  Otherwise it
    stores one concentration for each count. *)
Theorem calc_conc_raises_iff_empty (self : Reaction) :
  (snd (calc_conc self) = Ok tt \/ snd (calc_conc self) = Raise IndexError) /\
  (snd (calc_conc self) = Raise IndexError <-> cpm_array self = []) /\
  (cpm_array self = [] -> fst (calc_conc self) = self) /\
  (cpm_array self <> [] ->
   List.length (conc_array (fst (calc_conc self))) = List.length (cpm_array self)).
Proof.
  unfold calc_conc, getitem.
  destruct (cpm_array self) as [|cpm0 rest] eqn:E; cbn.
  - repeat split; auto. intros H; now destruct H.
  - repeat split; auto; try discriminate.
    intros _. now rewrite !length_map.
Qed.

Lemma units_of_zero z : (z =? 0)%float = true -> units z = 0%Z.
Proof.
  rewrite eqb_zero_spec. unfold units.
  destruct (Prim2SF z); try discriminate. reflexivity.
Qed.

(** The count of time zero converts to a zero. *)
Lemma conc_of_baseline cpm0 sa aa :
  is_finite cpm0 = true -> is_finite sa = true -> (0 <? sa)%float = true ->
  is_finite aa = true ->
  (conc_of cpm0 sa aa cpm0 =? 0)%float = true.
Proof.
  intros F0 Fs Ps Fa. unfold conc_of.
  apply mul_zero_l; [|assumption].
  apply div_zero_l.
  - rewrite (sub_diag cpm0 F0). reflexivity.
  - rewrite is_nan_spec. now apply finite_is_not_nan.
  - destruct (positive_finite sa Fs Ps) as (m & e & E & _).
    rewrite eqb_zero_spec, E. reflexivity.
Qed.

(** X10.  For a reaction whose numbers are finite, with a positive specific
    activity and a positive amino-acid concentration, no concentration is a
    NaN, a count at or above the count of time zero gives a concentration
    that is not negative, and a count at or below it one that is not
    positive. *)
Theorem calc_conc_sign (self : Reaction) (cpm0 : float) (rest : list float) :
  cpm_array self = cpm0 :: rest ->
  forallb is_finite (cpm_array self) = true ->
  is_finite (sa self) = true -> (0 <? sa self)%float = true ->
  is_finite (aa_conc self) = true -> (0 <? aa_conc self)%float = true ->
  forall i c x,
    nth_error (cpm_array self) i = Some c ->
    nth_error (conc_array (fst (calc_conc self))) i = Some x ->
    is_nan x = false /\
    ((cpm0 <=? c)%float = true -> (0 <=? x)%float = true) /\
    ((c <=? cpm0)%float = true -> (x <=? 0)%float = true).
Proof.
  intros E F Fs Ps Fa Pa i c x Hc Hx.
  rewrite (calc_conc_ok self cpm0 rest E) in Hx.
  cbn [fst conc_array set_conc_array] in Hx.
  rewrite map_map, nth_error_map, Hc in Hx. injection Hx as <-.
  fold (conc_of cpm0 (sa self) (aa_conc self) c).
  assert (F0 : is_finite cpm0 = true).
  { apply (forallb_nth (cpm_array self) 0); [assumption|now rewrite E]. }
  pose proof (forallb_nth _ i c F Hc) as Fc.
  pose proof (conc_of_baseline cpm0 (sa self) (aa_conc self) F0 Fs Ps Fa) as Z0.
  pose proof (units_of_zero _ Z0) as U0.
  assert (N0 : sf_nan (Prim2SF 0) = false) by reflexivity.
  assert (Uz : units 0 = 0%Z) by reflexivity.
  split; [|split].
  - destruct (Z.le_ge_cases (units cpm0) (units c)) as [L|L].
    + now destruct (conc_of_mono cpm0 (sa self) (aa_conc self) cpm0 c
                      F0 Fs Ps Fa Pa F0 Fc L) as (_ & N & _).
    + now destruct (conc_of_mono cpm0 (sa self) (aa_conc self) c cpm0
                      F0 Fs Ps Fa Pa Fc F0 L) as (N & _ & _).
  - intros L. rewrite leb_units in L by now apply finite_is_not_nan.
    apply Z.leb_le in L.
    destruct (conc_of_mono cpm0 (sa self) (aa_conc self) cpm0 c
                F0 Fs Ps Fa Pa F0 Fc L) as (_ & N & U).
    rewrite is_nan_spec in N. rewrite leb_units by assumption.
    apply Z.leb_le. rewrite Uz. now rewrite U0 in U.
  - intros L. rewrite leb_units in L by now apply finite_is_not_nan.
    apply Z.leb_le in L.
    destruct (conc_of_mono cpm0 (sa self) (aa_conc self) c cpm0
                F0 Fs Ps Fa Pa Fc F0 L) as (N & _ & U).
    rewrite is_nan_spec in N. rewrite leb_units by assumption.
    apply Z.leb_le. rewrite Uz. now rewrite U0 in U.
Qed.

Lemma calc_conc_sign_witness :
  is_nan 10 = false /\
  ((100 <=? 150)%float = true -> (0 <=? 10)%float = true) /\
  ((150 <=? 100)%float = true -> (10 <=? 0)%float = true).
Proof.
  apply (calc_conc_sign
           (Reaction_init [0; 5; 10]%float [100; 150; 180]%float 50 10)
           100%float [150; 180]%float eq_refl eq_refl eq_refl eq_refl eq_refl
           eq_refl 1%nat 150%float 10%float); reflexivity.
Defined.

(** ** [fit_plateau] and [fitfunc] *)

(** X11.  Whatever the fit does, [fit_plateau] leaves the times, the
    counts, the specific activity and the amino-acid concentration as they
    were, and the two computed arrays as [calc_conc] makes them.  With no
    count it raises [IndexError] and changes nothing; otherwise it returns
    and stores what the fit returns on the concentrations and the times, and
    when the fit raises, [pars] and [r2] are left as they were. *)
Theorem fit_plateau_frame
    (fit : list float -> list float -> result (pyval * pyval))
    (self : Reaction) :
  let self' := fst (fit_plateau fit self) in
  time_array self' = time_array self /\
  cpm_array self' = cpm_array self /\
  sa self' = sa self /\ aa_conc self' = aa_conc self /\
  conc_array self' = conc_array (fst (calc_conc self)) /\
  normalized_cpm_array self' = normalized_cpm_array (fst (calc_conc self)) /\
  (cpm_array self = [] ->
   fit_plateau fit self = (self, Raise IndexError)) /\
  (cpm_array self <> [] ->
   match fit (conc_array (fst (calc_conc self))) (time_array self) with
   | Ok (p, r) =>
       snd (fit_plateau fit self) = Ok p /\ pars self' = p /\ r2 self' = r
   | Raise e =>
       snd (fit_plateau fit self) = Raise e /\
       pars self' = pars self /\ r2 self' = r2 self
   end).
Proof.
  unfold fit_plateau.
  destruct (cpm_array self) as [|c0 rest] eqn:E.
  - unfold calc_conc, getitem. rewrite E. cbn. rewrite E.
    repeat split; try reflexivity. intros H; now destruct H.
  - rewrite (calc_conc_ok self c0 rest E). cbn [fst snd].
    cbn [time_array conc_array set_conc_array set_normalized_cpm_array].
    destruct (fit _ (time_array self)) as [[p r]|e]; cbn; rewrite E;
      repeat split; try reflexivity; discriminate.
Qed.

Lemma opp_mul_zero p x :
  is_finite p = true -> (x =? 0)%float = true -> (- p * x =? 0)%float = true.
Proof.
  rewrite is_finite_spec, !eqb_zero_spec, mul_spec, opp_spec.
  destruct (Prim2SF p) as [s|s| |s m e]; try discriminate;
    destruct (Prim2SF x) as [sx|sx| |sx mx ex]; try discriminate; reflexivity.
Qed.

Lemma zero_cases z :
  (z =? 0)%float = true -> z = 0%float \/ z = (-0)%float.
Proof.
  rewrite eqb_zero_spec. intros H.
  destruct (Prim2SF z) as [s|s| |s m e] eqn:E; try discriminate.
  destruct s; [right|left]; apply Prim2SF_inj; rewrite E; reflexivity.
Qed.

(** X12.  With an exponential that is [1] at [+0] and at [-0], and finite
    parameters, the fitted curve [fitfunc] is zero at time zero, and is zero
    at every finite time when the rate [p1] is zero. *)
Theorem fitfunc_origin (exp : float -> float) (x p0 p1 : float) :
  exp 0%float = 1%float -> exp (-0)%float = 1%float ->
  is_finite p0 = true -> is_finite p1 = true ->
  ((x =? 0)%float = true -> (fitfunc exp x p0 p1 =? 0)%float = true) /\
  ((p1 =? 0)%float = true -> is_finite x = true ->
   (fitfunc exp x p0 p1 =? 0)%float = true).
Proof.
  intros E0 E1 F0 F1.
  assert (Z : forall z, (z =? 0)%float = true ->
                (p0 * (1 - exp z) =? 0)%float = true).
  { intros z Hz. destruct (zero_cases z Hz) as [->| ->]; rewrite ?E0, ?E1;
      rewrite (sub_diag 1 eq_refl);
      rewrite eqb_zero_spec, mul_spec; rewrite is_finite_spec in F0;
      destruct (Prim2SF p0) as [s|s| |s m e]; try discriminate; reflexivity. }
  unfold fitfunc. split.
  - intros Hx. apply Z. now apply opp_mul_zero.
  - intros Hp Fx. apply Z.
    rewrite eqb_zero_spec, mul_spec, opp_spec.
    rewrite eqb_zero_spec in Hp. rewrite is_finite_spec in Fx.
    destruct (Prim2SF p1) as [s|s| |s m e]; try discriminate;
      destruct (Prim2SF x) as [sx|sx| |sx mx ex]; try discriminate; reflexivity.
Qed.

Lemma fitfunc_origin_witness :
  (fitfunc (fun z => 1 + z + z * z / 2)%float 0 16 3 =? 0)%float = true.
Proof.
  apply (proj1 (fitfunc_origin (fun z => 1 + z + z * z / 2)%float 0 16 3
                  eq_refl eq_refl eq_refl eq_refl)).
  reflexivity.
Defined.

(** ** The Replicate Aggregator, on any number of reactions *)

(** X13.  The aggregation has three outcomes.  With no reaction it raises
    [IndexError].  When every reaction has as many concentrations as the
    first reaction has times, it returns a mean and a standard deviation for
    each time point.  When some reaction has not, it raises the [ValueError]
    of [np.reshape]. *)
Theorem aggregate_outcome (rxns : list Reaction) :
  (rxns = [] /\ aggregate rxns = Raise IndexError) \/
  (exists rxn0 rest, rxns = rxn0 :: rest /\
     let n := List.length (time_array rxn0) in
     ((Forall (fun r => List.length (conc_array r) = n) rxns /\
       exists ave std, aggregate rxns = Ok (ave, std) /\
         List.length ave = n /\ List.length std = n)
      \/
      (Exists (fun r => List.length (conc_array r) <> n) rxns /\
       aggregate rxns = Raise (ValueError by_np_reshape)))).
Proof.
  destruct rxns as [|rxn0 rest]; [left; split; reflexivity|].
  right. exists rxn0, rest. split; [reflexivity|]. intros n.
  destruct (uniform n (rxn0 :: rest)) eqn:U.
  - left. split.
    + unfold uniform in U. rewrite forallb_forall in U. apply Forall_forall.
      intros r Hr. now apply Nat.eqb_eq, U.
    + rewrite (aggregate_uniform rxn0 rest U).
      do 2 eexists. split; [reflexivity|].
      now rewrite !length_map, !length_seq.
  - right. split.
    + now apply not_uniform.
    + now apply aggregate_not_uniform.
Qed.

(** The two sums agree but for a column of eight numbers or more in a
    matrix of one column. *)
Lemma sum_in_order b col :
  b = false \/ (List.length col < 8)%nat ->
  Np.sum b col = fold_left PrimFloat.add col 0%float.
Proof.
  intros [->|H]; [reflexivity|now apply sum_small].
Qed.

(** X14.  When the aggregation returns on two time points or more, or on
    fewer than eight reactions, the mean at time point [j] is the sum of the
    concentrations [conc_array[j]] of the reactions, added in the order of
    the reactions from [0.0], divided by the number of reactions; and the
    standard deviation is the square root of the sum of the squares of the
    deviations from that mean, added in the same way and divided by the
    number of reactions. *)
Theorem aggregate_columns (rxns : list Reaction) (ave std : list float) :
  aggregate rxns = Ok (ave, std) ->
  List.length ave <> 1%nat \/ (List.length rxns < 8)%nat ->
  forall j, (j < List.length ave)%nat ->
    exists col m,
      Forall2 (fun r c => nth_error (conc_array r) j = Some c) rxns col /\
      m = (fold_left PrimFloat.add col 0 / Np.count (List.length rxns))%float /\
      nth_error ave j = Some m /\
      nth_error std j
      = Some (PrimFloat.sqrt
                (fold_left PrimFloat.add
                   (map (fun c => (c - m) * (c - m))%float col) 0
                 / Np.count (List.length rxns))%float).
Proof.
  intros H Hc j Hj.
  destruct (aggregate_at rxns ave std j H Hj) as (col & C & Ea & Es).
  pose proof (Forall2_length C) as L.
  assert (B : Nat.eqb (List.length ave) 1 = false \/ (List.length col < 8)%nat).
  { destruct Hc as [Hc|Hc]; [left; now apply Nat.eqb_neq|right; lia]. }
  exists col, (Np.mean (Nat.eqb (List.length ave) 1) col).
  split; [exact C|]. split; [|split; [exact Ea|]].
  - unfold Np.mean. now rewrite (sum_in_order _ col B), L.
  - rewrite Es. unfold Np.std, Np.ddof. rewrite map_map, Nat.sub_0_r, L.
    rewrite sum_in_order; [reflexivity|].
    rewrite length_map. exact B.
Qed.

Lemma aggregate_columns_witness :
  exists col m,
    Forall2 (fun r c => nth_error (conc_array r) 1 = Some c)
      [two_points; two_points_high] col /\
    m = (fold_left PrimFloat.add col 0
         / Np.count (List.length [two_points; two_points_high]))%float /\
    nth_error [0; 20]%float 1 = Some m /\
    nth_error [0; 10]%float 1
    = Some (PrimFloat.sqrt
              (fold_left PrimFloat.add
                 (map (fun c => (c - m) * (c - m))%float col) 0
               / Np.count (List.length [two_points; two_points_high]))%float).
Proof.
  apply (aggregate_columns [two_points; two_points_high]
           [0; 20]%float [0; 10]%float eq_refl).
  - left. cbn. discriminate.
  - cbn. lia.
Defined.

(** A square root is a NaN or is not below zero. *)
Lemma sqrt_sign x :
  is_nan (PrimFloat.sqrt x) = false -> (0 <=? PrimFloat.sqrt x)%float = true.
Proof.
  rewrite is_nan_spec, leb_spec, sqrt_spec, Prim2SF_zero.
  unfold SF64sqrt.
  destruct (Prim2SF x) as [s|s| |s m e]; cbn [SFsqrt].
  - destruct s; reflexivity.
  - destruct s; [discriminate|reflexivity].
  - discriminate.
  - destruct s; [discriminate|].
    destruct (SFsqrt_core_binary prec emax (Z.pos m) e) as [[mz ez] lz].
    unfold binary_round_aux.
    destruct (shr_fexp prec emax mz ez lz) as [mrs' e'].
    match goal with
    | |- context [shr_fexp prec emax ?r e' loc_Exact] =>
        destruct (shr_fexp prec emax r e' loc_Exact) as [mrs'' e'']
    end.
    destruct (shr_m mrs'') as [|p|p]; [reflexivity| |discriminate].
    destruct (e'' <=? emax - prec)%Z; reflexivity.
Qed.

(** X15.  No standard deviation the aggregation returns is below zero:
    each is a NaN, or is at least zero. *)
Theorem aggregate_std_not_negative (rxns : list Reaction) (ave std : list float) :
  aggregate rxns = Ok (ave, std) ->
  Forall (fun s => (is_nan s = false -> (0 <=? s)%float = true) /\
                   (s <? 0)%float = false) std.
Proof.
  intros H.
  destruct (aggregate_ok_uniform rxns ave std H) as (rxn0 & rest & -> & U).
  rewrite (aggregate_uniform rxn0 rest U) in H. injection H as _ <-.
  apply Forall_forall. intros s Hs. apply in_map_iff in Hs.
  destruct Hs as (j & <- & _). unfold Np.std.
  set (q := (_ / _)%float). clearbody q.
  pose proof (sqrt_sign q) as S. split; [exact S|].
  destruct (is_nan (PrimFloat.sqrt q)) eqn:N.
  - rewrite is_nan_spec in N. rewrite ltb_spec.
    destruct (Prim2SF (PrimFloat.sqrt q)); try discriminate. reflexivity.
  - specialize (S eq_refl). rewrite leb_spec in S. rewrite ltb_spec.
    unfold SFleb in S. unfold SFltb.
    rewrite Prim2SF_zero in *.
    destruct (Prim2SF (PrimFloat.sqrt q)) as [s|s| |s m e]; try reflexivity;
      destruct s; try reflexivity; discriminate.
Qed.

Lemma aggregate_std_not_negative_witness :
  Forall (fun s => (is_nan s = false -> (0 <=? s)%float = true) /\
                   (s <? 0)%float = false) [0; 0; 0]%float.
Proof.
  apply (aggregate_std_not_negative [three_points; three_points]
           [0; 10; 16]%float [0; 0; 0]%float).
  reflexivity.
Defined.

(** *** The order of the first two replicates *)

Lemma SFadd_comm x y : SF64add x y = SF64add y x.
Proof.
  unfold SF64add, SFadd.
  destruct x as [sx|sx| |sx mx ex]; destruct y as [sy|sy| |sy my ey];
    try reflexivity; try (destruct sx; destruct sy; reflexivity).
  rewrite (Z.min_comm ex ey), Z.add_comm. reflexivity.
Qed.

(** The sum in order from [0.0] takes its first two terms in any order. *)
Lemma add_first_two a b : (0 + a + b)%float = (0 + b + a)%float.
Proof.
  apply Prim2SF_inj. rewrite !add_spec, Prim2SF_zero.
  fold SF64add.
  destruct (Prim2SF a) as [sa|sa| |sa ma ea];
    destruct (Prim2SF b) as [sb|sb| |sb mb eb];
    try (destruct sa; destruct sb; reflexivity);
    try (destruct sa; reflexivity); try (destruct sb; reflexivity);
    try reflexivity.
  exact (SFadd_comm (S754_finite sa ma ea) (S754_finite sb mb eb)).
Qed.

Lemma sum_first_two c a b t :
  c = false \/ (List.length (a :: b :: t) < 8)%nat ->
  Np.sum c (a :: b :: t) = Np.sum c (b :: a :: t).
Proof.
  intros H. rewrite !sum_in_order by exact H.
  cbn [fold_left]. now rewrite add_first_two.
Qed.

Lemma mean_first_two c a b t :
  c = false \/ (List.length (a :: b :: t) < 8)%nat ->
  Np.mean c (a :: b :: t) = Np.mean c (b :: a :: t).
Proof. intros H. unfold Np.mean. now rewrite (sum_first_two c a b t H). Qed.

Lemma std_first_two c a b t :
  c = false \/ (List.length (a :: b :: t) < 8)%nat ->
  Np.std c (a :: b :: t) = Np.std c (b :: a :: t).
Proof.
  intros H. unfold Np.std. rewrite (mean_first_two c a b t H).
  cbn [map List.length]. rewrite sum_first_two; [reflexivity|].
  cbn [List.length] in *. now rewrite !length_map.
Qed.

(** X16.  On two time points or more, or on fewer than eight reactions,
    exchanging the first two reactions, each with as many concentrations as
    times, does not change what the aggregation returns or raises; with two
    replicates, their order in the file does not matter. *)
Theorem aggregate_first_two (r1 r2 : Reaction) (rest : list Reaction) :
  converted r1 -> converted r2 ->
  List.length (time_array r1) <> 1%nat \/ (List.length (r1 :: r2 :: rest) < 8)%nat ->
  aggregate (r1 :: r2 :: rest) = aggregate (r2 :: r1 :: rest).
Proof.
  unfold converted. intros C1 C2 Hc.
  set (n1 := List.length (time_array r1)) in *.
  set (n2 := List.length (time_array r2)).
  destruct (uniform n1 (r1 :: r2 :: rest)) eqn:U1.
  - assert (E : n2 = n1).
    { cbn in U1. apply andb_true_iff in U1. destruct U1 as [_ U1].
      apply andb_true_iff in U1. destruct U1 as [U1 _].
      apply Nat.eqb_eq in U1. unfold n1, n2 in *. congruence. }
    assert (U2 : uniform n2 (r2 :: r1 :: rest) = true).
    { rewrite E. cbn in *. now rewrite andb_assoc, (andb_comm (Nat.eqb _ _)), <- andb_assoc. }
    rewrite (aggregate_uniform r1 (r2 :: rest) U1).
    rewrite (aggregate_uniform r2 (r1 :: rest) U2).
    fold n1 n2. rewrite E. unfold conc_column. cbn [map].
    assert (B : forall j,
              Nat.eqb n1 1 = false \/
              (List.length (nth j (conc_array r1) nan :: nth j (conc_array r2) nan
                            :: map (fun r => nth j (conc_array r) nan) rest) < 8)%nat).
    { intros j. destruct Hc as [Hc|Hc]; [left; now apply Nat.eqb_neq|right].
      cbn [List.length] in *. now rewrite length_map. }
    f_equal. f_equal; apply map_ext; intros j.
    + apply mean_first_two, B.
    + apply std_first_two, B.
  - rewrite (aggregate_not_uniform r1 (r2 :: rest) U1).
    rewrite aggregate_not_uniform; [reflexivity|]. fold n2.
    destruct (uniform n2 (r2 :: r1 :: rest)) eqn:U2; [|reflexivity]. exfalso.
    assert (E : n1 = n2).
    { cbn in U2. apply andb_true_iff in U2. destruct U2 as [_ U2].
      apply andb_true_iff in U2. destruct U2 as [U2 _].
      apply Nat.eqb_eq in U2. unfold n1, n2 in *. congruence. }
    rewrite E in U1. cbn in U1, U2.
    rewrite andb_assoc, (andb_comm (Nat.eqb _ _)), <- andb_assoc in U1.
    rewrite U1 in U2. discriminate.
Qed.

(** The bound is needed.  Sixteen reactions of one time point are one
    contiguous column, the pairwise sum adds the first to the ninth and the
    second to the tenth, and exchanging the first two changes the mean. *)
Lemma aggregate_first_two_sixteen :
  (exists std,
     aggregate (map one_point
                  [1e16; 1; 0; 0; 0; 0; 0; 0; -1e16; 1; 0; 0; 0; 0; 0; 0]%float)
     = Ok ([0.125%float], std)) /\
  (exists std,
     aggregate (map one_point
                  [1; 1e16; 0; 0; 0; 0; 0; 0; -1e16; 1; 0; 0; 0; 0; 0; 0]%float)
     = Ok ([0%float], std)) /\
  fold_left PrimFloat.add
    [1e16; 1; 0; 0; 0; 0; 0; 0; -1e16; 1; 0; 0; 0; 0; 0; 0]%float 0%float
  = 1%float.
Proof.
  split; [|split]; [eexists; vm_compute; reflexivity..|reflexivity].
Qed.

Lemma aggregate_first_two_witness :
  aggregate [two_points; two_points_high] = Ok ([0; 20]%float, [0; 10]%float) /\
  aggregate [two_points; two_points_high] = aggregate [two_points_high; two_points].
Proof.
  split; [reflexivity|].
  apply (aggregate_first_two two_points two_points_high []);
    [reflexivity|reflexivity|].
  left. cbn. discriminate.
Defined.

(** *** The first time point *)

(** *** The number of reactions, as a float *)

Lemma count_units n :
  (0 < n)%nat -> (Z.of_nat n < 2 ^ 63)%Z ->
  sf_nan (Prim2SF (Np.count n)) = false /\ (0 < units (Np.count n))%Z.
Proof.
  intros Hn Hb. unfold Np.count, units.
  rewrite of_uint63_spec, Uint63.of_Z_spec.
  rewrite Z.mod_small by (split; [lia|exact Hb]).
  destruct (Z.of_nat n) as [|p|p] eqn:E; try lia.
  cbn [binary_normalize].
  destruct (units_binary_round false p 0 ltac:(lia)) as [N U].
  split; [now apply sf_nan_false|].
  rewrite U. cbn [cond_Zopp].
  assert (P : (0 < 2 ^ 1074)%Z) by (apply Z.pow_pos_nonneg; lia).
  assert (R : round_quotient (2 ^ 1074) 1 = (2 ^ 1074)%Z).
  { exact (round_quotient_representable 4503599627370496 (-52) eq_refl). }
  pose proof (round_quotient_mono (2 ^ 1074) (Z.pos p * 2 ^ (0 + 1074)) 1
                ltac:(lia)) as M.
  change (0 + 1074)%Z with 1074%Z in *.
  assert (2 ^ 1074 <= Z.pos p * 2 ^ 1074)%Z by nia.
  lia.
Qed.

Lemma count_not_zero n :
  (0 < n)%nat -> (Z.of_nat n < 2 ^ 63)%Z ->
  is_nan (Np.count n) = false /\ (Np.count n =? 0)%float = false.
Proof.
  intros Hn Hb. destruct (count_units n Hn Hb) as [N U].
  split; [now rewrite is_nan_spec|].
  rewrite eqb_zero_spec. unfold units in U.
  destruct (Prim2SF (Np.count n)); try reflexivity. cbn in U. lia.
Qed.

(** *** Zeros *)

Lemma add_zeros a b :
  is_zero a = true -> is_zero b = true -> is_zero (a + b) = true.
Proof.
  unfold is_zero. rewrite !eqb_zero_spec, add_spec.
  destruct (Prim2SF a) as [sa| | |]; try discriminate.
  destruct (Prim2SF b) as [sb| | |]; try discriminate.
  destruct sa, sb; reflexivity.
Qed.

Lemma sub_zeros a b :
  is_zero a = true -> is_zero b = true -> is_zero (a - b) = true.
Proof.
  unfold is_zero. rewrite !eqb_zero_spec, sub_spec.
  destruct (Prim2SF a) as [sa| | |]; try discriminate.
  destruct (Prim2SF b) as [sb| | |]; try discriminate.
  destruct sa, sb; reflexivity.
Qed.

Lemma mul_zeros a b :
  is_zero a = true -> is_zero b = true -> is_zero (a * b) = true.
Proof.
  unfold is_zero. rewrite !eqb_zero_spec, mul_spec.
  destruct (Prim2SF a) as [sa| | |]; try discriminate.
  destruct (Prim2SF b) as [sb| | |]; try discriminate.
  reflexivity.
Qed.

Lemma sqrt_zero a : is_zero a = true -> is_zero (PrimFloat.sqrt a) = true.
Proof.
  unfold is_zero. rewrite !eqb_zero_spec, sqrt_spec.
  destruct (Prim2SF a) as [sa| | |]; try discriminate. reflexivity.
Qed.

Lemma fold_add_zeros col : forall acc,
  is_zero acc = true -> forallb is_zero col = true ->
  is_zero (fold_left PrimFloat.add col acc) = true.
Proof.
  induction col as [|x col IH]; intros acc Ha H; [exact Ha|].
  cbn [forallb] in H. apply andb_true_iff in H. destruct H as [Hx H].
  cbn [fold_left]. apply IH; [now apply add_zeros|exact H].
Qed.

Lemma firstn_zeros n : forall col,
  forallb is_zero col = true -> forallb is_zero (firstn n col) = true.
Proof.
  induction n as [|n IH]; intros [|x col] H; try reflexivity.
  cbn in *. apply andb_true_iff in H. destruct H as [Hx H].
  now rewrite Hx, (IH col H).
Qed.

Lemma skipn_zeros n : forall col,
  forallb is_zero col = true -> forallb is_zero (skipn n col) = true.
Proof.
  induction n as [|n IH]; intros [|x col] H; try reflexivity; [exact H|].
  cbn in *. apply andb_true_iff in H. destruct H as [_ H]. now apply IH.
Qed.

Lemma nth_zeros k : forall col,
  forallb is_zero col = true -> is_zero (nth k col 0%float) = true.
Proof.
  induction k as [|k IH]; intros [|x col] H; try reflexivity;
    cbn in *; apply andb_true_iff in H; destruct H as [Hx H];
    [exact Hx|now apply IH].
Qed.

Lemma add8_zeros r : forall a,
  forallb is_zero r = true -> forallb is_zero a = true ->
  forallb is_zero (Np.add8 r a) = true.
Proof.
  unfold Np.add8. induction r as [|x r IH]; intros [|y a] Hr Ha; try reflexivity.
  cbn [forallb] in Hr, Ha. apply andb_true_iff in Hr, Ha.
  destruct Hr as [Hx Hr]. destruct Ha as [Hy Ha].
  cbn [combine map forallb fst snd].
  now rewrite (add_zeros x y Hx Hy), (IH a Hr Ha).
Qed.

Lemma unrolled_zeros blocks : forall r a,
  forallb is_zero r = true -> forallb is_zero a = true ->
  forallb is_zero (fst (Np.unrolled blocks r a)) = true /\
  forallb is_zero (snd (Np.unrolled blocks r a)) = true.
Proof.
  induction blocks as [|b IH]; intros r a Hr Ha; [now split|].
  cbn [Np.unrolled]. apply IH.
  - apply add8_zeros; [exact Hr|now apply firstn_zeros].
  - now apply skipn_zeros.
Qed.

Lemma block_sum_zeros a :
  forallb is_zero a = true -> is_zero (Np.block_sum a) = true.
Proof.
  intros H. unfold Np.block_sum.
  destruct (unrolled_zeros (List.length a / 8 - 1) (firstn 8 a) (skipn 8 a)
              (firstn_zeros 8 a H) (skipn_zeros 8 a H)) as [Hr Hrest].
  destruct (Np.unrolled _ _ _) as [r rest]. cbn [fst snd] in *.
  apply fold_add_zeros; [|exact Hrest].
  unfold Np.tree8. repeat apply add_zeros; now apply nth_zeros.
Qed.

(** A pairwise sum of zeros is a zero. *)
Lemma pairwise_sum_zeros fuel : forall a,
  forallb is_zero a = true -> is_zero (Np.pairwise_sum fuel a) = true.
Proof.
  induction fuel as [|fuel IH]; intros a H; cbn [Np.pairwise_sum].
  - destruct (Nat.ltb _ 8); [now apply fold_add_zeros|].
    destruct (Nat.leb _ 128); now apply block_sum_zeros.
  - destruct (Nat.ltb _ 8); [now apply fold_add_zeros|].
    destruct (Nat.leb _ 128); [now apply block_sum_zeros|].
    apply add_zeros; apply IH; [now apply firstn_zeros|now apply skipn_zeros].
Qed.

Lemma sum_zeros b col :
  forallb is_zero col = true -> is_zero (Np.sum b col) = true.
Proof.
  intros H. unfold Np.sum. destruct b.
  - apply add_zeros; [reflexivity|now apply pairwise_sum_zeros].
  - now apply fold_add_zeros.
Qed.

Lemma mean_zeros b col :
  col <> [] -> (Z.of_nat (List.length col) < 2 ^ 63)%Z ->
  forallb is_zero col = true -> is_zero (Np.mean b col) = true.
Proof.
  intros Hne Hb H. unfold Np.mean.
  assert (Hn : (0 < List.length col)%nat) by (destruct col; [now destruct Hne|cbn; lia]).
  destruct (count_not_zero _ Hn Hb) as [N Z].
  apply div_zero_l; [|exact N|exact Z].
  now apply sum_zeros.
Qed.

Lemma std_zeros b col :
  col <> [] -> (Z.of_nat (List.length col) < 2 ^ 63)%Z ->
  forallb is_zero col = true -> is_zero (Np.std b col) = true.
Proof.
  intros Hne Hb H. unfold Np.std, Np.ddof. rewrite Nat.sub_0_r.
  assert (Hn : (0 < List.length col)%nat) by (destruct col; [now destruct Hne|cbn; lia]).
  destruct (count_not_zero _ Hn Hb) as [N Z].
  apply sqrt_zero. apply div_zero_l; [|exact N|exact Z].
  apply sum_zeros.
  pose proof (mean_zeros b col Hne Hb H) as M.
  rewrite forallb_forall in *. intros x Hx.
  apply in_map_iff in Hx. destruct Hx as (d & <- & Hd).
  apply in_map_iff in Hd. destruct Hd as (a & <- & Ha).
  assert (is_zero (a - Np.mean b col) = true) by (apply sub_zeros; [now apply H|exact M]).
  now apply mul_zeros.
Qed.

Lemma baseline_conc r :
  baseline_ok r ->
  exists z rest, conc_array (fst (calc_conc r)) = z :: rest /\ is_zero z = true.
Proof.
  intros (c0 & rest & E & F0 & Fa & Ns & Zs).
  rewrite (calc_conc_ok r c0 rest E). cbn [fst conc_array set_conc_array].
  rewrite E. cbn [map]. do 2 eexists. split; [reflexivity|].
  unfold is_zero. apply mul_zero_l; [|exact Fa].
  apply div_zero_l; [|exact Ns|exact Zs].
  rewrite (sub_diag c0 F0). reflexivity.
Qed.

Lemma baseline_column rs :
  Forall baseline_ok rs ->
  forallb is_zero (conc_column (map (fun r => fst (calc_conc r)) rs) 0) = true.
Proof.
  induction 1 as [|r rs Hr _ IH]; [reflexivity|].
  cbn [map conc_column forallb]. fold (conc_column (map (fun r => fst (calc_conc r)) rs) 0).
  rewrite IH, andb_true_r.
  destruct (baseline_conc r Hr) as (z & rest & E & Z). now rewrite E.
Qed.

(** X23.  The averaged curve starts at zero with no error bar.  For
    reactions whose first count and amino-acid concentration are finite and
    whose specific activity is neither zero nor a NaN, converted by
    [calc_conc], the mean and the standard deviation that the aggregation
    returns for the first time point are both zero. *)
Theorem aggregate_origin (rs : list Reaction) (ave std : list float) :
  Forall (fun r => exists c0 rest,
            cpm_array r = c0 :: rest /\ is_finite c0 = true /\
            is_finite (aa_conc r) = true /\
            is_nan (sa r) = false /\ (sa r =? 0)%float = false) rs ->
  (Z.of_nat (List.length rs) < 2 ^ 63)%Z ->
  aggregate (map (fun r => fst (calc_conc r)) rs) = Ok (ave, std) ->
  exists m s,
    nth_error ave 0 = Some m /\ nth_error std 0 = Some s /\
    (m =? 0)%float = true /\ (s =? 0)%float = true.
Proof.
  intros B Hb H. destruct rs as [|r rs]; [discriminate|].
  pose proof (baseline_column (r :: rs) B) as Z.
  assert (Hl : (Z.of_nat (List.length
                   (conc_column (map (fun r => fst (calc_conc r)) (r :: rs)) 0))
                < 2 ^ 63)%Z).
  { unfold conc_column. now rewrite !length_map. }
  inversion B as [|? ? Hr _]; subst.
  destruct (baseline_conc r Hr) as (z & zs & Ez & _).
  cbn [map] in *.
  set (rxn0 := fst (calc_conc r)) in *.
  set (rest := map (fun r => fst (calc_conc r)) rs) in *.
  destruct (uniform (List.length (time_array rxn0)) (rxn0 :: rest)) eqn:U.
  2:{ rewrite (aggregate_not_uniform rxn0 rest U) in H. discriminate. }
  rewrite (aggregate_uniform rxn0 rest U) in H. injection H as <- <-.
  assert (Hn : (0 < List.length (time_array rxn0))%nat).
  { unfold uniform in U. cbn [forallb] in U.
    apply andb_true_iff in U. destruct U as [U _]. apply Nat.eqb_eq in U.
    rewrite Ez in U. cbn in U. lia. }
  destruct (List.length (time_array rxn0)) as [|n]; [lia|].
  cbn [seq map nth_error].
  set (col := conc_column (rxn0 :: rest) 0) in *.
  assert (Hne : col <> []) by (unfold col; cbn; discriminate).
  exists (Np.mean (Nat.eqb (S n) 1) col), (Np.std (Nat.eqb (S n) 1) col).
  split; [reflexivity|]. split; [reflexivity|]. split.
  - exact (mean_zeros _ col Hne Hl Z).
  - exact (std_zeros _ col Hne Hl Z).
Qed.

Lemma aggregate_origin_witness :
  exists m s,
    nth_error [0; 10; 16]%float 0 = Some m /\
    nth_error [0; 0; 0]%float 0 = Some s /\
    (m =? 0)%float = true /\ (s =? 0)%float = true.
Proof.
  apply (aggregate_origin
           [Reaction_init [0; 5; 10]%float [100; 150; 180]%float 50 10;
            Reaction_init [0; 5; 10]%float [100; 150; 180]%float 50 10]).
  - repeat constructor; exists 100%float, [150; 180]%float; repeat split.
  - cbn. lia.
  - reflexivity.
Defined.

(** ** [main] *)

Lemma calc_conc_nonempty r :
  has_counts r = true -> snd (calc_conc r) = Ok tt.
Proof.
  unfold has_counts. destruct (cpm_array r) as [|c0 rest] eqn:E; [discriminate|].
  intros _. now rewrite (calc_conc_ok r c0 rest E).
Qed.

Lemma calc_conc_empty r :
  has_counts r = false -> calc_conc r = (r, Raise IndexError).
Proof.
  unfold has_counts, calc_conc, getitem.
  destruct (cpm_array r); [reflexivity|discriminate].
Qed.

Lemma convert_all_ok rxns :
  forallb has_counts rxns = true ->
  convert_all rxns = (map (fun r => fst (calc_conc r)) rxns, Ok tt).
Proof.
  induction rxns as [|r rxns IH]; [reflexivity|].
  cbn [forallb]. intros H. apply andb_true_iff in H. destruct H as [Hr H].
  cbn [convert_all map]. pose proof (calc_conc_nonempty r Hr) as E.
  destruct (calc_conc r) as [r' o]. cbn in E. subst o.
  now rewrite (IH H).
Qed.

Lemma convert_all_stops pre r post :
  forallb has_counts pre = true -> has_counts r = false ->
  convert_all (pre ++ r :: post)
  = (map (fun x => fst (calc_conc x)) pre ++ r :: post, Raise IndexError).
Proof.
  intros Hpre Hr. induction pre as [|p pre IH].
  - cbn. now rewrite (calc_conc_empty r Hr).
  - cbn [forallb] in Hpre. apply andb_true_iff in Hpre. destruct Hpre as [Hp Hpre].
    cbn [app convert_all map]. pose proof (calc_conc_nonempty p Hp) as E.
    destruct (calc_conc p) as [p' o]. cbn in E. subst o.
    now rewrite (IH Hpre).
Qed.

Lemma first_without_counts rxns :
  forallb has_counts rxns = false ->
  exists pre r post, rxns = pre ++ r :: post /\
    forallb has_counts pre = true /\ has_counts r = false.
Proof.
  induction rxns as [|x rxns IH]; [discriminate|].
  cbn [forallb]. destruct (has_counts x) eqn:Hx; cbn.
  - intros H. destruct (IH H) as (pre & r & post & -> & Hpre & Hr).
    exists (x :: pre), r, post. cbn. now rewrite Hx, Hpre.
  - intros _. exists [], x, rxns. now rewrite Hx.
Qed.

Lemma counts_spec n rxns :
  counts n rxns = true <-> Forall (fun r => List.length (cpm_array r) = n) rxns.
Proof.
  unfold counts. rewrite forallb_forall, Forall_forall.
  split; intros H r Hr; [apply Nat.eqb_eq|apply Nat.eqb_eq]; now apply H.
Qed.

Lemma has_counts_spec rxns :
  forallb has_counts rxns = true <-> Forall (fun r => cpm_array r <> []) rxns.
Proof.
  rewrite forallb_forall, Forall_forall. unfold has_counts.
  split; intros H r Hr; specialize (H r Hr); destruct (cpm_array r);
    try discriminate; try reflexivity. now destruct H.
Qed.

(** X17.  The loop of [main] over the reactions converts every reaction
    when each has a count.  Otherwise it raises [IndexError] at the first
    reaction with no count: the reactions before it are converted, and it and
    the reactions after it are left as they were. *)
Theorem convert_all_loop (rxns : list Reaction) :
  (Forall (fun r => cpm_array r <> []) rxns /\
   convert_all rxns = (map (fun r => fst (calc_conc r)) rxns, Ok tt)) \/
  (exists pre r post,
     rxns = pre ++ r :: post /\
     Forall (fun r => cpm_array r <> []) pre /\ cpm_array r = [] /\
     convert_all rxns
     = (map (fun x => fst (calc_conc x)) pre ++ r :: post, Raise IndexError)).
Proof.
  destruct (forallb has_counts rxns) eqn:H.
  - left. split; [now apply has_counts_spec|now apply convert_all_ok].
  - right. destruct (first_without_counts rxns H) as (pre & r & post & -> & Hpre & Hr).
    exists pre, r, post. split; [reflexivity|].
    split; [now apply has_counts_spec|]. split.
    + unfold has_counts in Hr. destruct (cpm_array r); [reflexivity|discriminate].
    + now apply convert_all_stops.
Qed.

(** X18.  [main] never prints its usage message and never calls
    [sys.exit]: the handler of the [try] block catches [IOError], which
    reading [sys.argv] does not raise.  With fewer than two arguments on the
    command line, [main] ends on an [IndexError] that nothing catches. *)
Theorem main_usage_unreachable (argv : list string) (fs : string -> option string) :
  (forall code, main argv fs <> Exit code) /\
  ((List.length argv < 3)%nat -> main argv fs = Uncaught IndexError).
Proof.
  unfold main, getitem. split.
  - intros code.
    destruct argv as [|a0 [|a1 [|a2 rest]]]; cbn; try discriminate.
    destruct (fs a1) as [text|]; [|discriminate].
    destruct (read_data text) as [rxns|e]; [|discriminate].
    unfold convert_and_aggregate.
    destruct (convert_all rxns) as [rxns' [[]|e]]; [|discriminate].
    destruct (aggregate rxns') as [[ave std]|e]; discriminate.
  - intros H. destruct argv as [|a0 [|a1 [|a2 rest]]]; cbn in *;
      try reflexivity; lia.
Qed.

Lemma main_usage_unreachable_witness :
  main ["triplicate_aa_plot.py"; "data.txt"] (fun _ => Some example_file)
  = Uncaught IndexError.
Proof.
  apply (proj2 (main_usage_unreachable ["triplicate_aa_plot.py"; "data.txt"]
                  (fun _ => Some example_file))).
  cbn. lia.
Defined.

Lemma as_read_counts r : as_read r -> has_counts r = true ->
  List.length (time_array r)
  = List.length (conc_array (fst (calc_conc r))).
Proof.
  intros (L & _) H. unfold has_counts in H.
  destruct (cpm_array r) as [|c0 rest] eqn:E; [discriminate|].
  rewrite (calc_conc_ok r c0 rest E). cbn. now rewrite !length_map, L, E.
Qed.

Lemma uniform_converted n rxns :
  Forall as_read rxns -> forallb has_counts rxns = true ->
  uniform n (map (fun r => fst (calc_conc r)) rxns) = counts n rxns.
Proof.
  intros A H. induction rxns as [|r rxns IH]; [reflexivity|].
  inversion A as [|? ? Ar Arest]; subst.
  cbn [forallb] in H. apply andb_true_iff in H. destruct H as [Hr H].
  unfold uniform, counts in *. cbn [map forallb].
  rewrite (IH Arest H). f_equal.
  rewrite <- (as_read_counts r Ar Hr). destruct Ar as (L & _). now rewrite L.
Qed.

Lemma calc_conc_time r : time_array (fst (calc_conc r)) = time_array r.
Proof.
  unfold calc_conc. destruct (getitem (cpm_array r) 0); reflexivity.
Qed.

(** What becomes of reactions as read. *)
Lemma convert_and_aggregate_cases rxns :
  Forall as_read rxns ->
  match rxns with
  | [] => convert_and_aggregate rxns = Uncaught IndexError
  | rxn0 :: _ =>
      if forallb has_counts rxns then
        if counts (List.length (cpm_array rxn0)) rxns then
          exists ave std, convert_and_aggregate rxns = Fits ave std /\
            List.length ave = List.length (cpm_array rxn0) /\
            List.length std = List.length (cpm_array rxn0)
        else convert_and_aggregate rxns = Uncaught (ValueError by_np_reshape)
      else convert_and_aggregate rxns = Uncaught IndexError
  end.
Proof.
  intros A. destruct rxns as [|rxn0 rest]; [reflexivity|].
  unfold convert_and_aggregate.
  destruct (forallb has_counts (rxn0 :: rest)) eqn:H.
  - rewrite (convert_all_ok _ H).
    pose proof (uniform_converted (List.length (cpm_array rxn0)) _ A H) as U.
    assert (T : List.length (time_array (fst (calc_conc rxn0)))
                = List.length (cpm_array rxn0)).
    { rewrite calc_conc_time. inversion A as [|? ? (L & _) _]. exact L. }
    cbn [map] in *. rewrite <- T in U at 1.
    destruct (counts _ _).
    + rewrite (aggregate_uniform _ _ U). do 2 eexists.
      split; [reflexivity|]. now rewrite !length_map, !length_seq.
    + now rewrite (aggregate_not_uniform _ _ U).
  - destruct (first_without_counts _ H) as (pre & r & post & -> & Hpre & Hr).
    now rewrite (convert_all_stops pre r post Hpre Hr).
Qed.

Lemma main_reads a0 name prefix more fs text :
  fs name = Some text ->
  main (a0 :: name :: prefix :: more) fs
  = match read_data text with
    | Raise e => Uncaught e
    | Ok rxns => convert_and_aggregate rxns
    end.
Proof. intros E. unfold main. cbn. now rewrite E. Qed.

(** X19.  When [main] gets to the fit, the file named by the first
    argument was read into at least one reaction, every reaction has the same
    number of time points and of counts, at least one, and there is a mean
    and a standard deviation for each time point. *)
Theorem main_fits (argv : list string) (fs : string -> option string)
    (ave std : list float) :
  main argv fs = Fits ave std ->
  exists name text rxn0 rest,
    nth_error argv 1 = Some name /\ fs name = Some text /\
    read_data text = Ok (rxn0 :: rest) /\
    let n := List.length (time_array rxn0) in
    (0 < n)%nat /\
    Forall (fun r => List.length (time_array r) = n /\
                     List.length (cpm_array r) = n) (rxn0 :: rest) /\
    List.length ave = n /\ List.length std = n.
Proof.
  intros H. destruct argv as [|a0 [|name [|prefix more]]]; try discriminate.
  destruct (fs name) as [text|] eqn:Efs.
  2:{ unfold main in H. cbn in H. rewrite Efs in H. discriminate. }
  rewrite (main_reads a0 name prefix more fs text Efs) in H.
  destruct (read_data text) as [rxns|e] eqn:R; [|discriminate].
  pose proof (read_data_lines_as_read _ rxns R) as A.
  pose proof (convert_and_aggregate_cases rxns A) as C.
  destruct rxns as [|rxn0 rest]; [rewrite C in H; discriminate|].
  exists name, text, rxn0, rest.
  split; [reflexivity|]. split; [exact Efs|]. split; [exact R|].
  assert (L0 : List.length (time_array rxn0) = List.length (cpm_array rxn0)).
  { inversion A as [|? ? (L & _) _]. exact L. }
  cbn zeta. rewrite L0.
  destruct (forallb has_counts (rxn0 :: rest)) eqn:Hc;
    [|rewrite C in H; discriminate].
  destruct (counts _ _) eqn:Hn; [|rewrite C in H; discriminate].
  destruct C as (ave' & std' & E & La & Ls). rewrite E in H.
  injection H as <- <-.
  split.
  { cbn in Hc. apply andb_true_iff in Hc. destruct Hc as [Hc _].
    unfold has_counts in Hc. destruct (cpm_array rxn0); [discriminate|cbn; lia]. }
  split; [|split; assumption].
  apply counts_spec in Hn. rewrite Forall_forall in *.
  intros r Hr. specialize (Hn r Hr). destruct (A r Hr) as (L & _).
  split; congruence.
Qed.

Lemma main_fits_witness :
  exists name text rxn0 rest,
    nth_error ["triplicate_aa_plot.py"; "data.txt"; "fig"] 1 = Some name /\
    (fun _ : string => Some example_file) name = Some text /\
    read_data text = Ok (rxn0 :: rest) /\
    let n := List.length (time_array rxn0) in
    (0 < n)%nat /\
    Forall (fun r => List.length (time_array r) = n /\
                     List.length (cpm_array r) = n) (rxn0 :: rest) /\
    List.length [0; 10; 16]%float = n /\ List.length [0; 0; 0]%float = n.
Proof.
  apply (main_fits ["triplicate_aa_plot.py"; "data.txt"; "fig"]
           (fun _ => Some example_file) [0; 10; 16]%float [0; 0; 0]%float).
  vm_compute. reflexivity.
Defined.

(** X20.  Once the file is read, [main] has four ways to go.  With no
    reaction, and with a reaction that has no count, it ends on an
    [IndexError]; with reactions that all have counts but not the same number
    of them, on the [ValueError] of [np.reshape]; with one reaction or more
    that all have the same number of counts, at least one, it gets to the
    fit with a mean and a standard deviation for each time point. *)
Theorem main_outcomes (a0 name prefix : string) (more : list string)
    (fs : string -> option string) (text : string) (rxns : list Reaction) :
  fs name = Some text -> read_data text = Ok rxns ->
  let argv := a0 :: name :: prefix :: more in
  (rxns = [] -> main argv fs = Uncaught IndexError) /\
  (Exists (fun r => cpm_array r = []) rxns -> main argv fs = Uncaught IndexError) /\
  (Forall (fun r => cpm_array r <> []) rxns ->
   forall r1 r2, In r1 rxns -> In r2 rxns ->
     List.length (cpm_array r1) <> List.length (cpm_array r2) ->
     main argv fs = Uncaught (ValueError by_np_reshape)) /\
  (forall n, (0 < n)%nat -> rxns <> [] ->
     Forall (fun r => List.length (cpm_array r) = n) rxns ->
     exists ave std, main argv fs = Fits ave std /\
       List.length ave = n /\ List.length std = n).
Proof.
  intros Efs R argv. unfold argv.
  rewrite (main_reads a0 name prefix more fs text Efs), R.
  pose proof (read_data_lines_as_read _ rxns R) as A.
  pose proof (convert_and_aggregate_cases rxns A) as C.
  split; [|split; [|split]].
  - intros ->. exact C.
  - intros E. destruct rxns as [|rxn0 rest]; [inversion E|].
    destruct (forallb has_counts (rxn0 :: rest)) eqn:Hc; [|exact C].
    apply has_counts_spec in Hc. apply Exists_exists in E.
    destruct E as (r & Hr & Er). rewrite Forall_forall in Hc.
    now destruct (Hc r Hr).
  - intros Hc r1 r2 H1 H2 Hne.
    destruct rxns as [|rxn0 rest]; [contradiction|].
    apply has_counts_spec in Hc. rewrite Hc in C.
    destruct (counts _ _) eqn:Hn; [|exact C]. exfalso.
    apply counts_spec in Hn. rewrite Forall_forall in Hn.
    apply Hne. now rewrite (Hn r1 H1), (Hn r2 H2).
  - intros n Hpos Hne Hall.
    destruct rxns as [|rxn0 rest]; [now destruct Hne|].
    assert (E0 : List.length (cpm_array rxn0) = n).
    { inversion Hall; assumption. }
    assert (Hc : forallb has_counts (rxn0 :: rest) = true).
    { apply has_counts_spec. rewrite Forall_forall in *.
      intros r Hr E. specialize (Hall r Hr). rewrite E in Hall. cbn in Hall. lia. }
    rewrite Hc, E0 in C. apply counts_spec in Hall. rewrite Hall in C. exact C.
Qed.

Lemma main_outcomes_witness :
  main ["triplicate_aa_plot.py"; "empty.txt"; "fig"] (fun _ => Some "")
  = Uncaught IndexError /\
  main ["triplicate_aa_plot.py"; "data.txt"; "fig"]
       (fun _ => Some ("conc 10.0" ++ newline ++ "sa 50.0" ++ newline)%string)
  = Uncaught IndexError.
Proof.
  split.
  - destruct (main_outcomes "triplicate_aa_plot.py" "empty.txt" "fig" []
                (fun _ => Some "") "" [] eq_refl eq_refl) as (H & _).
    apply H. reflexivity.
  - destruct (main_outcomes "triplicate_aa_plot.py" "data.txt" "fig" []
                (fun _ => Some ("conc 10.0" ++ newline ++ "sa 50.0" ++ newline)%string)
                ("conc 10.0" ++ newline ++ "sa 50.0" ++ newline)%string
                [Reaction_init [] [] 50 10] eq_refl eq_refl) as (_ & H & _).
    apply H. left. reflexivity.
Defined.

(** X24.  On a file made of one experiment or more, each a [conc] line,
    the same number of data lines, at least one, and an [sa] line, [main]
    gets to the fit, with a mean and a standard deviation for each time
    point. *)
Theorem main_on_experiments (a0 name prefix : string) (more : list string)
    (fs : string -> option string) (text : string)
    (experiments : list (list string)) (blocks : list block) (n : nat) :
  fs name = Some text ->
  Text.readlines text = List.concat experiments ->
  Forall2 block_lines experiments blocks ->
  blocks <> [] -> (0 < n)%nat ->
  Forall (fun b => List.length (b_data b) = n) blocks ->
  exists ave std,
    main (a0 :: name :: prefix :: more) fs = Fits ave std /\
    List.length ave = n /\ List.length std = n.
Proof.
  intros Efs El Hb Hne Hn Hall.
  assert (R : read_data text = Ok (map block_reaction blocks)).
  { unfold read_data. rewrite El. now apply read_blocks. }
  rewrite (main_reads a0 name prefix more fs text Efs), R.
  pose proof (convert_and_aggregate_cases _ (read_data_lines_as_read _ _ R)) as C.
  destruct blocks as [|b0 blocks]; [now destruct Hne|].
  cbn [map] in C.
  assert (Hc : Forall (fun r => List.length (cpm_array r) = n)
                 (map block_reaction (b0 :: blocks))).
  { apply Forall_forall. intros r Hr. apply in_map_iff in Hr.
    destruct Hr as (b & <- & Hin). rewrite Forall_forall in Hall.
    cbn. rewrite length_map. now apply Hall. }
  assert (Hh : forallb has_counts (map block_reaction (b0 :: blocks)) = true).
  { apply has_counts_spec. rewrite Forall_forall in *.
    intros r Hr E. specialize (Hc r Hr). rewrite E in Hc. cbn in Hc. lia. }
  cbn [map] in Hh, Hc. rewrite Hh in C.
  assert (E0 : List.length (cpm_array (block_reaction b0)) = n).
  { inversion Hc; assumption. }
  rewrite E0 in C. apply counts_spec in Hc. rewrite Hc in C. exact C.
Qed.

Lemma main_on_experiments_witness :
  exists ave std,
    main ["triplicate_aa_plot.py"; "data.txt"; "fig"]
         (fun _ => Some example_file) = Fits ave std /\
    List.length ave = 3%nat /\ List.length std = 3%nat.
Proof.
  apply (main_on_experiments "triplicate_aa_plot.py" "data.txt" "fig" []
           (fun _ => Some example_file) example_file
           [[("conc 10.0" ++ newline)%string; ("0.0 100.0" ++ newline)%string;
             ("5.0 150.0" ++ newline)%string; ("10.0 180.0" ++ newline)%string;
             ("sa 50.0" ++ newline)%string]]
           [mkBlock 10 [(0, 100); (5, 150); (10, 180)]%float 50]).
  - reflexivity.
  - reflexivity.
  - constructor; [|constructor].
    exists ("conc 10.0" ++ newline)%string,
      [("0.0 100.0" ++ newline)%string; ("5.0 150.0" ++ newline)%string;
       ("10.0 180.0" ++ newline)%string],
      ("sa 50.0" ++ newline)%string.
    split; [reflexivity|]. split; [|split].
    + exists "10.0", []. split; reflexivity.
    + repeat constructor.
      * exists "0.0", "100.0", []. repeat split; discriminate.
      * exists "5.0", "150.0", []. repeat split; discriminate.
      * exists "10.0", "180.0", []. repeat split; discriminate.
    + exists "50.0", []. split; reflexivity.
  - discriminate.
  - lia.
  - repeat constructor.
Defined.

(** ** [print_data] *)

(** *** Strings *)

Lemma chars_in_app ok a b :
  chars_in ok (a ++ b) = chars_in ok a && chars_in ok b.
Proof.
  induction a as [|c a IH]; cbn; [reflexivity|].
  now rewrite IH, andb_assoc.
Qed.

Lemma chars_in_impl (ok ok' : ascii -> bool) s :
  (forall c, ok c = true -> ok' c = true) ->
  chars_in ok s = true -> chars_in ok' s = true.
Proof.
  intros H. induction s as [|c s IH]; cbn; [reflexivity|].
  intros E. apply andb_true_iff in E. destruct E as [Ec Es].
  now rewrite (H c Ec), (IH Es).
Qed.

Lemma string_of_list_ascii_app a b :
  string_of_list_ascii (a ++ b)
  = (string_of_list_ascii a ++ string_of_list_ascii b)%string.
Proof. induction a as [|c a IH]; cbn; [reflexivity|now rewrite IH]. Qed.

Lemma fold_append_app (a b : list string) :
  fold_right String.append "" (a ++ b)
  = (fold_right String.append "" a ++ fold_right String.append "" b)%string.
Proof.
  induction a as [|x a IH]; cbn; [reflexivity|].
  now rewrite IH, append_assoc_string.
Qed.

(** *** The characters of a formatted number *)

Lemma number_char_uint u :
  chars_in number_char (DecimalString.NilEmpty.string_of_uint u) = true.
Proof. induction u; cbn; try reflexivity; exact IHu. Qed.

Lemma number_char_decimal n : chars_in number_char (Format.decimal n) = true.
Proof.
  unfold Format.decimal, DecimalString.NilZero.string_of_uint.
  destruct (N.to_uint (Z.to_N n)) eqn:E; try reflexivity;
    rewrite <- E; apply number_char_uint.
Qed.

Lemma number_char_digit d :
  (0 <= d < 10)%Z -> number_char (Format.digit d) = true.
Proof.
  intros H.
  assert (C : (d = 0 \/ d = 1 \/ d = 2 \/ d = 3 \/ d = 4 \/ d = 5 \/ d = 6
               \/ d = 7 \/ d = 8 \/ d = 9)%Z) by lia.
  repeat (destruct C as [->|C]; [reflexivity|]). now subst.
Qed.

Lemma number_char_fraction p : forall r,
  (0 <= r < 10 ^ Z.of_nat p)%Z ->
  chars_in number_char (Format.fraction p r) = true.
Proof.
  induction p as [|p IH]; intros r H; [reflexivity|].
  cbn [Format.fraction chars_in].
  rewrite Nat2Z.inj_succ, Z.pow_succ_r in H by lia.
  assert (P : (0 < 10 ^ Z.of_nat p)%Z) by (apply Z.pow_pos_nonneg; lia).
  rewrite number_char_digit, IH; [reflexivity| |].
  - apply Z.mod_pos_bound. exact P.
  - split; [apply Z.div_pos; lia|]. apply Z.div_lt_upper_bound; lia.
Qed.

Lemma number_char_fixed p q : chars_in number_char (Format.fixed p q) = true.
Proof.
  unfold Format.fixed. destruct p as [|p]; [apply number_char_decimal|].
  rewrite !chars_in_app, number_char_decimal, number_char_fraction;
    [reflexivity|].
  apply Z.mod_pos_bound. apply Z.pow_pos_nonneg; lia.
Qed.

(** A formatted number is made of digits, a sign, a point, and the letters
    of [nan] and [inf]. *)
Lemma number_char_percent_f p x :
  chars_in number_char (Format.percent_f p x) = true.
Proof.
  unfold Format.percent_f.
  destruct (Prim2SF x) as [s|s| |s m e]; try reflexivity.
  - rewrite chars_in_app, number_char_fixed. now destruct s.
  - now destruct s.
  - rewrite chars_in_app, number_char_fixed. now destruct s.
Qed.

Lemma number_char_no_tab c : number_char c = true -> no_tab c = true.
Proof.
  unfold no_tab. destruct (Ascii.eqb_spec c Format.TAB) as [->|]; [discriminate|reflexivity].
Qed.

Lemma number_char_no_break c : number_char c = true -> no_break c = true.
Proof.
  unfold no_break.
  destruct (Ascii.eqb_spec c Text.LF) as [->|]; [discriminate|].
  destruct (Ascii.eqb_spec c Text.CR) as [->|]; [discriminate|reflexivity].
Qed.

(** *** Fields *)

Lemma fields_from_no_tab a : forall s cur,
  chars_in no_tab a = true ->
  fields_from (a ++ s) cur = fields_from s (rev (list_ascii_of_string a) ++ cur).
Proof.
  induction a as [|c a IH]; intros s cur H; [reflexivity|].
  cbn in H. apply andb_true_iff in H. destruct H as [Hc Ha].
  unfold no_tab in Hc. apply negb_true_iff in Hc.
  cbn [append fields_from list_ascii_of_string rev]. rewrite Hc, (IH s _ Ha).
  now rewrite <- app_assoc.
Qed.

Lemma fields_from_field a s :
  chars_in no_tab a = true ->
  fields_from (a ++ String Format.TAB s) [] = a :: fields_from s [].
Proof.
  intros H. rewrite (fields_from_no_tab a _ [] H). cbn [fields_from].
  rewrite Ascii.eqb_refl, app_nil_r, rev_involutive.
  now rewrite string_of_list_ascii_of_string.
Qed.

Lemma fields_from_last a :
  chars_in no_tab a = true -> fields_from a [] = [a].
Proof.
  intros H. rewrite <- (append_empty_r a) at 1.
  rewrite (fields_from_no_tab a "" [] H). cbn [fields_from].
  now rewrite app_nil_r, rev_involutive, string_of_list_ascii_of_string.
Qed.

Lemma fields_from_lanes (f : nat -> string) (ls : list nat) :
  (forall l, chars_in no_tab (f l) = true) ->
  forall a, chars_in no_tab a = true ->
  fields_from
    (a ++ fold_right String.append "" (map (fun l => (tab ++ f l)%string) ls)) []
  = a :: map f ls.
Proof.
  intros Hf. induction ls as [|l ls IH]; intros a Ha.
  - cbn. rewrite append_empty_r. now apply fields_from_last.
  - cbn [map fold_right]. unfold tab at 1. cbn [append].
    rewrite (fields_from_field a _ Ha). f_equal. apply IH, Hf.
Qed.

Lemma fields_row counts_array time_array rxn i t :
  nth_error time_array i = Some t ->
  fields (row counts_array time_array rxn i)
  = Format.percent_f 1 t :: ""
    :: map (fun l => Format.percent_f 3 (item counts_array rxn i l))
         (seq 0 (num_lanes counts_array)).
Proof.
  intros H. unfold fields, row, write_lanes.
  rewrite (nth_error_nth _ _ 0%float H). unfold tab at 1. cbn [append].
  rewrite fields_from_field.
  2:{ apply (chars_in_impl number_char no_tab _ number_char_no_tab),
        number_char_percent_f. }
  f_equal.
  apply (fields_from_lanes
           (fun l => Format.percent_f 3 (item counts_array rxn i l)) _
           (fun l => chars_in_impl number_char no_tab _ number_char_no_tab
                       (number_char_percent_f 3 _)) "" eq_refl).
Qed.

(** *** Lines *)

Lemma readlines_from_line a : forall rest cur,
  chars_in no_break a = true ->
  Text.readlines_from (a ++ String Text.LF rest) cur false
  = (string_of_list_ascii (rev cur) ++ a ++ newline)%string
    :: Text.readlines_from rest [] false.
Proof.
  induction a as [|c a IH]; intros rest cur H.
  - cbn. now rewrite string_of_list_ascii_app.
  - cbn in H. apply andb_true_iff in H. destruct H as [Hc Ha].
    unfold no_break in Hc. apply negb_true_iff, orb_false_iff in Hc.
    destruct Hc as [H1 H2].
    cbn [append Text.readlines_from]. rewrite H1, H2, (IH rest _ Ha).
    f_equal. cbn [rev]. rewrite string_of_list_ascii_app. cbn.
    now rewrite append_assoc_string.
Qed.

(** Lines written one after the other are read back as they were. *)
Lemma readlines_lines (bodies : list string) :
  Forall (fun b => chars_in no_break b = true) bodies ->
  Text.readlines
    (fold_right String.append "" (map (fun b => (b ++ newline)%string) bodies))
  = map (fun b => (b ++ newline)%string) bodies.
Proof.
  unfold Text.readlines. induction bodies as [|b bodies IH]; intros H.
  - reflexivity.
  - inversion H as [|? ? Hb Hrest]; subst. cbn [map fold_right].
    rewrite append_assoc_string. unfold newline at 1. cbn [append].
    rewrite (readlines_from_line b _ [] Hb). cbn. now rewrite (IH Hrest).
Qed.

Lemma no_break_lanes counts_array rxn i :
  chars_in no_break (write_lanes counts_array rxn i) = true.
Proof.
  unfold write_lanes. induction (seq 0 (num_lanes counts_array)) as [|l ls IH].
  - reflexivity.
  - cbn [map fold_right]. rewrite !chars_in_app, IH.
    rewrite (chars_in_impl number_char no_break _ number_char_no_break
               (number_char_percent_f 3 _)).
    reflexivity.
Qed.

Lemma no_break_row counts_array time_array rxn i :
  chars_in no_break (row counts_array time_array rxn i) = true.
Proof.
  unfold row. rewrite !chars_in_app, no_break_lanes.
  rewrite (chars_in_impl number_char no_break _ number_char_no_break
             (number_char_percent_f 1 _)).
  reflexivity.
Qed.

Lemma table_lines counts_array time_array tps (rxns : list nat) :
  Text.readlines
    (fold_right String.append ""
       (flat_map (table counts_array time_array tps) rxns))
  = flat_map (table counts_array time_array tps) rxns.
Proof.
  set (body := fun rxn =>
         ("Time/Fraction" ++ tab ++ "1" ++ tab ++ "2" ++ tab ++ "3" ++ tab
          ++ "4")%string
         :: map (row counts_array time_array rxn) tps).
  assert (E : flat_map (table counts_array time_array tps) rxns
              = map (fun b => (b ++ newline)%string) (flat_map body rxns)).
  { induction rxns as [|rxn rxns IH]; [reflexivity|].
    cbn [flat_map]. rewrite map_app, <- IH. f_equal.
    unfold table, body. cbn [map]. now rewrite map_map. }
  rewrite E. apply readlines_lines.
  apply Forall_forall. intros b Hb. apply in_flat_map in Hb.
  destruct Hb as (rxn & _ & [<-|Hb]); [reflexivity|].
  apply in_map_iff in Hb. destruct Hb as (i & <- & _). apply no_break_row.
Qed.

(** *** The loops *)

Lemma getitem_in_range (time_array : list float) i :
  (i < List.length time_array)%nat ->
  getitem time_array i = Ok (nth i time_array 0%float).
Proof. intros H. unfold getitem. now rewrite (nth_error_nth' _ 0%float H). Qed.

Lemma getitem_out_of_range (time_array : list float) i :
  (List.length time_array <= i)%nat -> getitem time_array i = Raise IndexError.
Proof.
  intros H. unfold getitem.
  now rewrite (proj2 (nth_error_None time_array i) H).
Qed.

Lemma write_rows_ok counts_array time_array rxn tps :
  Forall (fun i => (i < List.length time_array)%nat) tps ->
  write_rows counts_array time_array rxn tps
  = (fold_right String.append ""
       (map (fun i => (row counts_array time_array rxn i ++ newline)%string) tps),
     Ok tt).
Proof.
  induction tps as [|i tps IH]; intros H; [reflexivity|].
  inversion H as [|? ? Hi Htps]; subst.
  cbn [write_rows map fold_right]. rewrite (getitem_in_range _ _ Hi), (IH Htps).
  f_equal. unfold row. now rewrite !append_assoc_string.
Qed.

Lemma write_rows_stops counts_array time_array rxn tps i rest :
  Forall (fun i => (i < List.length time_array)%nat) tps ->
  (List.length time_array <= i)%nat ->
  write_rows counts_array time_array rxn (tps ++ i :: rest)
  = (fold_right String.append ""
       (map (fun i => (row counts_array time_array rxn i ++ newline)%string) tps),
     Raise IndexError).
Proof.
  intros H Hi. induction tps as [|j tps IH].
  - cbn. now rewrite (getitem_out_of_range _ _ Hi).
  - inversion H as [|? ? Hj Htps]; subst.
    cbn [app write_rows map fold_right].
    rewrite (getitem_in_range _ _ Hj), (IH Htps).
    f_equal. unfold row. now rewrite !append_assoc_string.
Qed.

Lemma seq_in_range n m : (n <= m)%nat -> Forall (fun i => (i < m)%nat) (seq 0 n).
Proof.
  intros H. apply Forall_forall. intros i Hi. apply in_seq in Hi. lia.
Qed.

Lemma write_rxns_ok counts_array time_array rxns :
  (num_tp counts_array <= List.length time_array)%nat ->
  write_rxns counts_array time_array rxns
  = (fold_right String.append ""
       (flat_map (table counts_array time_array (seq 0 (num_tp counts_array))) rxns),
     Ok tt).
Proof.
  intros H. induction rxns as [|rxn rxns IH]; [reflexivity|].
  cbn [write_rxns flat_map].
  rewrite (write_rows_ok _ _ rxn _ (seq_in_range _ _ H)), IH.
  f_equal. unfold table. now rewrite fold_append_app.
Qed.

(** X21.  With a time for each time point, [print_data] returns, and the
    file [<prefix>-frac.dat] holds, for each reaction in turn, the header
    line and one line for each time point.  The header has five fields
    between tabs, whatever the number of lanes.  A line of data has the
    time with one digit after the point, then an empty field, then the
    counts of the lanes with three digits: two fields more than lanes, so
    its counts stand one column to the right of the header's lanes. *)
Theorem print_data_table (counts_array : ndarray3) (time_array : list float)
    (out_file_prefix : string) :
  (num_tp counts_array <= List.length time_array)%nat ->
  exists content,
    print_data counts_array time_array out_file_prefix
    = ((out_file_prefix ++ "-frac.dat")%string, (content, Ok tt)) /\
    Text.readlines content
    = flat_map
        (fun rxn =>
           header
           :: map (fun i => (row counts_array time_array rxn i ++ newline)%string)
                (seq 0 (num_tp counts_array)))
        (seq 0 (num_rxns counts_array)) /\
    fields header = ["Time/Fraction"; "1"; "2"; "3"; ("4" ++ newline)%string] /\
    forall rxn i t, nth_error time_array i = Some t ->
      fields (row counts_array time_array rxn i)
      = Format.percent_f 1 t :: ""
        :: map (fun l => Format.percent_f 3 (item counts_array rxn i l))
             (seq 0 (num_lanes counts_array)).
Proof.
  intros H. unfold print_data. rewrite (write_rxns_ok _ _ _ H).
  eexists. split; [reflexivity|]. split; [|split].
  - apply table_lines.
  - reflexivity.
  - intros rxn i t. apply fields_row.
Qed.

Lemma print_data_table_witness :
  print_data small_table [0; 5]%float "out"
  = ("out-frac.dat",
     (header ++ "0.0" ++ tab ++ tab ++ "0.250" ++ tab ++ "1.000" ++ newline
      ++ "5.0" ++ tab ++ tab ++ "1.000" ++ tab ++ "1.000" ++ newline,
      Ok tt))%string /\
  exists content,
    print_data small_table [0; 5]%float "out"
    = (("out" ++ "-frac.dat")%string, (content, Ok tt)) /\
    Text.readlines content
    = flat_map
        (fun rxn =>
           header
           :: map (fun i => (row small_table [0; 5]%float rxn i ++ newline)%string)
                (seq 0 (num_tp small_table)))
        (seq 0 (num_rxns small_table)) /\
    fields header = ["Time/Fraction"; "1"; "2"; "3"; ("4" ++ newline)%string] /\
    forall rxn i t, nth_error [0; 5]%float i = Some t ->
      fields (row small_table [0; 5]%float rxn i)
      = Format.percent_f 1 t :: ""
        :: map (fun l => Format.percent_f 3 (item small_table rxn i l))
             (seq 0 (num_lanes small_table)).
Proof.
  split; [vm_compute; reflexivity|].
  apply (print_data_table small_table [0; 5]%float "out"). cbn. lia.
Defined.

(** X22.  With fewer times than time points, and a reaction to print,
    [print_data] raises [IndexError] in the first reaction, and the file is
    left with the header and one line for each of the times there are. *)
Theorem print_data_short_time_array (counts_array : ndarray3)
    (time_array : list float) (out_file_prefix : string) :
  (0 < num_rxns counts_array)%nat ->
  (List.length time_array < num_tp counts_array)%nat ->
  exists content,
    print_data counts_array time_array out_file_prefix
    = ((out_file_prefix ++ "-frac.dat")%string, (content, Raise IndexError)) /\
    Text.readlines content
    = header
      :: map (fun i => (row counts_array time_array 0 i ++ newline)%string)
           (seq 0 (List.length time_array)).
Proof.
  intros Hr Ht. unfold print_data.
  destruct (num_rxns counts_array) as [|m]; [lia|].
  cbn [seq write_rxns].
  replace (num_tp counts_array)
    with (List.length time_array
          + S (num_tp counts_array - S (List.length time_array)))%nat by lia.
  rewrite seq_app. cbn [seq Nat.add].
  rewrite (write_rows_stops _ _ 0 _ _ _ (seq_in_range _ _ (le_n _)) (le_n _)).
  eexists. split; [reflexivity|].
  pose proof (table_lines counts_array time_array
                (seq 0 (List.length time_array)) [0%nat]) as T.
  cbn [flat_map] in T. rewrite app_nil_r in T. exact T.
Qed.

Lemma print_data_short_time_array_witness :
  exists content,
    print_data small_table [0]%float "out"
    = (("out" ++ "-frac.dat")%string, (content, Raise IndexError)) /\
    Text.readlines content
    = header
      :: map (fun i => (row small_table [0]%float 0 i ++ newline)%string)
           (seq 0 (List.length [0]%float)).
Proof.
  apply (print_data_short_time_array small_table [0]%float "out"); cbn; lia.
Defined.
